(** * SemanticsRepository: a shallow embedding of
      ethtx/providers/semantic_providers/repository.py

    The repository resolves "semantics" of blockchain addresses through a
    tiered lookup (store, chain, ABI registry, heuristics), memoizes the
    results with [functools.lru_cache] and keeps a registry of function
    signatures.  The embedding follows the Python source method by
    method:

    - Python dicts are insertion-ordered association lists ([dict]);
    - pydantic models are records, the raw documents exchanged with the
      database are records of their own ([RawParameter], [RawContract], ...);
    - resolved [AddressSemantics] objects live on a heap and are handed
      around by location, because the caches and the callers share them
      and [get_constructor_abi] mutates them in place;
    - every method is a computation in a state-and-exception monad that
      also reports the calls made to the collaborators (database, web3,
      Etherscan, ENS, ABI decoder, amendment router). *)

From Stdlib Require Import ZArith String Ascii.
From stdpp Require Import base decidable option list strings.

Local Open Scope Z_scope.
Local Open Scope string_scope.
Local Open Scope list_scope.
Local Set Warnings "-register-all".

(** ** Python dictionaries with string keys *)

Abbreviation dict V := (list (string * V)) (only parsing).

Fixpoint dict_get {V} (k : string) (d : dict V) : option V :=
  match d with
  | [] => None
  | (k', v) :: d' => if decide (k' = k) then Some v else dict_get k d'
  end.

(** [k in d] *)
Definition dict_in {V} (k : string) (d : dict V) : bool :=
  bool_decide (is_Some (dict_get k d)).

Definition dict_values {V} (d : dict V) : list V := map snd d.

(** [del d[k]] *)
Definition dict_remove {V} (k : string) (d : dict V) : dict V :=
  filter (fun kv => kv.1 <> k) d.

(** [needle in haystack] on Python strings *)
Definition str_contains (needle haystack : string) : bool :=
  bool_decide (is_Some (String.index 0 needle haystack)).

(** [s.startswith(p)] *)
Definition startswith (s p : string) : bool := String.prefix p s.

(** ** The semantics model (ethtx.models.semantics_model) *)

Inductive ParameterSemantics : Type := mkParameterSemantics {
  parameter_name : string;
  parameter_type : string;
  components : list ParameterSemantics;
  indexed : bool;
  dynamic : bool
}.

Record EventSemantics : Type := mkEventSemantics {
  ev_signature : string;
  ev_anonymous : bool;
  ev_name : string;
  ev_parameters : list ParameterSemantics
}.

Record FunctionSemantics : Type := mkFunctionSemantics {
  fn_signature : string;
  fn_name : string;
  fn_inputs : list ParameterSemantics;
  fn_outputs : list ParameterSemantics
}.

(** [transformed_name] and [transformed_type] are optional;
    [transformation] is a string, which the constructor requires. *)
Record TransformationSemantics : Type := mkTransformationSemantics {
  transformed_name : option string;
  transformed_type : option string;
  transformation : string
}.

Record ERC20Semantics : Type := mkERC20Semantics {
  erc20_name : string;
  erc20_symbol : string;
  erc20_decimals : Z
}.

(** [events], [functions] and [transformations] default to empty dicts. *)
Record ContractSemantics : Type := mkContractSemantics {
  code_hash : string;
  contract_name : string;
  events : dict EventSemantics;
  functions : dict FunctionSemantics;
  transformations : dict (dict TransformationSemantics)
}.

(** [standard] and [erc20] default to [None]. *)
Record AddressSemantics : Type := mkAddressSemantics {
  chain_id : string;
  address : string;
  name : string;
  is_contract : bool;
  contract : ContractSemantics;
  standard : option string;
  erc20 : option ERC20Semantics
}.

Record SignatureArg : Type := mkSignatureArg {
  arg_name : string;
  arg_type : string
}.

Record Signature : Type := mkSignature {
  signature_hash : string;
  sig_name : string;
  args : list SignatureArg;
  count : Z;
  tuple : bool;
  guessed : bool
}.

(** ** Raw documents, as the database returns and receives them *)

(** A stored parameter; the ["components"] key may be missing. *)
Inductive RawParameter : Type := mkRawParameter {
  raw_parameter_name : string;
  raw_parameter_type : string;
  raw_components : option (list RawParameter);
  raw_indexed : bool;
  raw_dynamic : bool
}.

Record RawEvent : Type := mkRawEvent {
  raw_ev_signature : string;
  raw_ev_anonymous : bool;
  raw_ev_name : string;
  raw_ev_parameters : list RawParameter
}.

Record RawFunction : Type := mkRawFunction {
  raw_fn_signature : string;
  raw_fn_name : string;
  raw_fn_inputs : list RawParameter;
  raw_fn_outputs : list RawParameter
}.

(** A stored transformation: any of its three values may be null. *)
Record RawTransformation : Type := mkRawTransformation {
  raw_transformed_name : option string;
  raw_transformed_type : option string;
  raw_transformation : option string
}.

Record RawContract : Type := mkRawContract {
  raw_code_hash : string;
  raw_contract_name : string;
  raw_events : dict RawEvent;
  raw_functions : dict RawFunction;
  raw_transformations : dict (dict RawTransformation)
}.

(** A stored address document: the contract is referenced by code hash,
    the ["name"] key is read with [.get] and may be missing. *)
Record RawAddress : Type := mkRawAddress {
  raw_chain_id : string;
  raw_address : string;
  raw_name : option string;
  raw_is_contract : bool;
  raw_contract : string;
  raw_standard : option string;
  raw_erc20 : option ERC20Semantics
}.

(** [decode_parameter], the local function of [_read_stored_semantics]. *)
Fixpoint decode_parameter (_parameter : RawParameter) : ParameterSemantics :=
  match _parameter with
  | mkRawParameter pname ptype comps idx dyn =>
      let components_semantics :=
        match comps with
        | Some cs => map decode_parameter cs
        | None => []
        end in
      mkParameterSemantics pname ptype components_semantics idx dyn
  end.

(** pydantic's [.dict()] on the models that are persisted. *)
Fixpoint parameter_dict (p : ParameterSemantics) : RawParameter :=
  match p with
  | mkParameterSemantics pname ptype comps idx dyn =>
      mkRawParameter pname ptype (Some (map parameter_dict comps)) idx dyn
  end.

Definition event_dict (e : EventSemantics) : RawEvent :=
  mkRawEvent (ev_signature e) (ev_anonymous e) (ev_name e)
    (map parameter_dict (ev_parameters e)).

Definition function_dict (f : FunctionSemantics) : RawFunction :=
  mkRawFunction (fn_signature f) (fn_name f)
    (map parameter_dict (fn_inputs f)) (map parameter_dict (fn_outputs f)).

Definition dict_map {V W} (f : V -> W) (d : dict V) : dict W :=
  map (fun kv => (kv.1, f kv.2)) d.

Definition transformation_dict (t : TransformationSemantics) : RawTransformation :=
  mkRawTransformation (transformed_name t) (transformed_type t)
    (Some (transformation t)).

Definition contract_dict (c : ContractSemantics) : RawContract :=
  mkRawContract (code_hash c) (contract_name c)
    (dict_map event_dict (events c)) (dict_map function_dict (functions c))
    (dict_map (dict_map transformation_dict) (transformations c)).

(** [semantics.copy()] with [contract] replaced by its code hash, then
    [.dict()] (the document [update_semantics] writes). *)
Definition address_dict (a : AddressSemantics) : RawAddress :=
  mkRawAddress (chain_id a) (address a) (Some (name a)) (is_contract a)
    (code_hash (contract a)) (standard a) (erc20 a).

(** ** functools.lru_cache

    A cache is the list of its entries, most recently used first. *)

Definition maxsize : nat := 128.

Section LRU.
Context {K V : Type} `{EqDecision K}.

Definition lru : Type := list (K * V).

Fixpoint lru_find (k : K) (c : lru) : option V :=
  match c with
  | [] => None
  | (k', v) :: c' => if decide (k' = k) then Some v else lru_find k c'
  end.

Fixpoint lru_remove (k : K) (c : lru) : lru :=
  match c with
  | [] => []
  | (k', v) :: c' =>
      if decide (k' = k) then c' else (k', v) :: lru_remove k c'
  end.

(** a hit moves the entry to the front *)
Definition lru_touch (k : K) (v : V) (c : lru) : lru :=
  (k, v) :: lru_remove k c.

(** a miss stores the new result and drops the oldest entry when full *)
Definition lru_store (k : K) (v : V) (c : lru) : lru :=
  take maxsize ((k, v) :: c).

End LRU.

Arguments lru : clear implicits.
Arguments lru_store : simpl never.
Arguments lru_touch : simpl never.

(** ** The database behind [ISemanticsDatabase] *)

(** Modelled from the spec: the Store Adapter ([ISemanticsDatabase] is not
    part of this file).  Three collections of documents: address documents
    keyed by (chain id, address), contract documents keyed by code hash,
    signature documents identified by their position.  An insert with
    [update_if_exist] replaces the document with the same key, any other
    insert appends; [insert_contract] returns an id when it creates a
    document and nothing when it replaces one. *)
Record Database : Type := mkDatabase {
  db_addresses : list RawAddress;
  db_contracts : list RawContract;
  db_signatures : list Signature
}.

Definition address_key (chain addr : string) (r : RawAddress) : Prop :=
  raw_chain_id r = chain /\ raw_address r = addr.

#[global] Instance address_key_dec chain addr r : Decision (address_key chain addr r).
Proof. unfold address_key. apply _. Defined.

Definition find_address (chain addr : string) (db : Database) : option RawAddress :=
  head (filter (address_key chain addr) (db_addresses db)).

Definition find_contract (h : string) (db : Database) : option RawContract :=
  head (filter (fun c => raw_code_hash c = h) (db_contracts db)).

(** the signature documents with a given hash, each with its id *)
Definition find_signatures (h : string) (db : Database) : list (nat * Signature) :=
  filter (fun d => signature_hash d.2 = h) (imap pair (db_signatures db)).

Fixpoint replace_or_append {A} (same : A -> bool) (x : A) (l : list A) : list A :=
  match l with
  | [] => [x]
  | y :: l' => if same y then x :: l' else y :: replace_or_append same x l'
  end.

Definition store_address (r : RawAddress) (db : Database) : Database :=
  mkDatabase
    (replace_or_append
       (fun r' => bool_decide (address_key (raw_chain_id r) (raw_address r) r'))
       r (db_addresses db))
    (db_contracts db) (db_signatures db).

Definition store_contract (c : RawContract) (db : Database) : Database :=
  mkDatabase (db_addresses db)
    (replace_or_append
       (fun c' => bool_decide (raw_code_hash c' = raw_code_hash c))
       c (db_contracts db))
    (db_signatures db).

Definition store_signature (doc_id : option nat) (sg : Signature)
    (update_if_exist : bool) (db : Database) : Database :=
  mkDatabase (db_addresses db) (db_contracts db)
    (match doc_id with
     | Some i =>
         if update_if_exist then <[i := sg]> (db_signatures db)
         else db_signatures db ++ [sg]
     | None => db_signatures db ++ [sg]
     end).

(** ** Calls to the collaborators *)

Inductive Call : Type :=
  | DbGetAddressSemantics (chain addr : string)
  | DbGetContractSemantics (h : string)
  | DbInsertContract (c : RawContract) (update_if_exist : bool)
  | DbInsertAddress (a : RawAddress) (update_if_exist : bool)
  | DbGetSignatureSemantics (h : string)
  | DbInsertSignature (sg : Signature) (update_if_exist : bool)
  | Web3GetCodeHash (addr chain : string)
  | Web3GuessErc20Proxy (addr chain : string)
  | Web3GuessErc20Token (addr chain : string)
  | Web3GetErc20Token (addr nm : string)
  | EnsName (chain addr : string)
  | EtherscanGetContractAbi (chain addr : string)
  | DecodeEventsAndFunctions
  | AmendContractSemantics (c : ContractSemantics).

(** the store tier, the remote registry tier and the heuristic probes *)
Definition is_store_call (c : Call) : bool :=
  match c with
  | DbGetAddressSemantics _ _ | DbGetContractSemantics _
  | DbInsertContract _ _ | DbInsertAddress _ _
  | DbGetSignatureSemantics _ | DbInsertSignature _ _ => true
  | _ => false
  end.

Definition is_registry_call (c : Call) : bool :=
  match c with
  | EtherscanGetContractAbi _ _ | DecodeEventsAndFunctions
  | Web3GetErc20Token _ _ => true
  | _ => false
  end.

Definition is_heuristic_call (c : Call) : bool :=
  match c with
  | Web3GuessErc20Proxy _ _ | Web3GuessErc20Token _ _ => true
  | _ => false
  end.

Definition is_remote_call (c : Call) : bool :=
  match c with
  | Web3GetCodeHash _ _ | EnsName _ _ => true
  | _ => is_registry_call c || is_heuristic_call c
  end.

(** ** The monad of the methods

    A method is a function of the state it works on (the database for the
    methods that only talk to the collaborators, the whole repository
    for the memoized ones). *)

(** The exceptions the methods can raise: Python's own and pydantic's
    [ValidationError].  [Dangling] is not one of them: it marks a read of
    a location outside the heap, which no method performs on a location
    it was handed by [get_semantics]. *)
Inductive Exn : Type :=
  TypeError | AttributeError | ValueError | IndexError | ValidationError | Dangling.

Inductive Result (A : Type) : Type :=
  | Ok (a : A)
  | Raise (e : Exn).
Arguments Ok {A}.
Arguments Raise {A}.

(** What a call leaves behind: its result (or the exception it raised),
    the state afterwards and the collaborator calls it made, oldest
    first. *)
Record Outcome (S A : Type) : Type := mkOutcome {
  result : Result A;
  state : S;
  calls : list Call
}.
Arguments mkOutcome {S A}.
Arguments result {S A}.
Arguments state {S A}.
Arguments calls {S A}.

Definition M (S A : Type) : Type := S -> Outcome S A.

Definition ret {S A} (a : A) : M S A := fun s => mkOutcome (Ok a) s [].

Definition raise {S A} (e : Exn) : M S A := fun s => mkOutcome (Raise e) s [].

Definition bind {S A B} (m : M S A) (f : A -> M S B) : M S B := fun s =>
  let o := m s in
  match result o with
  | Ok a =>
      let o' := f a (state o) in
      mkOutcome (result o') (state o') (calls o ++ calls o')
  | Raise e => mkOutcome (Raise e) (state o) (calls o)
  end.

Notation "'let*' x ':=' m 'in' k" := (bind m (fun x => k))
  (at level 10, x name, m at level 100, k at level 200).
Notation "m ;;; k" := (bind m (fun _ => k))
  (at level 100, k at level 200, right associativity).

Definition gets {S A} (f : S -> A) : M S A := fun s => mkOutcome (Ok (f s)) s [].
Definition modify {S} (f : S -> S) : M S unit := fun s => mkOutcome (Ok tt) (f s) [].
Definition call {S} (c : Call) : M S unit := fun s => mkOutcome (Ok tt) s [c].

(** [for x in xs: body x] *)
Fixpoint for_each {S A} (xs : list A) (body : A -> M S unit) : M S unit :=
  match xs with
  | [] => ret tt
  | x :: xs' => body x ;;; for_each xs' body
  end.

(** [ys = []; for x in xs: ys.append(f x)] *)
Fixpoint map_m {S A B} (f : A -> M S B) (xs : list A) : M S (list B) :=
  match xs with
  | [] => ret []
  | x :: xs' =>
      let* y := f x in
      let* ys := map_m f xs' in
      ret (y :: ys)
  end.

(** ** Database access *)

Definition db_get_address_semantics (chain addr : string) : M Database (option RawAddress) :=
  call (DbGetAddressSemantics chain addr) ;;;
  gets (find_address chain addr).

Definition db_get_contract_semantics (h : string) : M Database (option RawContract) :=
  call (DbGetContractSemantics h) ;;;
  gets (find_contract h).

Definition db_insert_contract (c : RawContract) (update_if_exist : bool)
    : M Database (option nat) :=
  call (DbInsertContract c update_if_exist) ;;;
  let* old := gets (find_contract (raw_code_hash c)) in
  let* n := gets (fun db => length (db_contracts db)) in
  match old with
  | Some _ =>
      if update_if_exist then modify (store_contract c) ;;; ret None
      else
        modify (fun db =>
          mkDatabase (db_addresses db) (db_contracts db ++ [c]) (db_signatures db)) ;;;
        ret (Some n)
  | None => modify (store_contract c) ;;; ret (Some n)
  end.

Definition db_insert_address (a : RawAddress) (update_if_exist : bool) : M Database unit :=
  call (DbInsertAddress a update_if_exist) ;;;
  if update_if_exist then modify (store_address a)
  else modify (fun db =>
         mkDatabase (db_addresses db ++ [a]) (db_contracts db) (db_signatures db)).

Definition db_get_signature_semantics (h : string) : M Database (list (nat * Signature)) :=
  call (DbGetSignatureSemantics h) ;;;
  gets (find_signatures h).

Definition db_insert_signature (doc_id : option nat) (sg : Signature)
    (update_if_exist : bool) : M Database unit :=
  call (DbInsertSignature sg update_if_exist) ;;;
  modify (store_signature doc_id sg update_if_exist).

(** ** The repository object and its caches *)

(** A location of an [AddressSemantics] object on the heap. *)
Abbreviation loc := nat (only parsing).

(** A reference to a [FunctionSemantics] object: the object stored under
    a key of [contract.functions] of the record at a location.  The
    function dicts are never re-keyed once a record is returned, so the
    pair identifies the object. *)
Abbreviation fn_ref := (nat * string)%type (only parsing).

(** One [lru_cache] per decorated method, keyed by the call's arguments
    ([None] and the empty string are different keys). *)
Record Caches : Type := mkCaches {
  c_get_semantics : lru (string * option string) (option loc);
  c_get_event_abi : lru (string * option string * string) (option EventSemantics);
  c_get_transformations :
    lru (string * option string * string) (option (dict TransformationSemantics));
  c_get_anonymous_event_abi : lru (string * option string) (option EventSemantics);
  c_get_function_abi : lru (string * option string * string) (option fn_ref);
  c_get_constructor_abi : lru (string * option string) (option fn_ref);
  c_check_is_contract : lru (string * option string) bool;
  c_get_standard : lru (string * option string) (option string)
}.

Record Repo : Type := mkRepo {
  database : Database;
  heap : list AddressSemantics;
  _records : option (list string);
  caches : Caches
}.

Definition set_database (f : Database -> Database) (s : Repo) : Repo :=
  mkRepo (f (database s)) (heap s) (_records s) (caches s).
Definition set_heap (f : list AddressSemantics -> list AddressSemantics) (s : Repo) : Repo :=
  mkRepo (database s) (f (heap s)) (_records s) (caches s).
Definition set_records (r : option (list string)) (s : Repo) : Repo :=
  mkRepo (database s) (heap s) r (caches s).
Definition set_caches (f : Caches -> Caches) (s : Repo) : Repo :=
  mkRepo (database s) (heap s) (_records s) (f (caches s)).

(** A cache slot of the repository: how to read it and how to replace it. *)
Record Slot (K V : Type) : Type := mkSlot {
  slot_get : Caches -> lru K V;
  slot_set : lru K V -> Caches -> Caches
}.
Arguments slot_get {K V}.
Arguments slot_set {K V}.

Definition slot_get_semantics := mkSlot _ _ c_get_semantics
  (fun x c => mkCaches x (c_get_event_abi c) (c_get_transformations c)
     (c_get_anonymous_event_abi c) (c_get_function_abi c)
     (c_get_constructor_abi c) (c_check_is_contract c) (c_get_standard c)).
Definition slot_get_event_abi := mkSlot _ _ c_get_event_abi
  (fun x c => mkCaches (c_get_semantics c) x (c_get_transformations c)
     (c_get_anonymous_event_abi c) (c_get_function_abi c)
     (c_get_constructor_abi c) (c_check_is_contract c) (c_get_standard c)).
Definition slot_get_transformations := mkSlot _ _ c_get_transformations
  (fun x c => mkCaches (c_get_semantics c) (c_get_event_abi c) x
     (c_get_anonymous_event_abi c) (c_get_function_abi c)
     (c_get_constructor_abi c) (c_check_is_contract c) (c_get_standard c)).
Definition slot_get_anonymous_event_abi := mkSlot _ _ c_get_anonymous_event_abi
  (fun x c => mkCaches (c_get_semantics c) (c_get_event_abi c)
     (c_get_transformations c) x (c_get_function_abi c)
     (c_get_constructor_abi c) (c_check_is_contract c) (c_get_standard c)).
Definition slot_get_function_abi := mkSlot _ _ c_get_function_abi
  (fun x c => mkCaches (c_get_semantics c) (c_get_event_abi c)
     (c_get_transformations c) (c_get_anonymous_event_abi c) x
     (c_get_constructor_abi c) (c_check_is_contract c) (c_get_standard c)).
Definition slot_get_constructor_abi := mkSlot _ _ c_get_constructor_abi
  (fun x c => mkCaches (c_get_semantics c) (c_get_event_abi c)
     (c_get_transformations c) (c_get_anonymous_event_abi c)
     (c_get_function_abi c) x (c_check_is_contract c) (c_get_standard c)).
Definition slot_check_is_contract := mkSlot _ _ c_check_is_contract
  (fun x c => mkCaches (c_get_semantics c) (c_get_event_abi c)
     (c_get_transformations c) (c_get_anonymous_event_abi c)
     (c_get_function_abi c) (c_get_constructor_abi c) x (c_get_standard c)).
Definition slot_get_standard := mkSlot _ _ c_get_standard
  (fun x c => mkCaches (c_get_semantics c) (c_get_event_abi c)
     (c_get_transformations c) (c_get_anonymous_event_abi c)
     (c_get_function_abi c) (c_get_constructor_abi c) (c_check_is_contract c) x).

Definition no_caches : Caches := mkCaches [] [] [] [] [] [] [] [].

(** [SemanticsRepository.__init__]: nothing cached, recording off. *)
Definition new_repository (db : Database) : Repo := mkRepo db [] None no_caches.


(** a method working on [self.database] only, run on the repository *)
Definition on_database {A} (m : M Database A) : M Repo A := fun s =>
  let o := m (database s) in
  mkOutcome (result o) (set_database (fun _ => state o) s) (calls o).

(** The [lru_cache] decorator: a hit returns the stored result and makes
    the entry the most recent one, without running the body; a miss runs
    the body and stores its result unless it raised. *)
Definition lru_cache {K V} `{EqDecision K} (slot : Slot K V) (key : K) (body : M Repo V)
    : M Repo V :=
  let* c := gets (fun s => slot_get slot (caches s)) in
  match lru_find key c with
  | Some v =>
      modify (set_caches (slot_set slot (lru_touch key v c))) ;;;
      ret v
  | None =>
      let* v := body in
      let* c' := gets (fun s => slot_get slot (caches s)) in
      match lru_find key c' with
      | Some _ => ret v
      | None =>
          modify (set_caches (slot_set slot (lru_store key v c'))) ;;;
          ret v
      end
  end.

(** ** Collaborators that are not part of this file

    The providers, the ABI decoder, the amendment router, the tables of
    the token standards and of the precompiles, and the defaults of the
    [Signature] model are taken as given.  A provider is a function of
    its arguments and returns normally, with two exceptions that the
    source itself deals with or triggers: [None] from [get_erc20_token]
    stands for the call raising inside the [try] block of
    [_decode_standard_semantics], and [None] from [int16] for
    [int(address, 16)] raising [ValueError].  The exceptions the methods
    raise by themselves (a subscript on [None], an index out of range, a
    model constructor that refuses a stored value) are modelled where
    they occur. *)

Record RawSemantics (Abi : Type) : Type := mkRawSemantics {
  rs_abi : Abi;
  rs_name : string
}.
Arguments rs_abi {Abi}.
Arguments rs_name {Abi}.

Record Proxy : Type := mkProxy {
  proxy_name : string;
  proxy_token : option ERC20Semantics
}.

Record Collaborators (Abi : Type) : Type := mkCollaborators {
  get_code_hash : string -> string -> string;
  get_contract_abi : string -> string -> option (RawSemantics Abi) * bool;
  decode_events_and_functions : Abi -> dict EventSemantics * dict FunctionSemantics;
  guess_erc20_proxy : string -> string -> option ERC20Semantics;
  guess_erc20_token : string -> string -> option ERC20Semantics;
  get_erc20_token : string -> string -> dict FunctionSemantics -> option ERC20Semantics;
  ens_name : string -> string -> string;
  amend_contract_semantics : ContractSemantics -> ContractSemantics;
  int16 : string -> option Z;
  precompiles : list Z;
  ERC20_EVENTS : list string;
  ERC20_FUNCTIONS : list string;
  ERC721_EVENTS : list string;
  ERC721_FUNCTIONS : list string;
  Signature_count : Z;
  Signature_tuple : bool;
  Signature_guessed : bool
}.
Arguments get_code_hash {Abi}.
Arguments get_contract_abi {Abi}.
Arguments decode_events_and_functions {Abi}.
Arguments guess_erc20_proxy {Abi}.
Arguments guess_erc20_token {Abi}.
Arguments get_erc20_token {Abi}.
Arguments ens_name {Abi}.
Arguments amend_contract_semantics {Abi}.
Arguments int16 {Abi}.
Arguments precompiles {Abi}.
Arguments ERC20_EVENTS {Abi}.
Arguments ERC20_FUNCTIONS {Abi}.
Arguments ERC721_EVENTS {Abi}.
Arguments ERC721_FUNCTIONS {Abi}.
Arguments Signature_count {Abi}.
Arguments Signature_tuple {Abi}.
Arguments Signature_guessed {Abi}.

Definition ZERO_HASH : string :=
  "0xc5d2460186f7233c927e7db2dcc703c0e500b653ca82273b7bfad8045d85a470".

(** [if not address]: an address is falsy when it is [None] or empty;
    [truthy] gives the string of a truthy address. *)
Definition truthy (address : option string) : option string :=
  match address with
  | Some a => if decide (a = "") then None else Some a
  | None => None
  end.

(** ** The methods of SemanticsRepository *)

Section SemanticsRepository.
Context {Abi : Type} (E : Collaborators Abi).

(** [record] *)
Definition record : M Repo unit := modify (set_records (Some [])).

(** [end_record] *)
Definition end_record : M Repo (option (list string)) :=
  let* tmp_records := gets _records in
  modify (set_records None) ;;;
  ret tmp_records.

Definition decode_event (signature : string) (event : RawEvent) : EventSemantics :=
  let parameters_semantics := map decode_parameter (raw_ev_parameters event) in
  mkEventSemantics signature (raw_ev_anonymous event) (raw_ev_name event)
    parameters_semantics.

Definition decode_function (signature : string) (function : RawFunction) : FunctionSemantics :=
  let inputs_semantics := map decode_parameter (raw_fn_inputs function) in
  let outputs_semantics := map decode_parameter (raw_fn_outputs function) in
  mkFunctionSemantics signature (raw_fn_name function) inputs_semantics outputs_semantics.

(** [TransformationSemantics(transformed_name=..., transformed_type=...,
    transformation=...)]: the constructor validates its arguments and
    refuses a null [transformation]. *)
Definition new_transformation (transformation : RawTransformation)
    : M Database TransformationSemantics :=
  match raw_transformation transformation with
  | Some expression =>
      ret (mkTransformationSemantics (raw_transformed_name transformation)
             (raw_transformed_type transformation) expression)
  | None => raise ValidationError
  end.

(** the loop of [_read_stored_semantics] over the stored transformations *)
Definition decode_transformations (raw : dict (dict RawTransformation))
    : M Database (dict (dict TransformationSemantics)) :=
  map_m (fun kv =>
    let* parameters_transformations :=
      map_m (fun kv' =>
        let* t := new_transformation kv'.2 in
        ret (kv'.1, t)) kv.2 in
    ret (kv.1, parameters_transformations)) raw.

(** [_read_stored_semantics]; a missing contract document makes the
    subscript [raw_contract_semantics["events"]] raise [TypeError], and a
    stored transformation the model refuses raises [ValidationError]. *)
Definition _read_stored_semantics (address : option string) (chain_id : string)
    : M Database (option AddressSemantics) :=
  match truthy address with
  | None => ret None
  | Some address =>
      let* raw_address_semantics := db_get_address_semantics chain_id address in
      match raw_address_semantics with
      | Some raw =>
          let erc20_semantics := raw_erc20 raw in
          let* contract_semantics :=
            if decide (raw_contract raw = ZERO_HASH) then
              ret (mkContractSemantics (raw_contract raw) "EOA" [] [] [])
            else
              let* raw_contract_semantics :=
                db_get_contract_semantics (raw_contract raw) in
              match raw_contract_semantics with
              | None => raise TypeError
              | Some rc =>
                  let events :=
                    map (fun kv => (kv.1, decode_event kv.1 kv.2)) (raw_events rc) in
                  let functions :=
                    map (fun kv => (kv.1, decode_function kv.1 kv.2)) (raw_functions rc) in
                  let* transformations :=
                    decode_transformations (raw_transformations rc) in
                  ret (mkContractSemantics (raw_code_hash rc) (raw_contract_name rc)
                         events functions transformations)
              end in
          let name := default address (raw_name raw) in
          let* name :=
            if bool_decide (name = address) && negb (raw_is_contract raw) then
              call (EnsName chain_id address) ;;;
              ret (ens_name E chain_id address)
            else ret name in
          ret (Some (mkAddressSemantics chain_id address name (raw_is_contract raw)
                       contract_semantics (raw_standard raw) erc20_semantics))
      | None => ret None
      end
  end.

(** [_decode_standard_semantics] *)
Definition _decode_standard_semantics (address : option string) (name : string)
    (events : dict EventSemantics) (functions : dict FunctionSemantics)
    : M Database (option string * option ERC20Semantics) :=
  match truthy address with
  | None => ret (None, None)
  | Some address =>
      if forallb (fun erc20_event => dict_in erc20_event events) (ERC20_EVENTS E)
         && forallb (fun erc20_function => dict_in erc20_function functions)
              (ERC20_FUNCTIONS E)
      then
        call (Web3GetErc20Token address name) ;;;
        match get_erc20_token E address name functions with
        | Some token_data =>
            ret (Some "ERC20",
                 Some (mkERC20Semantics (erc20_name token_data)
                         (erc20_symbol token_data) (erc20_decimals token_data)))
        | None => ret (Some "ERC20", Some (mkERC20Semantics name name 18))
        end
      else if forallb (fun erc721_event => dict_in erc721_event events) (ERC721_EVENTS E)
              && forallb (fun erc721_function => dict_in erc721_function functions)
                   (ERC721_FUNCTIONS E)
      then ret (Some "ERC721", None)
      else ret (None, None)
  end.

(** the loop of [update_or_insert_signature] that overwrites the stored
    argument names and types; [signature.args[index]] out of range
    raises [IndexError] *)
Fixpoint overwrite_args (index : nat) (stored new_args : list SignatureArg)
    : M Database (list SignatureArg) :=
  match stored with
  | [] => ret []
  | _ :: stored' =>
      match new_args !! index with
      | Some a =>
          let* rest := overwrite_args (S index) stored' new_args in
          ret (mkSignatureArg (arg_name a) (arg_type a) :: rest)
      | None => raise IndexError
      end
  end.

(** does the first stored argument carry a placeholder name or type
    ([any(arg for arg in list(sig["args"][0].values()) if "arg" in arg)]) *)
Definition first_arg_is_placeholder (stored : list SignatureArg) : M Database bool :=
  match stored with
  | a :: _ => ret (str_contains "arg" (arg_name a) || str_contains "arg" (arg_type a))
  | [] => raise IndexError
  end.

Definition signature_matches (signature sg : Signature) : bool :=
  bool_decide (sig_name signature = sig_name sg)
  && bool_decide (signature_hash signature = signature_hash sg)
  && bool_decide (length (args signature) = length (args sg)).

(** the [for sig in signatures: ... break / else: ...] loop *)
Fixpoint scan_signatures (signature : Signature) (signatures : list (nat * Signature))
    : M Database unit :=
  match signatures with
  | [] => db_insert_signature None signature false
  | (doc_id, sg) :: rest =>
      if signature_matches signature sg then
        let* stored_args :=
          match args signature with
          | [] => ret (args sg)
          | _ :: _ =>
              let* placeholder := first_arg_is_placeholder (args sg) in
              if placeholder then overwrite_args 0 (args sg) (args signature)
              else ret (args sg)
          end in
        let sg' := mkSignature (signature_hash sg) (sig_name sg) stored_args
                     (count sg + 1) (tuple sg) false in
        db_insert_signature (Some doc_id) sg' true
      else scan_signatures signature rest
  end.

(** [update_or_insert_signature] *)
Definition update_or_insert_signature (signature : Signature) : M Database unit :=
  let* signatures := db_get_signature_semantics (signature_hash signature) in
  scan_signatures signature signatures.

Definition signature_arg (param : ParameterSemantics) : SignatureArg :=
  mkSignatureArg (parameter_name param) (parameter_type param).

(** the argument list [insert_contract_signatures] builds for a function *)
Definition signature_args (v : FunctionSemantics) : list SignatureArg :=
  match fn_inputs v with
  | first :: _ =>
      if decide (parameter_type first = "tuple") then map signature_arg (components first)
      else map signature_arg (fn_inputs v)
  | [] => []
  end.

(** [Signature(signature_hash=v.signature, name=v.name, args=args)]; the
    other fields take the defaults of the model *)
Definition new_signature (v : FunctionSemantics) : Signature :=
  mkSignature (fn_signature v) (fn_name v) (signature_args v)
    (Signature_count E) (Signature_tuple E) (Signature_guessed E).

(** [insert_contract_signatures] *)
Definition insert_contract_signatures (contract_semantics : ContractSemantics) : M Database unit :=
  for_each (dict_values (functions contract_semantics)) (fun v =>
    if negb (startswith (fn_signature v) "0x") then ret tt
    else update_or_insert_signature (new_signature v)).

(** [update_semantics] *)
Definition update_semantics (semantics : option AddressSemantics) : M Database unit :=
  match semantics with
  | None => ret tt
  | Some semantics =>
      let* contract_id :=
        db_insert_contract (contract_dict (contract semantics)) true in
      db_insert_address (address_dict semantics) true ;;;
      match contract_id with
      | Some _ => insert_contract_signatures (contract semantics)
      | None => ret tt
      end
  end.

(** a new [AddressSemantics] object *)
Definition alloc (r : AddressSemantics) : M Repo loc :=
  let* l := gets (fun s => length (heap s)) in
  modify (set_heap (fun h => h ++ [r])) ;;;
  ret l.

Definition deref (l : loc) : M Repo AddressSemantics :=
  let* o := gets (fun s => heap s !! l) in
  match o with
  | Some r => ret r
  | None => raise Dangling
  end.

Definition with_contract (c : ContractSemantics) (r : AddressSemantics) : AddressSemantics :=
  mkAddressSemantics (chain_id r) (address r) (name r) (is_contract r) c
    (standard r) (erc20 r).

(** [if self._records is not None: self._records.append(address)] *)
Definition record_address (address : string) : M Repo unit :=
  let* recs := gets _records in
  match recs with
  | Some l => modify (set_records (Some (l ++ [address])))
  | None => ret tt
  end.

(** The branch of [get_semantics] taken when the store has no record,
    from the code hash query to the record it builds: an externally
    owned account when the code hash is the sentinel, otherwise a
    contract described by the registry or, failing that, by the token
    probe. *)
Definition remote_address_semantics (chain_id : string) (address : option string)
    (addr : string) : M Database AddressSemantics :=
  call (Web3GetCodeHash addr chain_id) ;;;
  let code_hash := get_code_hash E addr chain_id in
  if negb (bool_decide (code_hash = ZERO_HASH)) then
    call (EtherscanGetContractAbi chain_id addr) ;;;
    match get_contract_abi E chain_id addr with
    | (Some raw_semantics, true) =>
        call DecodeEventsAndFunctions ;;;
        let ef := decode_events_and_functions E (rs_abi raw_semantics) in
        let events := ef.1 in
        let functions := ef.2 in
        let* std := _decode_standard_semantics address
                      (rs_name raw_semantics) events functions in
        let standard := std.1 in
        let standard_semantics := std.2 in
        let* erc20_semantics :=
          if bool_decide (standard = Some "ERC20") then ret standard_semantics
          else
            call (Web3GuessErc20Proxy addr chain_id) ;;;
            ret (guess_erc20_proxy E addr chain_id) in
        let contract_semantics :=
          mkContractSemantics code_hash (rs_name raw_semantics)
            events functions [] in
        ret (mkAddressSemantics chain_id addr (rs_name raw_semantics) true
               contract_semantics standard erc20_semantics)
    | _ =>
        call (Web3GuessErc20Token addr chain_id) ;;;
        let potential_erc20_semantics := guess_erc20_token E addr chain_id in
        let standard :=
          match potential_erc20_semantics with
          | Some _ => Some "ERC20"
          | None => None
          end in
        let erc20_semantics :=
          match potential_erc20_semantics with
          | Some t => Some (mkERC20Semantics (erc20_name t) (erc20_symbol t)
                              (erc20_decimals t))
          | None => None
          end in
        let contract_semantics :=
          mkContractSemantics code_hash addr [] [] [] in
        ret (mkAddressSemantics chain_id addr addr true
               contract_semantics standard erc20_semantics)
    end
  else
    let contract_semantics := mkContractSemantics ZERO_HASH "EOA" [] [] [] in
    call (EnsName chain_id addr) ;;;
    let name := ens_name E chain_id addr in
    ret (mkAddressSemantics chain_id addr name false
           contract_semantics None None).

(** The tiers of [get_semantics] (the statements from the store read to
    [update_semantics]): the stored record if there is one, otherwise
    the record built from the chain, the registry or the heuristics,
    persisted. *)
Definition resolve_address_semantics (chain_id : string) (address : option string)
    (addr : string) : M Database AddressSemantics :=
  let* stored := _read_stored_semantics address chain_id in
  match stored with
  | Some address_semantics => ret address_semantics
  | None =>
      let* address_semantics := remote_address_semantics chain_id address addr in
      update_semantics (Some address_semantics) ;;;
      ret address_semantics
  end.

(** The body of [get_semantics], which the decorator wraps.  The record is
    local to the call until it is returned, so it is kept as a value
    while the tiers build it and the amendment (an in-place update of
    [address_semantics.contract]) is applied; it is placed on the heap
    when it escapes. *)
Definition get_semantics_wrapped (chain_id : string) (address : option string)
    : M Repo (option loc) :=
  match truthy address with
  | None => ret None
  | Some addr =>
      let* address_semantics :=
        on_database (resolve_address_semantics chain_id address addr) in
      call (AmendContractSemantics (contract address_semantics)) ;;;
      let* l := alloc (with_contract
                         (amend_contract_semantics E (contract address_semantics))
                         address_semantics) in
      record_address addr ;;;
      ret (Some l)
  end.

(** [get_semantics] *)
Definition get_semantics (chain_id : string) (address : option string) : M Repo (option loc) :=
  lru_cache slot_get_semantics (chain_id, address)
    (get_semantics_wrapped chain_id address).

(** [get_event_abi] *)
Definition get_event_abi (chain_id : string) (address : option string) (signature : string)
    : M Repo (option EventSemantics) :=
  lru_cache slot_get_event_abi (chain_id, address, signature)
    match truthy address with
    | None => ret None
    | Some _ =>
        let* semantics := get_semantics chain_id address in
        match semantics with
        | Some l =>
            let* r := deref l in
            ret (dict_get signature (events (contract r)))
        | None => ret None
        end
    end.

(** [get_transformations] *)
Definition get_transformations (chain_id : string) (address : option string)
    (signature : string) : M Repo (option (dict TransformationSemantics)) :=
  lru_cache slot_get_transformations (chain_id, address, signature)
    match truthy address with
    | None => ret None
    | Some _ =>
        let* semantics := get_semantics chain_id address in
        match semantics with
        | Some l =>
            let* r := deref l in
            ret (dict_get signature (transformations (contract r)))
        | None => ret None
        end
    end.

(** [get_anonymous_event_abi] *)
Definition get_anonymous_event_abi (chain_id : string) (address : option string)
    : M Repo (option EventSemantics) :=
  lru_cache slot_get_anonymous_event_abi (chain_id, address)
    match truthy address with
    | None => ret None
    | Some _ =>
        let* semantics := get_semantics chain_id address in
        match semantics with
        | Some l =>
            let* r := deref l in
            let anonymous_events :=
              map fst (filter (fun kv => ev_anonymous kv.2 = true) (events (contract r))) in
            match anonymous_events with
            | [event_signature] => ret (dict_get event_signature (events (contract r)))
            | _ => ret None
            end
        | None => ret None
        end
    end.

(** [get_function_abi]: the result is the object held by the record *)
Definition get_function_abi (chain_id : string) (address : option string)
    (signature : string) : M Repo (option fn_ref) :=
  lru_cache slot_get_function_abi (chain_id, address, signature)
    match truthy address with
    | None => ret None
    | Some _ =>
        let* semantics := get_semantics chain_id address in
        match semantics with
        | Some l =>
            let* r := deref l in
            match dict_get signature (functions (contract r)) with
            | Some _ => ret (Some (l, signature))
            | None => ret None
            end
        | None => ret None
        end
    end.

Definition create_output : ParameterSemantics :=
  mkParameterSemantics "__create_output__" "ignore" [] false true.

Fixpoint dict_alter {V} (f : V -> V) (k : string) (d : dict V) : dict V :=
  match d with
  | [] => []
  | (k', v) :: d' =>
      if decide (k' = k) then (k', f v) :: d' else (k', v) :: dict_alter f k d'
  end.

Definition append_output (p : ParameterSemantics) (f : FunctionSemantics) : FunctionSemantics :=
  mkFunctionSemantics (fn_signature f) (fn_name f) (fn_inputs f) (fn_outputs f ++ [p]).

(** [ref.outputs.append(p)], in place on the object the reference names *)
Definition outputs_append (ref : fn_ref) (p : ParameterSemantics) : M Repo unit :=
  modify (set_heap (alter (fun r =>
    with_contract
      (mkContractSemantics (code_hash (contract r)) (contract_name (contract r))
         (events (contract r))
         (dict_alter (append_output p) ref.2 (functions (contract r)))
         (transformations (contract r))) r) ref.1)).

(** [get_constructor_abi] *)
Definition get_constructor_abi (chain_id : string) (address : option string)
    : M Repo (option fn_ref) :=
  lru_cache slot_get_constructor_abi (chain_id, address)
    match truthy address with
    | None => ret None
    | Some _ =>
        let* semantics := get_semantics chain_id address in
        let* constructor_semantics :=
          match semantics with
          | Some l =>
              let* r := deref l in
              match dict_get "constructor" (functions (contract r)) with
              | Some _ => ret (Some (l, "constructor"))
              | None => ret None
              end
          | None => ret None
          end in
        match constructor_semantics with
        | Some ref => outputs_append ref create_output ;;; ret (Some ref)
        | None => ret None
        end
    end.

(** [proxies and address in proxies] *)
Definition in_proxies (proxies : option (dict Proxy)) (address : string) : option Proxy :=
  match proxies with
  | Some d => dict_get address d
  | None => None
  end.

(** [get_address_label] *)
Definition get_address_label (chain_id : string) (address : option string)
    (proxies : option (dict Proxy)) : M Repo string :=
  match truthy address with
  | None => ret ""
  | Some addr =>
      match int16 E addr with
      | None => raise ValueError
      | Some n =>
          if bool_decide (n ∈ precompiles E) then ret "Precompiled"
          else
            let* semantics := get_semantics chain_id address in
            match semantics with
            | None => raise AttributeError
            | Some l =>
                let* r := deref l in
                match erc20 r with
                | Some t => ret (erc20_symbol t)
                | None =>
                    match in_proxies proxies addr with
                    | Some px => ret (proxy_name px)
                    | None => ret (if decide (name r = "") then addr else name r)
                    end
                end
            end
      end
  end.

(** [check_is_contract] *)
Definition check_is_contract (chain_id : string) (address : option string) : M Repo bool :=
  lru_cache slot_check_is_contract (chain_id, address)
    match truthy address with
    | None => ret false
    | Some _ =>
        let* semantics := get_semantics chain_id address in
        match semantics with
        | Some l => let* r := deref l in ret (is_contract r)
        | None => ret false
        end
    end.

(** [get_standard] *)
Definition get_standard (chain_id : string) (address : option string) : M Repo (option string) :=
  lru_cache slot_get_standard (chain_id, address)
    match truthy address with
    | None => ret None
    | Some _ =>
        let* semantics := get_semantics chain_id address in
        match semantics with
        | Some l => let* r := deref l in ret (standard r)
        | None => ret None
        end
    end.

(** [get_token_data] *)
Definition get_token_data (chain_id : string) (address : option string)
    (proxies : option (dict Proxy))
    : M Repo (option string * option string * option Z * option string) :=
  match truthy address with
  | None => ret (None, None, None, None)
  | Some addr =>
      let* semantics := get_semantics chain_id address in
      let* token :=
        match semantics with
        | Some l => let* r := deref l in ret (erc20 r)
        | None => ret None
        end in
      match token with
      | Some t =>
          ret (Some (erc20_name t), Some (erc20_symbol t), Some (erc20_decimals t),
               Some "ERC20")
      | None =>
          match in_proxies proxies addr with
          | Some (mkProxy _ (Some t)) =>
              ret (Some (erc20_name t), Some (erc20_symbol t), Some (erc20_decimals t),
                   Some "ERC20")
          | _ => ret (Some addr, Some "Unknown", Some 18, Some "ERC20")
          end
      end
  end.

End SemanticsRepository.

(** what a reference to a function object denotes in a repository *)
Definition deref_fn (ref : fn_ref) (s : Repo) : option FunctionSemantics :=
  match heap s !! ref.1 with
  | Some r => dict_get ref.2 (functions (contract r))
  | None => None
  end.

(** * Vocabulary of the properties *)

(** ** The signature registry *)

(** The key under which [update_or_insert_signature] looks for an
    existing entry: name, hash and number of arguments. *)
Definition same_key (signature sg : Signature) : Prop :=
  sig_name sg = sig_name signature /\
  signature_hash sg = signature_hash signature /\
  length (args sg) = length (args signature).

#[global] Instance same_key_dec signature sg : Decision (same_key signature sg).
Proof. unfold same_key. apply _. Defined.

(** the entry written back for a stored entry [sg] that matches *)
Definition refreshed (signature sg : Signature) : Signature :=
  mkSignature (signature_hash sg) (sig_name sg)
    (match args signature, args sg with
     | _ :: _, a :: _ =>
         if str_contains "arg" (arg_name a) || str_contains "arg" (arg_type a)
         then args signature else args sg
     | _, _ => args sg
     end)
    (count sg + 1) (tuple sg) false.

(** what the registry holds after a registration *)
Definition registered (signature : Signature) (sigs : list Signature) : list Signature :=
  match list_find (same_key signature) sigs with
  | Some (i, sg) => <[i := refreshed signature sg]> sigs
  | None => sigs ++ [signature]
  end.

(** what the registration writes *)
Definition written (signature : Signature) (sigs : list Signature) : Call :=
  match list_find (same_key signature) sigs with
  | Some (_, sg) => DbInsertSignature (refreshed signature sg) true
  | None => DbInsertSignature signature false
  end.

(** the hashes looked up in the registry by a run *)
Definition lookups (cs : list Call) : list string :=
  omap (fun c => match c with DbGetSignatureSemantics h => Some h | _ => None end) cs.

(** the functions [insert_contract_signatures] registers: those whose
    signature is a selector hash, in the order of the dict *)
Definition scanned (c : ContractSemantics) : list FunctionSemantics :=
  filter (fun v => String.prefix "0x" (fn_signature v) = true) (dict_values (functions c)).

(** ** The standard classifier *)

(** every required signature is a key of the dict *)
Definition has_all {V} (required : list string) (d : dict V) : Prop :=
  forall k, k ∈ required -> is_Some (dict_get k d).

Section ClassifierVocabulary.
Context {Abi : Type} (E : Collaborators Abi).

Definition matches_erc20 (events : dict EventSemantics)
    (functions : dict FunctionSemantics) : Prop :=
  has_all (ERC20_EVENTS E) events /\ has_all (ERC20_FUNCTIONS E) functions.

Definition matches_erc721 (events : dict EventSemantics)
    (functions : dict FunctionSemantics) : Prop :=
  has_all (ERC721_EVENTS E) events /\ has_all (ERC721_FUNCTIONS E) functions.

(** the standard [_decode_standard_semantics] returns *)
Definition classified (address : option string) (name : string)
    (events : dict EventSemantics) (functions : dict FunctionSemantics)
    : option string :=
  match result (_decode_standard_semantics E address name events functions
                  (mkDatabase [] [] [])) with
  | Ok std => std.1
  | Raise _ => None
  end.

End ClassifierVocabulary.

(** ** Repositories that the methods can produce *)

(** An entry of the cache of [get_semantics]: nothing for a falsy
    address, a location of the heap for any other. *)
Definition semantics_entry_ok (n : nat) (e : string * option string * option loc) : Prop :=
  match truthy e.1.2 with
  | None => e.2 = None
  | Some _ => exists l, e.2 = Some l /\ (l < n)%nat
  end.

(** An entry of the cache of an accessor: the no-result value for a
    falsy address. *)
Definition falsy_entry_ok {K V} (address_of : K -> option string) (none : V)
    (e : K * V) : Prop :=
  truthy (address_of e.1) = None -> e.2 = none.

Record caches_ok (n : nat) (c : Caches) : Prop := mkCachesOk {
  ok_get_semantics : Forall (semantics_entry_ok n) (c_get_semantics c);
  ok_get_event_abi :
    Forall (falsy_entry_ok (fun k => k.1.2) None) (c_get_event_abi c);
  ok_get_transformations :
    Forall (falsy_entry_ok (fun k => k.1.2) None) (c_get_transformations c);
  ok_get_anonymous_event_abi :
    Forall (falsy_entry_ok snd None) (c_get_anonymous_event_abi c);
  ok_get_function_abi :
    Forall (falsy_entry_ok (fun k => k.1.2) None) (c_get_function_abi c);
  ok_get_constructor_abi :
    Forall (falsy_entry_ok snd None) (c_get_constructor_abi c);
  ok_check_is_contract :
    Forall (falsy_entry_ok snd false) (c_check_is_contract c);
  ok_get_standard :
    Forall (falsy_entry_ok snd None) (c_get_standard c)
}.

(** the same, for the accessors keyed by (chain, address, signature) and
    for those keyed by (chain, address) *)
Definition accessor3_ok {V} (none : V) (n : nat)
    (e : string * option string * string * V) : Prop :=
  falsy_entry_ok (fun k : string * option string * string => k.1.2) none e.

Definition accessor2_ok {V} (none : V) (n : nat)
    (e : string * option string * V) : Prop :=
  falsy_entry_ok (fun k : string * option string => k.2) none e.

Definition consistent (s : Repo) : Prop := caches_ok (length (heap s)) (caches s).

(** what ties a cache slot to the consistency of the repository *)
Record slot_ok {K V} (slot : Slot K V) (P : nat -> K * V -> Prop) : Prop := mkSlotOk {
  slot_ok_mono : forall n m e, (n <= m)%nat -> P n e -> P m e;
  slot_ok_get : forall n c, caches_ok n c -> Forall (P n) (slot_get slot c);
  slot_ok_set : forall n c x,
    caches_ok n c -> Forall (P n) x -> caches_ok n (slot_set slot x c)
}.

(** what a method keeps: the consistency of the repository and the
    objects already on the heap, with a result that fits its cache *)
Definition keeps {A} (P : nat -> A -> Prop) (m : M Repo A) (s : Repo) : Prop :=
  consistent (state (m s)) /\
  (length (heap s) <= length (heap (state (m s))))%nat /\
  forall v, result (m s) = Ok v -> P (length (heap (state (m s)))) v.

(** The calls a client can make on a repository. *)
Inductive Request : Type :=
  | ReqRecord
  | ReqEndRecord
  | ReqGetSemantics (chain : string) (address : option string)
  | ReqGetEventAbi (chain : string) (address : option string) (signature : string)
  | ReqGetTransformations (chain : string) (address : option string) (signature : string)
  | ReqGetAnonymousEventAbi (chain : string) (address : option string)
  | ReqGetFunctionAbi (chain : string) (address : option string) (signature : string)
  | ReqGetConstructorAbi (chain : string) (address : option string)
  | ReqGetAddressLabel (chain : string) (address : option string)
      (proxies : option (dict Proxy))
  | ReqCheckIsContract (chain : string) (address : option string)
  | ReqGetStandard (chain : string) (address : option string)
  | ReqGetTokenData (chain : string) (address : option string)
      (proxies : option (dict Proxy)).

Section Reachable.
Context {Abi : Type} (E : Collaborators Abi).

(** the repository after a request *)
Definition serve (req : Request) (s : Repo) : Repo :=
  match req with
  | ReqRecord => state (record s)
  | ReqEndRecord => state (end_record s)
  | ReqGetSemantics c a => state (get_semantics E c a s)
  | ReqGetEventAbi c a g => state (get_event_abi E c a g s)
  | ReqGetTransformations c a g => state (get_transformations E c a g s)
  | ReqGetAnonymousEventAbi c a => state (get_anonymous_event_abi E c a s)
  | ReqGetFunctionAbi c a g => state (get_function_abi E c a g s)
  | ReqGetConstructorAbi c a => state (get_constructor_abi E c a s)
  | ReqGetAddressLabel c a p => state (get_address_label E c a p s)
  | ReqCheckIsContract c a => state (check_is_contract E c a s)
  | ReqGetStandard c a => state (get_standard E c a s)
  | ReqGetTokenData c a p => state (get_token_data E c a p s)
  end.

(** The repositories a client can observe: a new one over any database,
    the one left by a request, and -- the database being shared with
    other writers -- the same repository over another database. *)
Inductive reachable : Repo -> Prop :=
  | reachable_new (db : Database) : reachable (new_repository db)
  | reachable_serve (req : Request) (s : Repo) :
      reachable s -> reachable (serve req s)
  | reachable_database (db : Database) (s : Repo) :
      reachable s -> reachable (set_database (fun _ => db) s).

End Reachable.

(** ** What the tiers produce *)

(** the contract semantics of an externally owned account *)
Definition eoa_contract : ContractSemantics :=
  mkContractSemantics ZERO_HASH "EOA" [] [] [].

(** the transformation the model accepts, if it does *)
Definition stored_transformation (t : RawTransformation) : option TransformationSemantics :=
  mkTransformationSemantics (raw_transformed_name t) (raw_transformed_type t)
    <$> raw_transformation t.

(** the transformations rebuilt from a stored contract document, when the
    model accepts every one of them *)
Definition stored_transformations (raw : dict (dict RawTransformation))
    : option (dict (dict TransformationSemantics)) :=
  mapM (fun kv =>
    pair kv.1 <$> mapM (fun kv' => pair kv'.1 <$> stored_transformation kv'.2) kv.2) raw.

(** the contract semantics rebuilt from a stored contract document, when
    the model accepts its transformations *)
Definition stored_contract (rc : RawContract) : option ContractSemantics :=
  mkContractSemantics (raw_code_hash rc) (raw_contract_name rc)
    (map (fun kv => (kv.1, decode_event kv.1 kv.2)) (raw_events rc))
    (map (fun kv => (kv.1, decode_function kv.1 kv.2)) (raw_functions rc))
    <$> stored_transformations (raw_transformations rc).

Section TierVocabulary.
Context {Abi : Type} (E : Collaborators Abi).

(** does the store read ask ENS for the name of a stored address *)
Definition asks_ens (a : string) (raw : RawAddress) : bool :=
  bool_decide (default a (raw_name raw) = a) && negb (raw_is_contract raw).

(** the record rebuilt from a stored address document and its contract *)
Definition stored_record (chain a : string) (raw : RawAddress)
    (c : ContractSemantics) : AddressSemantics :=
  mkAddressSemantics chain a
    (if asks_ens a raw then ens_name E chain a else default a (raw_name raw))
    (raw_is_contract raw) c (raw_standard raw) (raw_erc20 raw).

(** the record built for an address the chain reports without code *)
Definition eoa_record (chain a : string) : AddressSemantics :=
  mkAddressSemantics chain a (ens_name E chain a) false eoa_contract None None.

(** the record built for a contract when the registry has no interface
    and the token probe finds nothing *)
Definition bare_record (chain a : string) : AddressSemantics :=
  mkAddressSemantics chain a a true
    (mkContractSemantics (get_code_hash E a chain) a [] [] []) None None.

(** the amendment, applied to the contract of a record *)
Definition amended (r : AddressSemantics) : AddressSemantics :=
  with_contract (amend_contract_semantics E (contract r)) r.

End TierVocabulary.

(** the store holds the contract document every address document of the
    given address refers to (the sentinel needs none), and the model
    accepts it *)
Definition contract_stored (chain a : string) (db : Database) : Prop :=
  forall raw, find_address chain a db = Some raw ->
    raw_contract raw = ZERO_HASH \/
    is_Some (find_contract (raw_contract raw) db ≫= stored_contract).

(** a call went to the amendment router *)
Definition is_amend_call (c : Call) : bool :=
  match c with AmendContractSemantics _ => true | _ => false end.

(** a result that is a record on the heap *)
Definition returns_record (o : Outcome Repo (option loc)) (r : AddressSemantics) : Prop :=
  exists l, result o = Ok (Some l) /\ heap (state o) !! l = Some r.

(** the calls that go to the ABI registry or to the token probes *)
Definition beyond_chain (c : Call) : bool := is_registry_call c || is_heuristic_call c.

(** ** What a call shows to its caller *)

(** the call returned the no-result value at once: no collaborator was
    called, and the database, the heap and the log are as before *)
Definition short_circuits {A} (o : Outcome Repo A) (none : A) (s : Repo) : Prop :=
  result o = Ok none /\ calls o = [] /\
  database (state o) = database s /\ heap (state o) = heap s /\
  _records (state o) = _records s.

(** the call went through the amendment router *)
Definition amendment_applied {A} (o : Outcome Repo A) : Prop :=
  exists c, AmendContractSemantics c ∈ calls o.

(** two repositories that differ in the recording log at most *)
Definition same_but_records (s1 s2 : Repo) : Prop :=
  set_records None s1 = set_records None s2.

(** the call returned the record at a given location *)
Definition returns_record_at (o : Outcome Repo (option loc)) (l : loc)
    (r : AddressSemantics) : Prop :=
  result o = Ok (Some l) /\ heap (state o) !! l = Some r.

(** ** The records the cache of [get_semantics] holds *)

(** a record after [outputs.append(p)] on its function [signature] *)
Definition marked (signature : string) (p : ParameterSemantics) (r : AddressSemantics)
    : AddressSemantics :=
  with_contract
    (mkContractSemantics (code_hash (contract r)) (contract_name (contract r))
       (events (contract r))
       (dict_alter (append_output p) signature (functions (contract r)))
       (transformations (contract r))) r.

Section CacheVocabulary.
Context {Abi : Type} (E : Collaborators Abi).

(** the record is the one a resolution of (chain, address) returned: the
    record the tiers produced over some database, with the amendment
    applied to its contract -- up to the markers that constructor lookups
    have appended to it since *)
Definition amended_when_resolved (chain : string) (addr : option string)
    (r : AddressSemantics) : Prop :=
  exists a db r0 n,
    truthy addr = Some a /\
    result (resolve_address_semantics E chain addr a db) = Ok r0 /\
    r = Nat.iter n (marked "constructor" create_output) (amended E r0).

(** an entry of the cache of [get_semantics] that holds a record holds
    one that was amended when it was resolved *)
Definition entry_amended (h : list AddressSemantics)
    (e : string * option string * option loc) : Prop :=
  match e.2 with
  | Some l => exists r, h !! l = Some r /\ amended_when_resolved e.1.1 e.1.2 r
  | None => True
  end.

Definition cache_amended (s : Repo) : Prop :=
  Forall (entry_amended (heap s)) (c_get_semantics (caches s)).

(** a computation that keeps the cache so, with a result that fits *)
Definition amends {A} (Q : A -> Prop) (m : M Repo A) (s : Repo) : Prop :=
  cache_amended (state (m s)) /\ forall v, result (m s) = Ok v -> Q v.

End CacheVocabulary.

(** * A small deployment, used in the examples *)

(** The chain knows one token contract, ["0x70ce"], whose interface the
    registry has, and one contract without a published interface,
    ["0xc0de"]; every other address has no code.  The live read of the
    token descriptor fails and the probes find nothing.  The amendment
    adds a transformation entry to the contract it is given. *)
Definition ex_transfer_event : string :=
  "0xddf252ad1be2c89b69c2b068fc378daa952ba7f163c4a11628f55a4df523b3ef".
Definition ex_approval_event : string :=
  "0x8c5be1e5ebec7d5bd14f71427d1e84f3dd0314c0f7b2291e5b200ac8c7c3b925".
Definition ex_approval_for_all_event : string :=
  "0x17307eab39ab6107e8899845ad3d59bd9653f200f220920489ca2b5937696c31".

Definition ex_event (sg nm : string) : string * EventSemantics :=
  (sg, mkEventSemantics sg false nm []).

Definition ex_function (sg nm : string) (inputs : list ParameterSemantics)
    : string * FunctionSemantics :=
  (sg, mkFunctionSemantics sg nm inputs []).

Definition ex_param (nm ty : string) : ParameterSemantics :=
  mkParameterSemantics nm ty [] false false.

Definition ex_order : ParameterSemantics :=
  mkParameterSemantics "order" "tuple"
    [ex_param "maker" "address"; ex_param "amount" "uint256"] false false.

Definition ex_swap : FunctionSemantics :=
  mkFunctionSemantics "0x5c11d795" "swap" [ex_order; ex_param "deadline" "uint256"] [].

Definition ex_token_events : dict EventSemantics :=
  [ex_event ex_transfer_event "Transfer"; ex_event ex_approval_event "Approval"].

Definition ex_token_functions : dict FunctionSemantics :=
  [ex_function "0x18160ddd" "totalSupply" [];
   ex_function "0x70a08231" "balanceOf" [ex_param "owner" "address"];
   ex_function "0xa9059cbb" "transfer"
     [ex_param "to" "address"; ex_param "value" "uint256"];
   ex_function "0x23b872dd" "transferFrom"
     [ex_param "from" "address"; ex_param "to" "address"; ex_param "value" "uint256"];
   ex_function "0x095ea7b3" "approve"
     [ex_param "spender" "address"; ex_param "value" "uint256"];
   ex_function "0xdd62ed3e" "allowance"
     [ex_param "owner" "address"; ex_param "spender" "address"];
   ("0x5c11d795", ex_swap);
   ex_function "constructor" "constructor" [ex_param "supply" "uint256"]].

Definition ex_amend (c : ContractSemantics) : ContractSemantics :=
  mkContractSemantics (code_hash c) (contract_name c) (events c) (functions c)
    (transformations c ++ [("amended", [])]).

Definition ex_collaborators : Collaborators unit :=
  mkCollaborators unit
    (fun a _ =>
       if decide (a = "0x70ce") then "0x20c0de"
       else if decide (a = "0xc0de") then "0xabcdef" else ZERO_HASH)
    (fun _ a =>
       if decide (a = "0x70ce") then (Some (mkRawSemantics unit tt "Token"), true)
       else (None, false))
    (fun _ => (ex_token_events, ex_token_functions))
    (fun _ _ => None)
    (fun _ _ => None)
    (fun _ _ _ => None)
    (fun _ a => a)
    ex_amend
    (fun _ => None)
    [1; 2; 3; 4; 5; 6; 7; 8; 9]
    [ex_transfer_event; ex_approval_event]
    ["0x18160ddd"; "0x70a08231"; "0xa9059cbb"; "0x23b872dd"; "0x095ea7b3"; "0xdd62ed3e"]
    [ex_transfer_event; ex_approval_event; ex_approval_for_all_event]
    ["0x70a08231"; "0x6352211e"; "0x095ea7b3"; "0x081812fc"; "0xa22cb465";
     "0xe985e9c5"; "0x23b872dd"; "0x42842e0e"]
    1 false true.

Definition ex_empty : Database := mkDatabase [] [] [].

(** a store whose document for ["0xe0a"] has the sentinel as contract
    but says it is a contract with a token descriptor *)
Definition ex_flagged : Database :=
  mkDatabase
    [mkRawAddress "1" "0xe0a" (Some "Vault") true ZERO_HASH (Some "ERC20")
       (Some (mkERC20Semantics "Vault" "VLT" 6))]
    [] [].

(** a store whose document for ["0xdead"] names a contract document the
    store does not have *)
Definition ex_dangling : Database :=
  mkDatabase [mkRawAddress "1" "0xdead" (Some "Gone") true "0x404" None None] [] [].

(** a store with a contract that has a constructor entry, without
    outputs, and an address deployed from it *)
Definition ex_deployed : Database :=
  mkDatabase
    [mkRawAddress "1" "0xc0ffee" (Some "Token") true "0x20c0de" None None]
    [mkRawContract "0x20c0de" "Token" []
       [("constructor", mkRawFunction "constructor" "constructor" [] [])] []]
    [].

(** a registry with one guessed entry for [transfer] whose arguments carry
    placeholder names, and one entry of another name under the same hash *)
Definition ex_guessed_transfer : Signature :=
  mkSignature "0xa9059cbb" "transfer"
    [mkSignatureArg "arg0" "address"; mkSignatureArg "arg1" "uint256"] 3 false true.

Definition ex_other_transfer : Signature :=
  mkSignature "0xa9059cbb" "many_msg_babbage"
    [mkSignatureArg "arg0" "bytes1"] 1 false true.

Definition ex_registry : Database :=
  mkDatabase [] [] [ex_other_transfer; ex_guessed_transfer].

Definition ex_transfer : Signature :=
  mkSignature "0xa9059cbb" "transfer"
    [mkSignatureArg "to" "address"; mkSignatureArg "value" "uint256"] 1 false false.

(** 128 other addresses looked up for their constructor, each lookup
    followed by a resolution of ["0xc0ffee"] *)
Definition ex_other_address (i : nat) : string :=
  String (ascii_of_nat (Nat.div i 16 + 97)) (String (ascii_of_nat (Nat.modulo i 16 + 97)) "").

Definition ex_other_lookups (n : nat) : M Repo unit :=
  for_each (seq 0 n) (fun i =>
    get_constructor_abi ex_collaborators "1" (Some (ex_other_address i)) ;;;
    get_semantics ex_collaborators "1" (Some "0xc0ffee") ;;;
    ret tt).

(** * More of the repository *)

(** ** [get_most_used_signature] *)

(** [max(xs, key=key)] on a non-empty list, scanned from the left: a later
    element replaces the best one only if its key is strictly greater *)
Fixpoint py_max_by {A} (key : A -> Z) (best : A) (xs : list A) : A :=
  match xs with
  | [] => best
  | x :: xs' => py_max_by key (if (key best <? key x)%Z then x else best) xs'
  end.

(** [get_most_used_signature] *)
Definition get_most_used_signature (signature_hash0 : string)
    : M Database (option Signature) :=
  let* signatures := db_get_signature_semantics signature_hash0 in
  match signatures with
  | first :: rest =>
      let most_common_signature := (py_max_by (fun d => count d.2) first rest).2 in
      ret (Some (mkSignature (signature_hash most_common_signature)
                   (sig_name most_common_signature) (args most_common_signature)
                   (count most_common_signature) (tuple most_common_signature)
                   (guessed most_common_signature)))
  | [] => ret None
  end.

(** the registry has an entry under the key of a signature *)
Definition has_key (signature : Signature) (sigs : list Signature) : Prop :=
  exists i sg, sigs !! i = Some sg /\ same_key signature sg.

(** the keys of a dict are the signatures of its entries, as the ABI
    decoder and the store read build them *)
Definition keyed_by {V} (signature_of : V -> string) (d : dict V) : Prop :=
  Forall (fun kv => signature_of kv.2 = kv.1) d.

(** the collaborators with another amendment *)
Definition with_amend {Abi} (f : ContractSemantics -> ContractSemantics)
    (E : Collaborators Abi) : Collaborators Abi :=
  mkCollaborators Abi (get_code_hash E) (get_contract_abi E)
    (decode_events_and_functions E) (guess_erc20_proxy E) (guess_erc20_token E)
    (get_erc20_token E) (ens_name E) f (int16 E) (precompiles E)
    (ERC20_EVENTS E) (ERC20_FUNCTIONS E) (ERC721_EVENTS E) (ERC721_FUNCTIONS E)
    (Signature_count E) (Signature_tuple E) (Signature_guessed E).

(** the events of a contract that are marked anonymous *)
Definition anonymous_events (c : ContractSemantics) : dict EventSemantics :=
  filter (fun kv => ev_anonymous kv.2 = true) (events c).

(** a method leaves a component of the caches as it found it *)
Definition frames {X A} (p : Caches -> X) (m : M Repo A) (s : Repo) : Prop :=
  p (caches (state (m s))) = p (caches s).

(** A call that returned is answered again, with the same result, by a
    call with the same arguments that calls no collaborator and leaves
    the database, the heap and the log as they are. *)
Definition memoized {A} (m : M Repo A) (s : Repo) : Prop :=
  forall v, result (m s) = Ok v ->
    let s1 := state (m s) in
    result (m s1) = Ok v /\ calls (m s1) = [] /\
    database (state (m s1)) = database s1 /\
    heap (state (m s1)) = heap s1 /\
    _records (state (m s1)) = _records s1.

(** a call went to ENS *)
Definition is_ens_call (c : Call) : bool :=
  match c with EnsName _ _ => true | _ => false end.

(** ** More of the small deployment *)

(** the collaborators of the examples, with a parser for the addresses
    that are hexadecimal numbers *)
Definition ex_labeller : Collaborators unit :=
  mkCollaborators unit
    (get_code_hash ex_collaborators) (get_contract_abi ex_collaborators)
    (decode_events_and_functions ex_collaborators)
    (guess_erc20_proxy ex_collaborators) (guess_erc20_token ex_collaborators)
    (get_erc20_token ex_collaborators) (ens_name ex_collaborators)
    (amend_contract_semantics ex_collaborators)
    (fun a =>
       if decide (a = "0x04") then Some 4
       else if decide (a = "0xe0a") then Some 3594
       else if decide (a = "0xc0de") then Some 49374 else None)
    (precompiles ex_collaborators)
    (ERC20_EVENTS ex_collaborators) (ERC20_FUNCTIONS ex_collaborators)
    (ERC721_EVENTS ex_collaborators) (ERC721_FUNCTIONS ex_collaborators)
    (Signature_count ex_collaborators) (Signature_tuple ex_collaborators)
    (Signature_guessed ex_collaborators).

Definition ex_log_note : EventSemantics :=
  mkEventSemantics "0x01" true "LogNote" [].

(** a store with a contract that has one anonymous event among two *)
Definition ex_anonymous : Database :=
  mkDatabase
    [mkRawAddress "1" "0xa11" (Some "Notes") true "0xa11c0de" None None]
    [mkRawContract "0xa11c0de" "Notes"
       [("0x01", mkRawEvent "0x01" true "LogNote" []);
        (ex_transfer_event, mkRawEvent ex_transfer_event false "Transfer" [])]
       [] []]
    [].

Definition ex_anonymous_record : AddressSemantics :=
  mkAddressSemantics "1" "0xa11" "Notes" true
    (ex_amend
       (mkContractSemantics "0xa11c0de" "Notes"
          [("0x01", ex_log_note);
           (ex_transfer_event, mkEventSemantics ex_transfer_event false "Transfer" [])]
          [] []))
    None None.

Definition ex_constructor : FunctionSemantics :=
  mkFunctionSemantics "constructor" "constructor" [] [].

Definition ex_deployed_record : AddressSemantics :=
  mkAddressSemantics "1" "0xc0ffee" "Token" true
    (ex_amend
       (mkContractSemantics "0x20c0de" "Token" [] [("constructor", ex_constructor)] []))
    None None.

Definition ex_vault : ERC20Semantics := mkERC20Semantics "Vault" "VLT" 6.

Definition ex_flagged_record : AddressSemantics :=
  mkAddressSemantics "1" "0xe0a" "Vault" true (ex_amend eoa_contract)
    (Some "ERC20") (Some ex_vault).

(** the record of the token contract as the registry tier builds it *)
Definition ex_token_record : AddressSemantics :=
  mkAddressSemantics "1" "0x70ce" "Token" true
    (mkContractSemantics "0x20c0de" "Token" ex_token_events ex_token_functions [])
    (Some "ERC20") (Some (mkERC20Semantics "Token" "Token" 18)).

(** the collaborators of the examples with a [Signature] model whose
    [guessed] flag defaults to false *)
Definition ex_signature_defaults : Collaborators unit :=
  mkCollaborators unit
    (get_code_hash ex_collaborators) (get_contract_abi ex_collaborators)
    (decode_events_and_functions ex_collaborators)
    (guess_erc20_proxy ex_collaborators) (guess_erc20_token ex_collaborators)
    (get_erc20_token ex_collaborators) (ens_name ex_collaborators)
    (amend_contract_semantics ex_collaborators)
    (int16 ex_collaborators) (precompiles ex_collaborators)
    (ERC20_EVENTS ex_collaborators) (ERC20_FUNCTIONS ex_collaborators)
    (ERC721_EVENTS ex_collaborators) (ERC721_FUNCTIONS ex_collaborators)
    1 false false.

(** a contract whose interface is the one function [swap] *)
Definition ex_swap_contract : ContractSemantics :=
  mkContractSemantics "0x5a9c0de" "Swap" [] [("0x5c11d795", ex_swap)] [].

(** a signature of [swap] that no entry of the example registry matches *)
Definition ex_swap_signature : Signature :=
  mkSignature "0x5c11d795" "swap"
    [mkSignatureArg "maker" "address"; mkSignatureArg "amount" "uint256"] 1 false false.

(** a store whose contract document for ["0xbad"] holds a transformation
    without an expression *)
Definition ex_null_transformation : Database :=
  mkDatabase
    [mkRawAddress "1" "0xbad" (Some "Broken") true "0xbadc0de" None None]
    [mkRawContract "0xbadc0de" "Broken" [] []
       [("0xa9059cbb", [("value", mkRawTransformation (Some "amount") None None)])]]
    [].

(** * Properties *)

(** ** The Python primitives on small inputs *)

Example str_contains_prefix : str_contains "arg" "arg0" = true.
Proof. reflexivity. Qed.

Example str_contains_inside : str_contains "arg" "my_arg" = true.
Proof. reflexivity. Qed.

Example str_contains_absent : str_contains "arg" "address" = false.
Proof. reflexivity. Qed.

Example str_contains_empty : str_contains "arg" "" = false.
Proof. reflexivity. Qed.

Example startswith_selector : startswith "0xa9059cbb" "0x" = true.
Proof. reflexivity. Qed.

Example startswith_constructor : startswith "constructor" "0x" = false.
Proof. reflexivity. Qed.

Example truthy_absent : truthy None = None.
Proof. reflexivity. Qed.

Example truthy_empty : truthy (Some "") = None.
Proof. reflexivity. Qed.

Example truthy_address : truthy (Some "0xe0a") = Some "0xe0a".
Proof. reflexivity. Qed.

Example dict_get_first : dict_get "b" [("a", 1); ("b", 2); ("b", 3)] = Some 2.
Proof. reflexivity. Qed.

Example lru_store_evicts_oldest :
  lru_find 0%nat (lru_store 128%nat "new" (map (fun i => (i, "old")) (seq 1 127 ++ [0%nat])))
  = None /\
  lru_find 127%nat (lru_store 128%nat "new" (map (fun i => (i, "old")) (seq 1 127 ++ [0%nat])))
  = Some "old".
Proof. vm_compute. split; reflexivity. Qed.

Example lru_touch_moves_to_front :
  lru_touch 2%nat "b" [(1%nat, "a"); (2%nat, "b"); (3%nat, "c")]
  = [(2%nat, "b"); (1%nat, "a"); (3%nat, "c")].
Proof. reflexivity. Qed.

Example decode_parameter_nested :
  decode_parameter
    (mkRawParameter "order" "tuple"
       (Some [mkRawParameter "maker" "address" None false false]) false false)
  = mkParameterSemantics "order" "tuple"
      [mkParameterSemantics "maker" "address" [] false false] false false.
Proof. reflexivity. Qed.

(** ** The monad and the decorator *)

Lemma bind_eq {S A B} (m : M S A) (f : A -> M S B) (s : S) :
  bind m f s =
  match result (m s) with
  | Ok a =>
      mkOutcome (result (f a (state (m s)))) (state (f a (state (m s))))
        (calls (m s) ++ calls (f a (state (m s))))
  | Raise e => mkOutcome (Raise e) (state (m s)) (calls (m s))
  end.
Proof. reflexivity. Qed.

Lemma on_database_spec {A} (m : M Database A) (s : Repo) :
  on_database m s =
  mkOutcome (result (m (database s)))
    (mkRepo (state (m (database s))) (heap s) (_records s) (caches s))
    (calls (m (database s))).
Proof. reflexivity. Qed.

Lemma lru_cache_hit {K V} `{EqDecision K} (slot : Slot K V) key body s v :
  lru_find key (slot_get slot (caches s)) = Some v ->
  lru_cache slot key body s =
  mkOutcome (Ok v)
    (set_caches (slot_set slot (lru_touch key v (slot_get slot (caches s)))) s) [].
Proof. intros Hhit. unfold lru_cache, bind. cbn. rewrite Hhit. reflexivity. Qed.

Lemma lru_cache_miss {K V} `{EqDecision K} (slot : Slot K V) key body s :
  lru_find key (slot_get slot (caches s)) = None ->
  lru_cache slot key body s =
  match result (body s) with
  | Ok v =>
      let s' := state (body s) in
      mkOutcome (Ok v)
        (match lru_find key (slot_get slot (caches s')) with
         | Some _ => s'
         | None =>
             set_caches (slot_set slot (lru_store key v (slot_get slot (caches s')))) s'
         end)
        (calls (body s))
  | Raise e => mkOutcome (Raise e) (state (body s)) (calls (body s))
  end.
Proof.
  intros Hmiss. unfold lru_cache, bind. cbn. rewrite Hmiss.
  destruct (result (body s)); cbn; [|reflexivity].
  destruct (lru_find key (slot_get slot (caches (state (body s)))));
    cbn; rewrite ?app_nil_r; reflexivity.
Qed.

Section Wrapped.
Context {Abi : Type} (E : Collaborators Abi).

(** A falsy address returns straight away. *)
Lemma get_semantics_wrapped_falsy chain address s :
  truthy address = None ->
  get_semantics_wrapped E chain address s = mkOutcome (Ok None) s [].
Proof. intros Hf. unfold get_semantics_wrapped. rewrite Hf. reflexivity. Qed.

(** For a truthy address the body runs the tiers on the database, hands
    the contract to the amendment, allocates the amended record and, when
    recording, appends the address to the log. *)
Lemma get_semantics_wrapped_truthy chain address a s :
  truthy address = Some a ->
  get_semantics_wrapped E chain address s =
  let o := resolve_address_semantics E chain address a (database s) in
  match result o with
  | Ok r =>
      mkOutcome (Ok (Some (length (heap s))))
        (mkRepo (state o)
           (heap s ++ [with_contract (amend_contract_semantics E (contract r)) r])
           ((fun l => l ++ [a]) <$> _records s) (caches s))
        (calls o ++ [AmendContractSemantics (contract r)])
  | Raise e =>
      mkOutcome (Raise e) (mkRepo (state o) (heap s) (_records s) (caches s)) (calls o)
  end.
Proof.
  intros Ht. unfold get_semantics_wrapped. rewrite Ht.
  destruct s as [db h recs cs]. unfold bind, on_database. cbn.
  destruct (result (resolve_address_semantics E chain address a db));
    cbn; [|reflexivity].
  destruct recs; cbn; rewrite ?app_nil_r; reflexivity.
Qed.

End Wrapped.

(** ** The signature registry *)



Lemma signature_matches_same_key signature sg :
  signature_matches signature sg = bool_decide (same_key signature sg).
Proof.
  destruct (decide (same_key signature sg)) as [Hk|Hk].
  - rewrite (bool_decide_eq_true_2 _ Hk). unfold signature_matches.
    destruct Hk as (Hn & Hh & Hl).
    rewrite !bool_decide_eq_true_2 by congruence. reflexivity.
  - rewrite (bool_decide_eq_false_2 _ Hk). unfold signature_matches.
    apply not_true_is_false. intros Ht. apply Hk.
    rewrite !andb_true_iff, !bool_decide_eq_true in Ht.
    unfold same_key. destruct Ht as [[Hn Hh] Hl]. repeat split; congruence.
Qed.

Lemma overwrite_args_in_range stored : forall index new_args db,
  (index + length stored <= length new_args)%nat ->
  overwrite_args index stored new_args db =
  mkOutcome (Ok (take (length stored) (drop index new_args))) db [].
Proof.
  induction stored as [|x stored IH]; intros index new_args db Hlen; cbn in *.
  - reflexivity.
  - destruct (new_args !! index) as [a|] eqn:Ha.
    + unfold bind. rewrite IH by lia. cbn.
      rewrite (drop_S _ _ _ Ha). cbn. destruct a; reflexivity.
    + apply lookup_ge_None in Ha. lia.
Qed.

Lemma overwrite_args_same_length stored new_args db :
  length stored = length new_args ->
  overwrite_args 0 stored new_args db = mkOutcome (Ok new_args) db [].
Proof.
  intros Hlen. rewrite overwrite_args_in_range by lia.
  rewrite drop_0, Hlen, firstn_all. reflexivity.
Qed.

(** One step of the loop on an entry that matches: the entry is written
    back refreshed, and the loop stops. *)
Lemma scan_signatures_match signature doc_id sg rest db :
  same_key signature sg ->
  scan_signatures signature ((doc_id, sg) :: rest) db =
  mkOutcome (Ok tt) (store_signature (Some doc_id) (refreshed signature sg) true db)
    [DbInsertSignature (refreshed signature sg) true].
Proof.
  intros Hkey. cbn. rewrite signature_matches_same_key, bool_decide_eq_true_2 by done.
  destruct Hkey as (_ & _ & Hlen). unfold refreshed, bind.
  destruct (args signature) as [|a0 args0] eqn:Hargs; [reflexivity|].
  destruct (args sg) as [|a1 args1] eqn:Hsg; [discriminate|].
  cbn [first_arg_is_placeholder ret result state calls app].
  destruct (str_contains "arg" (arg_name a1) || str_contains "arg" (arg_type a1)).
  - rewrite overwrite_args_same_length by done. reflexivity.
  - reflexivity.
Qed.

Lemma scan_signatures_skip signature doc_id sg rest db :
  ~ same_key signature sg ->
  scan_signatures signature ((doc_id, sg) :: rest) db =
  scan_signatures signature rest db.
Proof.
  intros Hkey. cbn. rewrite signature_matches_same_key, bool_decide_eq_false_2 by done.
  reflexivity.
Qed.



Lemma scan_signatures_spec signature db sigs : forall n,
  scan_signatures signature
    (filter (fun d => signature_hash d.2 = signature_hash signature)
       (imap (fun i sg => ((n + i)%nat, sg)) sigs)) db =
  match list_find (same_key signature) sigs with
  | Some (i, sg) =>
      mkOutcome (Ok tt)
        (store_signature (Some (n + i)%nat) (refreshed signature sg) true db)
        [DbInsertSignature (refreshed signature sg) true]
  | None =>
      mkOutcome (Ok tt) (store_signature None signature false db)
        [DbInsertSignature signature false]
  end.
Proof.
  induction sigs as [|x sigs IH]; intros n.
  - reflexivity.
  - rewrite imap_cons, filter_cons. cbn [snd list_find].
    rewrite (imap_ext _ (fun i sg => ((S n + i)%nat, sg)))
      by (intros; cbn; f_equal; lia).
    destruct (decide (same_key signature x)) as [Hk|Hk].
    + rewrite decide_True by apply Hk.
      rewrite scan_signatures_match by done. reflexivity.
    + case_decide.
      * rewrite scan_signatures_skip by done. rewrite IH.
        destruct (list_find (same_key signature) sigs) as [[i sg]|]; cbn;
          rewrite ?Nat.add_succ_r; reflexivity.
      * rewrite IH.
        destruct (list_find (same_key signature) sigs) as [[i sg]|]; cbn;
          rewrite ?Nat.add_succ_r; reflexivity.
Qed.

(** [update_or_insert_signature] never raises; it looks the hash up once
    and writes once. *)
Lemma update_or_insert_signature_spec signature db :
  update_or_insert_signature signature db =
  mkOutcome (Ok tt)
    (mkDatabase (db_addresses db) (db_contracts db)
       (registered signature (db_signatures db)))
    [DbGetSignatureSemantics (signature_hash signature);
     written signature (db_signatures db)].
Proof.
  unfold update_or_insert_signature, db_get_signature_semantics, bind. cbn.
  unfold find_signatures.
  rewrite (imap_ext _ (fun i sg => ((0 + i)%nat, sg))) by done.
  rewrite scan_signatures_spec. unfold registered, written.
  destruct (list_find (same_key signature) (db_signatures db)) as [[i sg]|];
    reflexivity.
Qed.

(** C4, as the code has it: a registration never raises.  When an entry
    with the same name, hash and number of arguments exists, the first
    such entry -- and no other -- is replaced by an entry with the count
    increased by exactly one and [guessed] cleared.  When none exists,
    exactly one entry is added at the end: the given signature as it is,
    so its [guessed] flag and its count are those the signature carries
    -- the registration sets neither -- and for a signature built by
    [insert_contract_signatures] they are the defaults of the model.  In
    both cases no existing entry sees its count decrease or its [guessed]
    flag go back from false to true. *)
Theorem update_or_insert_signature_registry {Abi : Type} (E : Collaborators Abi)
    (signature : Signature) (db : Database) :
  let o := update_or_insert_signature signature db in
  let old := db_signatures db in
  let new := db_signatures (state o) in
  result o = Ok tt /\
  (forall i sg,
     old !! i = Some sg -> same_key signature sg ->
     (forall j sg', (j < i)%nat -> old !! j = Some sg' -> ~ same_key signature sg') ->
     exists sg',
       new = <[i := sg']> old /\ count sg' = count sg + 1 /\ guessed sg' = false /\
       same_key signature sg' /\ tuple sg' = tuple sg) /\
  ((forall i sg, old !! i = Some sg -> ~ same_key signature sg) ->
     new = old ++ [signature] /\
     length new = S (length old) /\
     exists sg',
       new !! length old = Some sg' /\
       guessed sg' = guessed signature /\ count sg' = count signature) /\
  (forall i sg,
     old !! i = Some sg ->
     exists sg',
       new !! i = Some sg' /\ count sg <= count sg' /\
       (guessed sg = false -> guessed sg' = false)) /\
  (forall v,
     signature = new_signature E v ->
     (forall i sg, old !! i = Some sg -> ~ same_key signature sg) ->
     exists sg',
       new = old ++ [sg'] /\
       guessed sg' = Signature_guessed E /\ count sg' = Signature_count E /\
       tuple sg' = Signature_tuple E).
Proof.
  cbn zeta. rewrite update_or_insert_signature_spec. cbn [result state db_signatures].
  unfold registered.
  destruct (list_find (same_key signature) (db_signatures db)) as [[i0 sg0]|] eqn:Hfind.
  - apply list_find_Some in Hfind as (Hi0 & Hk0 & Hmin).
    split; [reflexivity|]. split; [|split; [|split]].
    + intros i sg Hi Hk Hfirst.
      assert (i = i0) as ->.
      { destruct (Nat.lt_trichotomy i i0) as [Hlt|[Heq|Hgt]]; [|exact Heq|].
        - exfalso. exact (Hmin i sg Hi Hlt Hk).
        - exfalso. exact (Hfirst i0 sg0 Hgt Hi0 Hk0). }
      assert (sg = sg0) as -> by congruence.
      exists (refreshed signature sg0). repeat split; try reflexivity.
      * apply Hk0.
      * apply Hk0.
      * cbn. destruct Hk0 as (_ & _ & Hlen).
        destruct (args signature), (args sg0) as [|a ?]; try done.
        destruct (str_contains "arg" (arg_name a) || str_contains "arg" (arg_type a));
          done.
    + intros Hnone. exfalso. exact (Hnone i0 sg0 Hi0 Hk0).
    + intros i sg Hi. destruct (decide (i = i0)) as [->|Hne].
      * exists (refreshed signature sg0).
        rewrite list_lookup_insert_eq by (eapply lookup_lt_Some; eauto).
        assert (sg = sg0) as -> by congruence.
        split_and!; [done|cbn; lia|done].
      * exists sg. rewrite list_lookup_insert_ne by done.
        split_and!; [done|lia|done].
    + intros v _ Hnone. exfalso. exact (Hnone i0 sg0 Hi0 Hk0).
  - apply list_find_None in Hfind.
    split; [reflexivity|]. split; [|split; [|split]].
    + intros i sg Hi Hk _. exfalso.
      rewrite Forall_lookup in Hfind. exact (Hfind i sg Hi Hk).
    + intros _. split; [reflexivity|]. split.
      * rewrite length_app. cbn. lia.
      * exists signature. rewrite lookup_app_r by lia. rewrite Nat.sub_diag.
        split_and!; reflexivity.
    + intros i sg Hi. exists sg.
      rewrite lookup_app_l by (eapply lookup_lt_Some; eauto).
      split_and!; [done|lia|done].
    + intros v -> _. exists (new_signature E v). split_and!; reflexivity.
Qed.

(** ** Registration of the signatures of a contract *)

Lemma bind_ret_l {S A B} (a : A) (f : A -> M S B) (s : S) : bind (ret a) f s = f a s.
Proof. unfold bind, ret. cbn. destruct (f a s); reflexivity. Qed.

(** a run of registrations never raises, looks every hash up once, in
    order, and talks to the store only *)
Lemma for_each_registrations (sigs : list Signature) : forall db,
  let o := for_each sigs update_or_insert_signature db in
  result o = Ok tt /\ lookups (calls o) = map signature_hash sigs /\
  db_addresses (state o) = db_addresses db /\
  db_contracts (state o) = db_contracts db /\
  Forall (fun c => is_store_call c = true) (calls o).
Proof.
  induction sigs as [|sg sigs IH]; intros db; cbn zeta.
  - split_and!; try reflexivity. constructor.
  - cbn [for_each]. rewrite bind_eq, update_or_insert_signature_spec.
    cbn [result state calls].
    destruct (IH (mkDatabase (db_addresses db) (db_contracts db)
                    (registered sg (db_signatures db)))) as (Hr & Hl & Ha & Hc & Hs).
    cbn zeta in *. rewrite Hr. cbn [result state calls].
    split_and!; [reflexivity| |exact Ha|exact Hc|].
    + cbn [map app lookups omap]. fold lookups. rewrite <- Hl.
      unfold written.
      destruct (list_find (same_key sg) (db_signatures db)) as [[? ?]|]; reflexivity.
    + cbn [app]. constructor; [reflexivity|]. constructor; [|exact Hs].
      unfold written.
      destruct (list_find (same_key sg) (db_signatures db)) as [[? ?]|]; reflexivity.
Qed.

Section Registration.
Context {Abi : Type} (E : Collaborators Abi).

Lemma insert_contract_signatures_loop (vs : list FunctionSemantics) : forall db,
  for_each vs (fun v =>
    if negb (startswith (fn_signature v) "0x") then ret tt
    else update_or_insert_signature (new_signature E v)) db =
  for_each
    (map (new_signature E) (filter (fun v => String.prefix "0x" (fn_signature v) = true) vs))
    update_or_insert_signature db.
Proof.
  induction vs as [|v vs IH]; intros db; [reflexivity|].
  cbn [for_each]. rewrite filter_cons. unfold startswith.
  destruct (String.prefix "0x" (fn_signature v)) eqn:Hp; cbn [negb].
  - rewrite decide_True by reflexivity. cbn [map for_each].
    rewrite !bind_eq, update_or_insert_signature_spec. cbn [result state calls].
    rewrite IH. reflexivity.
  - rewrite decide_False by discriminate. rewrite bind_ret_l. apply IH.
Qed.

(** C8: registration goes through the functions of the contract in
    order and registers exactly those whose signature starts with "0x"
    (a selector hash), skipping the others: it is the run of
    [update_or_insert_signature] over the signatures built for them, it
    looks up exactly their hashes, and it never raises.  The arguments
    of a built signature are the components of the first input when that
    input has type "tuple", and the inputs themselves otherwise. *)
Lemma insert_contract_signatures_ok (c : ContractSemantics) (db : Database) :
  result (insert_contract_signatures E c db) = Ok tt /\
  Forall (fun k => is_store_call k = true) (calls (insert_contract_signatures E c db)).
Proof.
  unfold insert_contract_signatures. rewrite insert_contract_signatures_loop.
  destruct (for_each_registrations
              (map (new_signature E)
                 (filter (fun v => String.prefix "0x" (fn_signature v) = true)
                    (dict_values (functions c)))) db) as (Hr & _ & _ & _ & Hs).
  split; assumption.
Qed.

Theorem insert_contract_signatures_scan (c : ContractSemantics) (db : Database) :
  let o := insert_contract_signatures E c db in
  o = for_each (map (new_signature E) (scanned c)) update_or_insert_signature db /\
  result o = Ok tt /\
  lookups (calls o) = map fn_signature (scanned c) /\
  (forall v, v ∈ scanned c <->
     v ∈ dict_values (functions c) /\ String.prefix "0x" (fn_signature v) = true) /\
  (forall v first rest,
     fn_inputs v = first :: rest -> parameter_type first = "tuple" ->
     args (new_signature E v) = map signature_arg (components first)) /\
  (forall v,
     (forall first rest, fn_inputs v = first :: rest -> parameter_type first <> "tuple") ->
     args (new_signature E v) = map signature_arg (fn_inputs v)).
Proof.
  cbn zeta. unfold insert_contract_signatures.
  rewrite insert_contract_signatures_loop. fold (scanned c).
  destruct (for_each_registrations (map (new_signature E) (scanned c)) db)
    as (Hr & Hl & _ & _ & _).
  cbn zeta in *. split; [reflexivity|]. split; [exact Hr|]. split.
  { rewrite Hl, map_map. reflexivity. }
  split.
  { intros v. unfold scanned. rewrite list_elem_of_filter. tauto. }
  split.
  - intros v first rest Hin Htuple. cbn. unfold signature_args.
    rewrite Hin, decide_True by done. reflexivity.
  - intros v Hnot. cbn. unfold signature_args.
    destruct (fn_inputs v) as [|first rest] eqn:Hin; [reflexivity|].
    rewrite decide_False by (eapply Hnot; reflexivity). reflexivity.
Qed.

End Registration.

(** ** The standard classifier *)

Lemma dict_in_true {V} (k : string) (d : dict V) :
  dict_in k d = true <-> is_Some (dict_get k d).
Proof. unfold dict_in. apply bool_decide_eq_true. Qed.

Lemma has_all_forallb {V} (required : list string) (d : dict V) :
  forallb (fun k => dict_in k d) required = true <-> has_all required d.
Proof.
  unfold has_all. rewrite forallb_forall. split.
  - intros H k Hk. apply dict_in_true, H, list_elem_of_In, Hk.
  - intros H k Hk. apply dict_in_true, H, list_elem_of_In, Hk.
Qed.

Lemma dict_get_remove {V} (k : string) (d : dict V) :
  dict_get k (dict_remove k d) = None.
Proof.
  unfold dict_remove. induction d as [|[k' v] d IH]; [reflexivity|].
  rewrite filter_cons. cbn [fst]. destruct (decide (k' <> k)) as [Hne|Heq].
  - cbn. rewrite decide_False by done. exact IH.
  - exact IH.
Qed.

Lemma has_all_remove {V} (required : list string) (k : string) (d : dict V) :
  k ∈ required -> ~ has_all required (dict_remove k d).
Proof.
  intros Hk Hall. specialize (Hall k Hk). rewrite dict_get_remove in Hall.
  destruct Hall as [? ?]. discriminate.
Qed.

Section Classifier.
Context {Abi : Type} (E : Collaborators Abi).

Lemma matches_erc20_check events functions :
  forallb (fun k => dict_in k events) (ERC20_EVENTS E)
  && forallb (fun k => dict_in k functions) (ERC20_FUNCTIONS E) = true
  <-> matches_erc20 E events functions.
Proof. rewrite andb_true_iff, !has_all_forallb. reflexivity. Qed.

Lemma matches_erc721_check events functions :
  forallb (fun k => dict_in k events) (ERC721_EVENTS E)
  && forallb (fun k => dict_in k functions) (ERC721_FUNCTIONS E) = true
  <-> matches_erc721 E events functions.
Proof. rewrite andb_true_iff, !has_all_forallb. reflexivity. Qed.

(** the classifier never raises, leaves the database alone, and its
    verdict does not depend on the database *)
Lemma _decode_standard_semantics_total address name events functions :
  exists token, forall db,
    _decode_standard_semantics E address name events functions db =
    mkOutcome (Ok (classified E address name events functions, token)) db
      (match classified E address name events functions, truthy address with
       | Some "ERC20", Some a => [Web3GetErc20Token a name]
       | _, _ => []
       end).
Proof.
  unfold classified, _decode_standard_semantics.
  destruct (truthy address) as [a|]; [|eexists; reflexivity].
  destruct (forallb _ (ERC20_EVENTS E) && forallb _ (ERC20_FUNCTIONS E)).
  - destruct (get_erc20_token E a name functions) eqn:Htok; eexists; intros db;
      rewrite !bind_eq; cbn; rewrite ?bind_eq; cbn; reflexivity.
  - destruct (forallb _ (ERC721_EVENTS E) && forallb _ (ERC721_FUNCTIONS E));
      eexists; reflexivity.
Qed.

Lemma classified_erc20 address name events functions :
  classified E address name events functions = Some "ERC20" <->
  truthy address <> None /\ matches_erc20 E events functions.
Proof.
  rewrite <- matches_erc20_check. unfold classified, _decode_standard_semantics.
  destruct (truthy address) as [a|]; [|cbn; split; [discriminate|tauto]].
  destruct (forallb _ (ERC20_EVENTS E) && forallb _ (ERC20_FUNCTIONS E)).
  - rewrite !bind_eq. cbn. destruct (get_erc20_token E a name functions); cbn; done.
  - destruct (forallb _ (ERC721_EVENTS E) && forallb _ (ERC721_FUNCTIONS E));
      cbn; split; try discriminate; intros [_ ?]; discriminate.
Qed.

Lemma classified_erc721 address name events functions :
  classified E address name events functions = Some "ERC721" <->
  truthy address <> None /\ ~ matches_erc20 E events functions /\
  matches_erc721 E events functions.
Proof.
  rewrite <- matches_erc20_check, <- matches_erc721_check.
  unfold classified, _decode_standard_semantics.
  destruct (truthy address) as [a|]; [|cbn; split; [discriminate|tauto]].
  destruct (forallb _ (ERC20_EVENTS E) && forallb _ (ERC20_FUNCTIONS E)).
  - rewrite !bind_eq. cbn. destruct (get_erc20_token E a name functions); cbn;
      (split; [discriminate|intros (_ & Hn & _); exfalso; apply Hn; reflexivity]).
  - destruct (forallb _ (ERC721_EVENTS E) && forallb _ (ERC721_FUNCTIONS E)); cbn.
    + split; [intros _; split_and!; done|reflexivity].
    + split; [discriminate|intros (_ & _ & ?); discriminate].
Qed.

(** C3: the classifier never raises and returns ERC20 exactly when the
    address is non-empty and every ERC20 event and every ERC20 function is
    a key of the decoded maps; it returns ERC721 exactly when the address
    is non-empty, the ERC20 test failed and every ERC721 event and function
    is present (ERC20 is tested first and wins when both match); and
    removing any one required event or function from the maps makes the
    classification as that standard fail. *)
Theorem standard_classification_all_or_nothing
    (address : option string) (name : string)
    (events : dict EventSemantics) (functions : dict FunctionSemantics) (db : Database) :
  let o := _decode_standard_semantics E address name events functions db in
  (exists token,
     result o = Ok (classified E address name events functions, token)) /\
  (classified E address name events functions = Some "ERC20" <->
     truthy address <> None /\ matches_erc20 E events functions) /\
  (classified E address name events functions = Some "ERC721" <->
     truthy address <> None /\ ~ matches_erc20 E events functions /\
     matches_erc721 E events functions) /\
  (matches_erc20 E events functions -> matches_erc721 E events functions ->
     truthy address <> None ->
     classified E address name events functions = Some "ERC20") /\
  (forall k, k ∈ ERC20_EVENTS E ->
     classified E address name (dict_remove k events) functions <> Some "ERC20") /\
  (forall k, k ∈ ERC20_FUNCTIONS E ->
     classified E address name events (dict_remove k functions) <> Some "ERC20") /\
  (forall k, k ∈ ERC721_EVENTS E ->
     classified E address name (dict_remove k events) functions <> Some "ERC721") /\
  (forall k, k ∈ ERC721_FUNCTIONS E ->
     classified E address name events (dict_remove k functions) <> Some "ERC721").
Proof.
  cbn zeta. split_and!.
  - destruct (_decode_standard_semantics_total address name events functions)
      as [token Htoken]. exists token. rewrite Htoken. reflexivity.
  - apply classified_erc20.
  - apply classified_erc721.
  - intros H20 _ Ha. apply classified_erc20. done.
  - intros k Hk Hc. apply classified_erc20 in Hc as [_ [He _]].
    exact (has_all_remove _ _ _ Hk He).
  - intros k Hk Hc. apply classified_erc20 in Hc as [_ [_ Hf]].
    exact (has_all_remove _ _ _ Hk Hf).
  - intros k Hk Hc. apply classified_erc721 in Hc as (_ & _ & [He _]).
    exact (has_all_remove _ _ _ Hk He).
  - intros k Hk Hc. apply classified_erc721 in Hc as (_ & _ & [_ Hf]).
    exact (has_all_remove _ _ _ Hk Hf).
Qed.

(** C7: when every ERC20 event and function is present and the read of
    the token data from the chain raises, the classifier returns
    normally, with the standard ERC20 and the descriptor made of the
    declared name, used for both name and symbol, and 18 decimals. *)
Theorem erc20_descriptor_fallback
    (address : option string) (a name : string)
    (events : dict EventSemantics) (functions : dict FunctionSemantics) (db : Database) :
  truthy address = Some a ->
  matches_erc20 E events functions ->
  get_erc20_token E a name functions = None ->
  _decode_standard_semantics E address name events functions db =
  mkOutcome (Ok (Some "ERC20", Some (mkERC20Semantics name name 18))) db
    [Web3GetErc20Token a name].
Proof.
  intros Ht Hm Hfail. apply matches_erc20_check in Hm.
  unfold _decode_standard_semantics. rewrite Ht, Hm, bind_eq. cbn.
  rewrite Hfail. reflexivity.
Qed.

End Classifier.

(** ** Consistency of the caches *)

Section LRUFacts.
Context {K V : Type} `{EqDecision K}.
Implicit Types (c : lru K V) (P : K * V -> Prop).

Lemma lru_find_elem k v c : lru_find k c = Some v -> (k, v) ∈ c.
Proof.
  induction c as [|[k' v'] c IH]; cbn; [discriminate|].
  case_decide as Hk.
  - intros [= ->]. subst. left.
  - intros Hf. right. apply IH, Hf.
Qed.

Lemma Forall_lru_remove P k c : Forall P c -> Forall P (lru_remove k c).
Proof.
  induction 1 as [|[k' v'] c Hx Hc IH]; cbn; [constructor|].
  case_decide; [exact Hc|constructor; assumption].
Qed.

Lemma Forall_lru_touch P k v c : P (k, v) -> Forall P c -> Forall P (lru_touch k v c).
Proof. intros Hkv Hc. constructor; [exact Hkv|apply Forall_lru_remove, Hc]. Qed.

Lemma Forall_lru_store P k v c : P (k, v) -> Forall P c -> Forall P (lru_store k v c).
Proof. intros Hkv Hc. apply Forall_take. constructor; assumption. Qed.

Lemma lru_find_hit P k v c : Forall P c -> lru_find k c = Some v -> P (k, v).
Proof.
  intros Hc Hf. rewrite Forall_forall in Hc. apply Hc, lru_find_elem, Hf.
Qed.

End LRUFacts.

Lemma semantics_entry_ok_mono n m e :
  (n <= m)%nat -> semantics_entry_ok n e -> semantics_entry_ok m e.
Proof.
  unfold semantics_entry_ok. intros Hnm. destruct (truthy e.1.2); [|done].
  intros (l & -> & Hl). exists l. split; [done|lia].
Qed.

Lemma caches_ok_mono n m c : (n <= m)%nat -> caches_ok n c -> caches_ok m c.
Proof.
  intros Hnm [H1 H2 H3 H4 H5 H6 H7 H8]. constructor; try assumption.
  eapply Forall_impl; [exact H1|]. intros e. apply semantics_entry_ok_mono, Hnm.
Qed.


Lemma slot_ok_get_semantics : slot_ok slot_get_semantics semantics_entry_ok.
Proof.
  constructor.
  - apply semantics_entry_ok_mono.
  - intros n c []. assumption.
  - intros n c x [] Hx. constructor; assumption.
Qed.

Lemma slot_ok_get_event_abi :
  slot_ok slot_get_event_abi (accessor3_ok None).
Proof.
  constructor; [done | intros n c []; assumption
               | intros n c x [] Hx; constructor; assumption].
Qed.

Lemma slot_ok_get_transformations :
  slot_ok slot_get_transformations (accessor3_ok None).
Proof.
  constructor; [done | intros n c []; assumption
               | intros n c x [] Hx; constructor; assumption].
Qed.

Lemma slot_ok_get_anonymous_event_abi :
  slot_ok slot_get_anonymous_event_abi (accessor2_ok None).
Proof.
  constructor; [done | intros n c []; assumption
               | intros n c x [] Hx; constructor; assumption].
Qed.

Lemma slot_ok_get_function_abi :
  slot_ok slot_get_function_abi (accessor3_ok None).
Proof.
  constructor; [done | intros n c []; assumption
               | intros n c x [] Hx; constructor; assumption].
Qed.

Lemma slot_ok_get_constructor_abi :
  slot_ok slot_get_constructor_abi (accessor2_ok None).
Proof.
  constructor; [done | intros n c []; assumption
               | intros n c x [] Hx; constructor; assumption].
Qed.

Lemma slot_ok_check_is_contract :
  slot_ok slot_check_is_contract (accessor2_ok false).
Proof.
  constructor; [done | intros n c []; assumption
               | intros n c x [] Hx; constructor; assumption].
Qed.

Lemma slot_ok_get_standard :
  slot_ok slot_get_standard (accessor2_ok None).
Proof.
  constructor; [done | intros n c []; assumption
               | intros n c x [] Hx; constructor; assumption].
Qed.


Lemma lru_cache_keeps {K V} `{EqDecision K} (slot : Slot K V) P key body s :
  slot_ok slot P ->
  consistent s ->
  keeps (fun n v => P n (key, v)) body s ->
  keeps (fun n v => P n (key, v)) (lru_cache slot key body) s.
Proof.
  intros Hslot Hs (Hb & Hlen & Hres). unfold keeps.
  destruct (lru_find key (slot_get slot (caches s))) as [v|] eqn:Hfind.
  - rewrite (lru_cache_hit _ _ _ _ _ Hfind). cbn.
    assert (P (length (heap s)) (key, v)) as Hv.
    { eapply lru_find_hit; [|exact Hfind]. apply (slot_ok_get _ _ Hslot), Hs. }
    split_and!; [|lia|intros ? [= <-]; exact Hv].
    apply (slot_ok_set _ _ Hslot); [exact Hs|].
    apply Forall_lru_touch; [exact Hv|]. apply (slot_ok_get _ _ Hslot), Hs.
  - rewrite (lru_cache_miss _ _ _ _ Hfind).
    destruct (result (body s)) as [v|e] eqn:Hr; cbn; [|split_and!; [done|lia|done]].
    specialize (Hres v eq_refl).
    destruct (lru_find key (slot_get slot (caches (state (body s))))); cbn.
    + split_and!; [done|lia|intros ? [= <-]; exact Hres].
    + split_and!; [|lia|intros ? [= <-]; exact Hres].
      apply (slot_ok_set _ _ Hslot); [exact Hb|].
      apply Forall_lru_store; [exact Hres|]. apply (slot_ok_get _ _ Hslot), Hb.
Qed.

Lemma keeps_ret {A} (P : nat -> A -> Prop) (a : A) s :
  consistent s -> P (length (heap s)) a -> keeps P (ret a) s.
Proof. intros Hs Ha. split_and!; [exact Hs|done|intros ? [= <-]; exact Ha]. Qed.

Lemma keeps_raise {A} (P : nat -> A -> Prop) e s :
  consistent s -> keeps P (raise e) s.
Proof. intros Hs. split_and!; [exact Hs|done|discriminate]. Qed.

Lemma keeps_bind {A B} (Q : nat -> A -> Prop) (P : nat -> B -> Prop)
    (m : M Repo A) (f : A -> M Repo B) s :
  keeps Q m s ->
  (forall a, consistent (state (m s)) -> result (m s) = Ok a ->
     Q (length (heap (state (m s)))) a -> keeps P (f a) (state (m s))) ->
  keeps P (bind m f) s.
Proof.
  intros (Hm & Hlen & Hres) Hf. unfold keeps. rewrite bind_eq.
  destruct (result (m s)) as [a|e] eqn:Hr; cbn.
  - destruct (Hf a Hm eq_refl (Hres a eq_refl)) as (Hc & Hlen' & Hres').
    split_and!; [exact Hc|lia|exact Hres'].
  - split_and!; [exact Hm|exact Hlen|discriminate].
Qed.

Lemma keeps_weaken {A} (Q P : nat -> A -> Prop) (m : M Repo A) s :
  (forall n v, Q n v -> P n v) -> keeps Q m s -> keeps P m s.
Proof. intros HQP (H1 & H2 & H3). split_and!; [done|done|]. intros v Hv. auto. Qed.

Lemma keeps_deref l s : consistent s -> keeps (fun _ _ => True) (deref l) s.
Proof.
  intros Hs. unfold keeps, deref. rewrite bind_eq. cbn.
  destruct (heap s !! l); cbn; split_and!; done.
Qed.

Lemma keeps_outputs_append ref p s :
  consistent s -> keeps (fun _ _ => True) (outputs_append ref p) s.
Proof.
  intros Hs. unfold keeps, outputs_append, consistent. cbn.
  rewrite length_alter. split_and!; done.
Qed.

Section Keeps.
Context {Abi : Type} (E : Collaborators Abi).

Lemma get_semantics_wrapped_keeps chain address s :
  consistent s ->
  keeps (fun n v => semantics_entry_ok n ((chain, address), v))
    (get_semantics_wrapped E chain address) s.
Proof.
  intros Hs. unfold keeps, semantics_entry_ok. cbn [fst snd].
  destruct (truthy address) as [a|] eqn:Ht.
  - rewrite (get_semantics_wrapped_truthy E chain address a s Ht). cbn zeta.
    unfold consistent in *.
    destruct (result (resolve_address_semantics E chain address a (database s)));
      cbn; rewrite ?length_app; cbn.
    + split_and!; [|lia|].
      * eapply caches_ok_mono; [|exact Hs]. lia.
      * intros v [= <-]. eexists. split; [reflexivity|lia].
    + split_and!; [exact Hs|lia|discriminate].
  - rewrite (get_semantics_wrapped_falsy E chain address s Ht). cbn.
    split_and!; [exact Hs|lia|intros v [= <-]; reflexivity].
Qed.

Lemma get_semantics_keeps chain address s :
  consistent s ->
  keeps (fun n v => semantics_entry_ok n ((chain, address), v))
    (get_semantics E chain address) s.
Proof.
  intros Hs. unfold get_semantics.
  apply (lru_cache_keeps slot_get_semantics semantics_entry_ok);
    [apply slot_ok_get_semantics|exact Hs|].
  apply get_semantics_wrapped_keeps, Hs.
Qed.

End Keeps.

(** the steps that show a body keeps the repository consistent *)
Ltac keeps_steps :=
  lazymatch goal with
  | |- consistent _ => assumption
  | |- keeps _ (ret _) _ => apply keeps_ret; [keeps_steps|exact I]
  | |- keeps _ (raise _) _ => apply keeps_raise; keeps_steps
  | |- keeps _ (deref _) _ => apply keeps_deref; keeps_steps
  | |- keeps _ (outputs_append _ _) _ => apply keeps_outputs_append; keeps_steps
  | |- keeps _ (get_semantics _ _ _) _ =>
      eapply keeps_weaken; [|apply get_semantics_keeps; keeps_steps];
      intros; exact I
  | |- keeps _ (bind _ _) _ =>
      apply (keeps_bind (fun _ _ => True)); [keeps_steps|intros ? ? _ _; keeps_steps]
  | |- keeps _ (match ?x with _ => _ end) _ => destruct x; keeps_steps
  end.

(** the body of an accessor on a truthy address: any result fits *)
Ltac keeps_accessor slot P slot_lemma :=
  let Hs := fresh "Hs" in
  intros Hs;
  apply (lru_cache_keeps slot P); [apply slot_lemma|exact Hs|];
  unfold accessor3_ok, accessor2_ok, falsy_entry_ok; cbn [fst snd];
  match goal with
  | |- keeps _ (match truthy ?a with _ => _ end) _ =>
      destruct (truthy a) eqn:?;
      [ apply (keeps_weaken (fun _ _ => True)); [intros ? ? _ ?; discriminate|];
        keeps_steps
      | apply keeps_ret; [exact Hs|intros _; reflexivity] ]
  end.

Section Accessors.
Context {Abi : Type} (E : Collaborators Abi).

Lemma get_event_abi_keeps chain address signature s :
  consistent s ->
  keeps (fun n v => accessor3_ok None n ((chain, address, signature), v))
    (get_event_abi E chain address signature) s.
Proof.
  unfold get_event_abi.
  keeps_accessor slot_get_event_abi (@accessor3_ok (option EventSemantics) None)
    slot_ok_get_event_abi.
Qed.

Lemma get_transformations_keeps chain address signature s :
  consistent s ->
  keeps (fun n v => accessor3_ok None n ((chain, address, signature), v))
    (get_transformations E chain address signature) s.
Proof.
  unfold get_transformations.
  keeps_accessor slot_get_transformations
    (@accessor3_ok (option (dict TransformationSemantics)) None)
    slot_ok_get_transformations.
Qed.

Lemma get_anonymous_event_abi_keeps chain address s :
  consistent s ->
  keeps (fun n v => accessor2_ok None n ((chain, address), v))
    (get_anonymous_event_abi E chain address) s.
Proof.
  unfold get_anonymous_event_abi.
  keeps_accessor slot_get_anonymous_event_abi (@accessor2_ok (option EventSemantics) None)
    slot_ok_get_anonymous_event_abi.
Qed.

Lemma get_function_abi_keeps chain address signature s :
  consistent s ->
  keeps (fun n v => accessor3_ok None n ((chain, address, signature), v))
    (get_function_abi E chain address signature) s.
Proof.
  unfold get_function_abi.
  keeps_accessor slot_get_function_abi (@accessor3_ok (option fn_ref) None)
    slot_ok_get_function_abi.
Qed.

Lemma get_constructor_abi_keeps chain address s :
  consistent s ->
  keeps (fun n v => accessor2_ok None n ((chain, address), v))
    (get_constructor_abi E chain address) s.
Proof.
  unfold get_constructor_abi.
  keeps_accessor slot_get_constructor_abi (@accessor2_ok (option fn_ref) None)
    slot_ok_get_constructor_abi.
Qed.

Lemma check_is_contract_keeps chain address s :
  consistent s ->
  keeps (fun n v => accessor2_ok false n ((chain, address), v))
    (check_is_contract E chain address) s.
Proof.
  unfold check_is_contract.
  keeps_accessor slot_check_is_contract (@accessor2_ok bool false)
    slot_ok_check_is_contract.
Qed.

Lemma get_standard_keeps chain address s :
  consistent s ->
  keeps (fun n v => accessor2_ok None n ((chain, address), v))
    (get_standard E chain address) s.
Proof.
  unfold get_standard.
  keeps_accessor slot_get_standard (@accessor2_ok (option string) None)
    slot_ok_get_standard.
Qed.

Lemma get_address_label_keeps chain address proxies s :
  consistent s ->
  keeps (fun _ _ => True) (get_address_label E chain address proxies) s.
Proof. intros Hs. unfold get_address_label. keeps_steps. Qed.

Lemma get_token_data_keeps chain address proxies s :
  consistent s ->
  keeps (fun _ _ => True) (get_token_data E chain address proxies) s.
Proof. intros Hs. unfold get_token_data. keeps_steps. Qed.

Lemma new_repository_consistent db : consistent (new_repository db).
Proof. constructor; constructor. Qed.

Lemma serve_consistent req s : consistent s -> consistent (serve E req s).
Proof.
  intros Hs. destruct req; cbn [serve].
  - exact Hs.
  - exact Hs.
  - apply get_semantics_keeps, Hs.
  - apply get_event_abi_keeps, Hs.
  - apply get_transformations_keeps, Hs.
  - apply get_anonymous_event_abi_keeps, Hs.
  - apply get_function_abi_keeps, Hs.
  - apply get_constructor_abi_keeps, Hs.
  - apply get_address_label_keeps, Hs.
  - apply check_is_contract_keeps, Hs.
  - apply get_standard_keeps, Hs.
  - apply get_token_data_keeps, Hs.
Qed.

(** Every repository a client can observe is consistent. *)
Lemma reachable_consistent s : reachable E s -> consistent s.
Proof.
  induction 1 as [db|req s _ IH|db s _ IH].
  - apply new_repository_consistent.
  - apply serve_consistent, IH.
  - exact IH.
Qed.

End Accessors.

(** ** The tiers *)

Section Tiers.
Context {Abi : Type} (E : Collaborators Abi).

(** A loop that builds a list step by step without touching the state
    returns the list, or raises at the first step that does. *)
Lemma map_m_pure {S A B} (f : A -> M S B) (g : A -> option B) (e : Exn) :
  (forall x s, f x s = match g x with
                       | Some y => mkOutcome (Ok y) s []
                       | None => mkOutcome (Raise e) s []
                       end) ->
  forall xs s,
    map_m f xs s = match mapM g xs with
                   | Some ys => mkOutcome (Ok ys) s []
                   | None => mkOutcome (Raise e) s []
                   end.
Proof.
  intros Hf xs s. induction xs as [|x xs IH]; [reflexivity|].
  cbn [map_m]. rewrite bind_eq, Hf. cbn [mapM mbind option_bind].
  destruct (g x) as [y|]; cbn; [|reflexivity].
  rewrite bind_eq, IH. destruct (mapM g xs) as [ys|]; reflexivity.
Qed.

(** The stored transformations are rebuilt when the model accepts every
    one of them; otherwise the constructor raises. *)
Lemma decode_transformations_spec raw db :
  decode_transformations raw db =
  match stored_transformations raw with
  | Some transformations => mkOutcome (Ok transformations) db []
  | None => mkOutcome (Raise ValidationError) db []
  end.
Proof.
  unfold decode_transformations, stored_transformations.
  apply (map_m_pure _ _ ValidationError). intros kv s.
  rewrite bind_eq.
  rewrite (map_m_pure _ (fun kv' => pair kv'.1 <$> stored_transformation kv'.2)
             ValidationError).
  - destruct (mapM _ kv.2); reflexivity.
  - intros kv' s'. rewrite bind_eq. unfold new_transformation, stored_transformation.
    destruct (raw_transformation kv'.2); reflexivity.
Qed.

(** The store read, case by case. *)
Lemma _read_stored_semantics_spec chain address a db :
  truthy address = Some a ->
  _read_stored_semantics E address chain db =
  match find_address chain a db with
  | None => mkOutcome (Ok None) db [DbGetAddressSemantics chain a]
  | Some raw =>
      let ens := if asks_ens a raw then [EnsName chain a] else [] in
      if decide (raw_contract raw = ZERO_HASH) then
        mkOutcome
          (Ok (Some (stored_record E chain a raw
                       (mkContractSemantics (raw_contract raw) "EOA" [] [] []))))
          db (DbGetAddressSemantics chain a :: ens)
      else
        match find_contract (raw_contract raw) db with
        | None =>
            mkOutcome (Raise TypeError) db
              [DbGetAddressSemantics chain a; DbGetContractSemantics (raw_contract raw)]
        | Some rc =>
            match stored_contract rc with
            | None =>
                mkOutcome (Raise ValidationError) db
                  [DbGetAddressSemantics chain a;
                   DbGetContractSemantics (raw_contract raw)]
            | Some c =>
                mkOutcome (Ok (Some (stored_record E chain a raw c))) db
                  (DbGetAddressSemantics chain a
                   :: DbGetContractSemantics (raw_contract raw) :: ens)
            end
        end
  end.
Proof.
  intros Ht. unfold _read_stored_semantics. rewrite Ht.
  unfold db_get_address_semantics, db_get_contract_semantics, stored_record, asks_ens.
  rewrite !bind_eq. cbn.
  destruct (find_address chain a db) as [raw|]; [|reflexivity]. cbn zeta.
  rewrite !bind_eq.
  destruct (decide (raw_contract raw = ZERO_HASH)); cbn.
  - destruct (bool_decide (default a (raw_name raw) = a) && negb (raw_is_contract raw));
      reflexivity.
  - destruct (find_contract (raw_contract raw) db) as [rc|]; cbn; [|reflexivity].
    rewrite !bind_eq, decode_transformations_spec. unfold stored_contract.
    destruct (stored_transformations (raw_transformations rc)); cbn; [|reflexivity].
    destruct (bool_decide (default a (raw_name raw) = a) && negb (raw_is_contract raw));
      reflexivity.
Qed.

(** The remote branch never raises and never touches the database; the
    record it builds and the calls it makes depend on the collaborators
    only. *)
Lemma remote_address_semantics_spec chain addr a :
  truthy addr = Some a ->
  exists r cs,
    (forall db, remote_address_semantics E chain addr a db = mkOutcome (Ok r) db cs) /\
    chain_id r = chain /\ address r = a /\
    Forall (fun c => is_remote_call c = true) cs /\
    (get_code_hash E a chain = ZERO_HASH ->
       r = eoa_record E chain a /\
       cs = [Web3GetCodeHash a chain; EnsName chain a]) /\
    (get_code_hash E a chain <> ZERO_HASH ->
       is_contract r = true /\ code_hash (contract r) = get_code_hash E a chain) /\
    (get_code_hash E a chain <> ZERO_HASH ->
       (forall raw, get_contract_abi E chain a <> (Some raw, true)) ->
       guess_erc20_token E a chain = None ->
       r = bare_record E chain a).
Proof.
  intros Ht. unfold remote_address_semantics.
  destruct (decide (get_code_hash E a chain = ZERO_HASH)) as [Hz|Hz].
  - rewrite (bool_decide_eq_true_2 _ Hz). cbn [negb].
    eexists _, _. split_and!; [intros db; rewrite !bind_eq; cbn; reflexivity|..];
      try done.
    repeat constructor.
  - rewrite (bool_decide_eq_false_2 _ Hz). cbn [negb].
    destruct (get_contract_abi E chain a) as [[raw|] [|]] eqn:Habi.
    + destruct (_decode_standard_semantics_total E addr (rs_name raw)
                  (decode_events_and_functions E (rs_abi raw)).1
                  (decode_events_and_functions E (rs_abi raw)).2)
        as [token Hstd].
      set (std := classified E addr (rs_name raw)
                    (decode_events_and_functions E (rs_abi raw)).1
                    (decode_events_and_functions E (rs_abi raw)).2) in *.
      destruct (bool_decide (std = Some "ERC20")) eqn:H20.
      * eexists _, _. split_and!.
        { intros db.
          repeat (progress (rewrite ?bind_eq, ?Hstd, ?H20; cbn)). reflexivity. }
        all: try done.
        { rewrite Ht. repeat case_match; repeat constructor. }
        intros _ Hno. exfalso. exact (Hno raw eq_refl).
      * eexists _, _. split_and!.
        { intros db.
          repeat (progress (rewrite ?bind_eq, ?Hstd, ?H20; cbn)). reflexivity. }
        all: try done.
        { rewrite Ht. repeat case_match; repeat constructor. }
        intros _ Hno. exfalso. exact (Hno raw eq_refl).
    + eexists _, _. split_and!; [intros db; rewrite !bind_eq; cbn; reflexivity|..];
        try done; [repeat constructor|].
      intros _ _ Hg. rewrite Hg. reflexivity.
    + eexists _, _. split_and!; [intros db; rewrite !bind_eq; cbn; reflexivity|..];
        try done; [repeat constructor|].
      intros _ _ Hg. rewrite Hg. reflexivity.
    + eexists _, _. split_and!; [intros db; rewrite !bind_eq; cbn; reflexivity|..];
        try done; [repeat constructor|].
      intros _ _ Hg. rewrite Hg. reflexivity.
Qed.

(** Persisting a record never raises and talks to the store only. *)
Lemma update_semantics_spec r db :
  let o := update_semantics E (Some r) db in
  result o = Ok tt /\
  Forall (fun c => is_store_call c = true) (calls o) /\
  (functions (contract r) = [] ->
     state o = store_address (address_dict r)
                 (store_contract (contract_dict (contract r)) db) /\
     calls o = [DbInsertContract (contract_dict (contract r)) true;
                DbInsertAddress (address_dict r) true]).
Proof.
  cbn zeta. unfold update_semantics, db_insert_contract, db_insert_address.
  repeat (progress (rewrite ?bind_eq; cbn)).
  set (db2 := store_address (address_dict r)
                (store_contract (contract_dict (contract r)) db)).
  destruct (find_contract (code_hash (contract r)) db);
    repeat (progress (rewrite ?bind_eq; cbn)).
  - split_and!; [reflexivity|repeat constructor|intros _; split; reflexivity].
  - fold db2.
    destruct (insert_contract_signatures_ok E (contract r) db2) as [Hr Hs].
    rewrite Hr. cbn. split_and!; [reflexivity|repeat constructor; exact Hs|].
    intros Hnil. unfold insert_contract_signatures. rewrite Hnil. cbn.
    split; reflexivity.
Qed.

(** The tiers when the store has a record of the address. *)
Lemma resolve_address_semantics_stored chain addr a db raw :
  truthy addr = Some a ->
  find_address chain a db = Some raw ->
  resolve_address_semantics E chain addr a db =
  let ens := if asks_ens a raw then [EnsName chain a] else [] in
  if decide (raw_contract raw = ZERO_HASH) then
    mkOutcome
      (Ok (stored_record E chain a raw
             (mkContractSemantics (raw_contract raw) "EOA" [] [] [])))
      db (DbGetAddressSemantics chain a :: ens)
  else
    match find_contract (raw_contract raw) db with
    | None =>
        mkOutcome (Raise TypeError) db
          [DbGetAddressSemantics chain a; DbGetContractSemantics (raw_contract raw)]
    | Some rc =>
        match stored_contract rc with
        | None =>
            mkOutcome (Raise ValidationError) db
              [DbGetAddressSemantics chain a; DbGetContractSemantics (raw_contract raw)]
        | Some c =>
            mkOutcome (Ok (stored_record E chain a raw c)) db
              (DbGetAddressSemantics chain a
               :: DbGetContractSemantics (raw_contract raw) :: ens)
        end
    end.
Proof.
  intros Ht Hfind. unfold resolve_address_semantics.
  rewrite bind_eq, (_read_stored_semantics_spec chain addr a db Ht), Hfind. cbn zeta.
  destruct (decide (raw_contract raw = ZERO_HASH)); cbn.
  - rewrite app_nil_r. reflexivity.
  - destruct (find_contract (raw_contract raw) db) as [rc|]; cbn;
      [destruct (stored_contract rc); cbn|]; rewrite ?app_nil_r; reflexivity.
Qed.

(** The tiers when the store has no record: the remote branch builds the
    record, which is persisted. *)
Lemma resolve_address_semantics_fresh chain addr a db r cs :
  truthy addr = Some a ->
  find_address chain a db = None ->
  (forall db', remote_address_semantics E chain addr a db' = mkOutcome (Ok r) db' cs) ->
  resolve_address_semantics E chain addr a db =
  mkOutcome (Ok r) (state (update_semantics E (Some r) db))
    (DbGetAddressSemantics chain a :: cs ++ calls (update_semantics E (Some r) db)).
Proof.
  intros Ht Hfind Hremote. unfold resolve_address_semantics.
  rewrite bind_eq, (_read_stored_semantics_spec chain addr a db Ht), Hfind.
  cbn [result state calls].
  rewrite bind_eq, Hremote. cbn [result state calls]. rewrite bind_eq.
  destruct (update_semantics_spec r db) as (Hr & _ & _). cbn zeta in Hr.
  rewrite Hr. cbn [result state calls ret app]. rewrite app_nil_r. reflexivity.
Qed.

End Tiers.

(** ** Resolution *)

Section Resolution.
Context {Abi : Type} (E : Collaborators Abi).

(** A call answered from the cache. *)
Lemma get_semantics_hit chain addr s v :
  lru_find (chain, addr) (c_get_semantics (caches s)) = Some v ->
  get_semantics E chain addr s =
  mkOutcome (Ok v)
    (set_caches
       (slot_set slot_get_semantics
          (lru_touch (chain, addr) v (c_get_semantics (caches s)))) s) [].
Proof. intros Hhit. unfold get_semantics. apply (lru_cache_hit slot_get_semantics _ _ _ _ Hhit). Qed.

(** A call that runs the body, on a truthy address. *)
Lemma get_semantics_miss chain addr a s :
  truthy addr = Some a ->
  lru_find (chain, addr) (c_get_semantics (caches s)) = None ->
  get_semantics E chain addr s =
  let o := resolve_address_semantics E chain addr a (database s) in
  match result o with
  | Ok r =>
      mkOutcome (Ok (Some (length (heap s))))
        (mkRepo (state o) (heap s ++ [amended E r])
           ((fun l => l ++ [a]) <$> _records s)
           (slot_set slot_get_semantics
              (lru_store (chain, addr) (Some (length (heap s)))
                 (c_get_semantics (caches s))) (caches s)))
        (calls o ++ [AmendContractSemantics (contract r)])
  | Raise e =>
      mkOutcome (Raise e) (mkRepo (state o) (heap s) (_records s) (caches s)) (calls o)
  end.
Proof.
  intros Ht Hmiss. unfold get_semantics.
  rewrite (lru_cache_miss slot_get_semantics _ _ _ Hmiss), (get_semantics_wrapped_truthy E _ _ _ _ Ht).
  cbn zeta.
  destruct (result (resolve_address_semantics E chain addr a (database s))); cbn.
  - rewrite Hmiss. reflexivity.
  - reflexivity.
Qed.

(** A call that runs the body, on a falsy address. *)
Lemma get_semantics_miss_falsy chain addr s :
  truthy addr = None ->
  lru_find (chain, addr) (c_get_semantics (caches s)) = None ->
  get_semantics E chain addr s =
  mkOutcome (Ok None)
    (set_caches
       (slot_set slot_get_semantics
          (lru_store (chain, addr) None (c_get_semantics (caches s)))) s) [].
Proof.
  intros Hf Hmiss. unfold get_semantics.
  rewrite (lru_cache_miss slot_get_semantics _ _ _ Hmiss), (get_semantics_wrapped_falsy E _ _ _ Hf).
  cbn. rewrite Hmiss. reflexivity.
Qed.

(** The tiers make no call to the amendment router. *)
Lemma resolve_address_semantics_calls chain addr a db :
  truthy addr = Some a ->
  Forall (fun c => is_amend_call c = false)
    (calls (resolve_address_semantics E chain addr a db)).
Proof.
  intros Ht. destruct (find_address chain a db) as [raw|] eqn:Hfind.
  - rewrite (resolve_address_semantics_stored E chain addr a db raw Ht Hfind). cbn zeta.
    destruct (decide (raw_contract raw = ZERO_HASH)), (asks_ens a raw);
      try (destruct (find_contract (raw_contract raw) db) as [rc|];
           [destruct (stored_contract rc)|]);
      repeat constructor.
  - destruct (remote_address_semantics_spec E chain addr a Ht)
      as (r & cs & Hremote & _ & _ & Hcs & _).
    rewrite (resolve_address_semantics_fresh E chain addr a db r cs Ht Hfind Hremote).
    cbn. constructor; [reflexivity|]. apply Forall_app. split.
    + eapply Forall_impl; [exact Hcs|]. intros [] ?; done.
    + destruct (update_semantics_spec E r db) as (_ & Hs & _).
      eapply Forall_impl; [exact Hs|]. intros [] ?; done.
Qed.

(** The tiers return a record unless the store has an address document
    without a contract document the model accepts. *)
Lemma resolve_address_semantics_total chain addr a db :
  truthy addr = Some a ->
  contract_stored chain a db ->
  exists r, result (resolve_address_semantics E chain addr a db) = Ok r.
Proof.
  intros Ht Hstored. destruct (find_address chain a db) as [raw|] eqn:Hfind.
  - rewrite (resolve_address_semantics_stored E chain addr a db raw Ht Hfind). cbn zeta.
    destruct (decide (raw_contract raw = ZERO_HASH)) as [Hz|Hz]; [eexists; reflexivity|].
    destruct (Hstored raw Hfind) as [?|[c Hc]]; [done|].
    destruct (find_contract (raw_contract raw) db) as [rc|]; [|discriminate].
    cbn in Hc. rewrite Hc. eexists; reflexivity.
  - destruct (remote_address_semantics_spec E chain addr a Ht)
      as (r & cs & Hremote & _).
    rewrite (resolve_address_semantics_fresh E chain addr a db r cs Ht Hfind Hremote).
    eexists; reflexivity.
Qed.

(** An address document without its contract document makes the tiers
    raise. *)
Lemma resolve_address_semantics_dangling chain addr a db raw :
  truthy addr = Some a ->
  find_address chain a db = Some raw ->
  raw_contract raw <> ZERO_HASH ->
  find_contract (raw_contract raw) db = None ->
  result (resolve_address_semantics E chain addr a db) = Raise TypeError.
Proof.
  intros Ht Hfind Hz Hnone.
  rewrite (resolve_address_semantics_stored E chain addr a db raw Ht Hfind). cbn zeta.
  rewrite decide_False by done. rewrite Hnone. reflexivity.
Qed.

(** A contract document with a transformation the model refuses makes
    the tiers raise as well. *)
Lemma resolve_address_semantics_refused chain addr a db raw rc :
  truthy addr = Some a ->
  find_address chain a db = Some raw ->
  raw_contract raw <> ZERO_HASH ->
  find_contract (raw_contract raw) db = Some rc ->
  stored_contract rc = None ->
  result (resolve_address_semantics E chain addr a db) = Raise ValidationError.
Proof.
  intros Ht Hfind Hz Hrc Hnone.
  rewrite (resolve_address_semantics_stored E chain addr a db raw Ht Hfind). cbn zeta.
  rewrite decide_False by done. rewrite Hrc, Hnone. reflexivity.
Qed.

End Resolution.

(** ** The cached records are amended records *)

Lemma lookup_fresh {A} (l : list A) (x : A) : (l ++ [x]) !! length l = Some x.
Proof. rewrite lookup_app_r by lia. rewrite Nat.sub_diag. reflexivity. Qed.

Lemma outputs_append_marked l signature p s :
  outputs_append (l, signature) p s =
  mkOutcome (Ok tt) (set_heap (alter (marked signature p) l) s) [].
Proof. reflexivity. Qed.

Section Amended.
Context {Abi : Type} (E : Collaborators Abi).

Lemma entry_amended_app h h' e : entry_amended E h e -> entry_amended E (h ++ h') e.
Proof.
  unfold entry_amended. destruct e.2 as [l|]; [|done].
  intros (r & Hr & Ha). exists r. split; [|exact Ha].
  apply lookup_app_l_Some, Hr.
Qed.

Lemma entry_amended_alter h l0 e :
  entry_amended E h e ->
  entry_amended E (alter (marked "constructor" create_output) l0 h) e.
Proof.
  unfold entry_amended. destruct e.2 as [l|]; [|done].
  intros (r & Hr & a & db & r0 & n & Ht & Hres & ->).
  destruct (decide (l = l0)) as [->|Hne].
  - eexists. split.
    + rewrite list_lookup_alter_eq, Hr. reflexivity.
    + exists a, db, r0, (S n). split_and!; [exact Ht|exact Hres|reflexivity].
  - eexists. split.
    + rewrite list_lookup_alter_ne by done. exact Hr.
    + exists a, db, r0, n. split_and!; [exact Ht|exact Hres|reflexivity].
Qed.

Lemma amends_ret {A} (Q : A -> Prop) (a : A) s :
  cache_amended E s -> Q a -> amends E Q (ret a) s.
Proof. intros Hs Ha. split; [exact Hs|intros ? [= <-]; exact Ha]. Qed.

Lemma amends_raise {A} (Q : A -> Prop) e s :
  cache_amended E s -> amends E Q (raise e) s.
Proof. intros Hs. split; [exact Hs|discriminate]. Qed.

Lemma amends_bind {A B} (Q : A -> Prop) (P : B -> Prop)
    (m : M Repo A) (f : A -> M Repo B) s :
  amends E Q m s ->
  (forall a, cache_amended E (state (m s)) -> Q a -> amends E P (f a) (state (m s))) ->
  amends E P (bind m f) s.
Proof.
  intros (Hm & Hres) Hf. unfold amends. rewrite bind_eq.
  destruct (result (m s)) as [a|e] eqn:Hr; cbn.
  - exact (Hf a Hm (Hres a eq_refl)).
  - split; [exact Hm|discriminate].
Qed.

Lemma amends_weaken {A} (Q P : A -> Prop) (m : M Repo A) s :
  (forall v, Q v -> P v) -> amends E Q m s -> amends E P m s.
Proof. intros HQP (H1 & H2). split; [exact H1|]. intros v Hv. auto. Qed.

Lemma amends_deref l s :
  cache_amended E s -> amends E (fun _ => True) (deref l) s.
Proof.
  intros Hs. unfold amends, deref. rewrite bind_eq. cbn.
  destruct (heap s !! l); cbn; split; done.
Qed.

Lemma amends_outputs_append l s :
  cache_amended E s ->
  amends E (fun _ => True) (outputs_append (l, "constructor") create_output) s.
Proof.
  intros Hs. unfold amends. rewrite outputs_append_marked. cbn. split; [|done].
  unfold cache_amended in *. cbn.
  eapply Forall_impl; [exact Hs|]. intros e. apply entry_amended_alter.
Qed.

(** a decorated accessor with a cache of its own keeps the cache of
    [get_semantics] as its body leaves it *)
Lemma amends_lru_cache {K V} `{EqDecision K} (slot : Slot K V) key body s :
  (forall x c, c_get_semantics (slot_set slot x c) = c_get_semantics c) ->
  cache_amended E s ->
  amends E (fun _ => True) body s ->
  amends E (fun _ => True) (lru_cache slot key body) s.
Proof.
  intros Hother Hs (Hb & _). split; [|done].
  destruct (lru_find key (slot_get slot (caches s))) as [v|] eqn:Hfind.
  - rewrite (lru_cache_hit slot _ _ _ _ Hfind). unfold cache_amended in *. cbn.
    rewrite Hother. exact Hs.
  - rewrite (lru_cache_miss slot _ _ _ Hfind).
    destruct (result (body s)) as [v|e]; cbn; [|exact Hb].
    destruct (lru_find key (slot_get slot (caches (state (body s))))); [exact Hb|].
    unfold cache_amended in *. cbn. rewrite Hother. exact Hb.
Qed.

(** a resolution stores the record it amended *)
Lemma get_semantics_amends chain addr s :
  cache_amended E s -> amends E (fun _ => True) (get_semantics E chain addr) s.
Proof.
  intros Hs. split; [|done]. unfold cache_amended in *.
  destruct (lru_find (chain, addr) (c_get_semantics (caches s))) as [v|] eqn:Hfind.
  - rewrite (get_semantics_hit E chain addr s v Hfind). cbn.
    apply Forall_lru_touch; [|exact Hs].
    exact (lru_find_hit _ _ _ _ Hs Hfind).
  - destruct (truthy addr) as [a|] eqn:Ht.
    + rewrite (get_semantics_miss E chain addr a s Ht Hfind). cbn zeta.
      destruct (result (resolve_address_semantics E chain addr a (database s)))
        as [r0|e] eqn:Hres; cbn; [|exact Hs].
      apply Forall_lru_store.
      * unfold entry_amended. cbn. exists (amended E r0). split; [apply lookup_fresh|].
        exists a, (database s), r0, 0%nat. split_and!; [exact Ht|exact Hres|reflexivity].
      * eapply Forall_impl; [exact Hs|]. intros e. apply entry_amended_app.
    + rewrite (get_semantics_miss_falsy E chain addr s Ht Hfind). cbn.
      apply Forall_lru_store; [exact I|exact Hs].
Qed.

End Amended.

(** the steps that show a body keeps the cached records amended *)
Ltac amends_steps :=
  lazymatch goal with
  | |- cache_amended _ _ => assumption
  | |- amends _ _ (ret _) _ => apply amends_ret; [amends_steps|exact I]
  | |- amends _ _ (raise _) _ => apply amends_raise; amends_steps
  | |- amends _ _ (deref _) _ => apply amends_deref; amends_steps
  | |- amends _ _ (get_semantics _ _ _) _ => apply get_semantics_amends; amends_steps
  | |- amends _ _ (bind _ _) _ =>
      apply (amends_bind _ (fun _ => True)); [amends_steps|intros ? ? _; amends_steps]
  | |- amends _ _ (match ?x with _ => _ end) _ => destruct x; amends_steps
  end.

Ltac amends_accessor slot :=
  let Hs := fresh "Hs" in
  intros Hs;
  apply (amends_lru_cache _ slot); [reflexivity|exact Hs|];
  amends_steps.

Section AmendedAccessors.
Context {Abi : Type} (E : Collaborators Abi).

Lemma get_event_abi_amends chain addr signature s :
  cache_amended E s ->
  amends E (fun _ => True) (get_event_abi E chain addr signature) s.
Proof. unfold get_event_abi. amends_accessor slot_get_event_abi. Qed.

Lemma get_transformations_amends chain addr signature s :
  cache_amended E s ->
  amends E (fun _ => True) (get_transformations E chain addr signature) s.
Proof. unfold get_transformations. amends_accessor slot_get_transformations. Qed.

Lemma get_anonymous_event_abi_amends chain addr s :
  cache_amended E s ->
  amends E (fun _ => True) (get_anonymous_event_abi E chain addr) s.
Proof. unfold get_anonymous_event_abi. amends_accessor slot_get_anonymous_event_abi. Qed.

Lemma get_function_abi_amends chain addr signature s :
  cache_amended E s ->
  amends E (fun _ => True) (get_function_abi E chain addr signature) s.
Proof. unfold get_function_abi. amends_accessor slot_get_function_abi. Qed.

(** the constructor lookup appends its marker to a cached record *)
Lemma get_constructor_abi_amends chain addr s :
  cache_amended E s ->
  amends E (fun _ => True) (get_constructor_abi E chain addr) s.
Proof.
  intros Hs. unfold get_constructor_abi.
  apply (amends_lru_cache _ slot_get_constructor_abi); [reflexivity|exact Hs|].
  destruct (truthy addr); [|amends_steps].
  apply (amends_bind _ (fun _ => True)); [amends_steps|]. intros semantics Hs1 _.
  apply (amends_bind _ (fun cs : option fn_ref =>
                          forall ref, cs = Some ref -> ref.2 = "constructor")).
  - destruct semantics as [l|].
    + apply (amends_bind _ (fun _ => True)); [amends_steps|]. intros r Hs2 _.
      destruct (dict_get "constructor" (functions (contract r)));
        (apply amends_ret; [exact Hs2|]); [intros ref [= <-]; reflexivity|done].
    + apply amends_ret; [exact Hs1|done].
  - intros [[l signature]|] Hs2 Href; [|amends_steps].
    specialize (Href _ eq_refl). cbn in Href. subst signature.
    apply (amends_bind _ (fun _ => True)); [apply amends_outputs_append, Hs2|].
    intros _ Hs3 _. amends_steps.
Qed.

Lemma check_is_contract_amends chain addr s :
  cache_amended E s ->
  amends E (fun _ => True) (check_is_contract E chain addr) s.
Proof. unfold check_is_contract. amends_accessor slot_check_is_contract. Qed.

Lemma get_standard_amends chain addr s :
  cache_amended E s ->
  amends E (fun _ => True) (get_standard E chain addr) s.
Proof. unfold get_standard. amends_accessor slot_get_standard. Qed.

Lemma get_address_label_amends chain addr proxies s :
  cache_amended E s ->
  amends E (fun _ => True) (get_address_label E chain addr proxies) s.
Proof. intros Hs. unfold get_address_label. amends_steps. Qed.

Lemma get_token_data_amends chain addr proxies s :
  cache_amended E s ->
  amends E (fun _ => True) (get_token_data E chain addr proxies) s.
Proof. intros Hs. unfold get_token_data. amends_steps. Qed.

Lemma serve_amended req s : cache_amended E s -> cache_amended E (serve E req s).
Proof.
  intros Hs. destruct req; cbn [serve].
  - exact Hs.
  - exact Hs.
  - apply get_semantics_amends, Hs.
  - apply get_event_abi_amends, Hs.
  - apply get_transformations_amends, Hs.
  - apply get_anonymous_event_abi_amends, Hs.
  - apply get_function_abi_amends, Hs.
  - apply get_constructor_abi_amends, Hs.
  - apply get_address_label_amends, Hs.
  - apply check_is_contract_amends, Hs.
  - apply get_standard_amends, Hs.
  - apply get_token_data_amends, Hs.
Qed.

(** On every repository a client can observe, the records the cache of
    [get_semantics] holds were amended when they were resolved. *)
Lemma reachable_amended s : reachable E s -> cache_amended E s.
Proof.
  induction 1 as [db|req s _ IH|db s _ IH].
  - constructor.
  - apply serve_amended, IH.
  - exact IH.
Qed.

(** what a hit of the cache of [get_semantics] finds *)
Lemma cached_record_amended s chain addr l :
  reachable E s ->
  lru_find (chain, addr) (c_get_semantics (caches s)) = Some (Some l) ->
  exists r, heap s !! l = Some r /\ amended_when_resolved E chain addr r.
Proof.
  intros Hreach Hfind.
  exact (lru_find_hit _ _ _ _ (reachable_amended s Hreach) Hfind).
Qed.

End AmendedAccessors.

(** ** Falsy addresses *)

Lemma lru_cache_short_circuits {K V} `{EqDecision K} (slot : Slot K V) P key none body s :
  slot_ok slot P ->
  consistent s ->
  (forall n v, P n (key, v) -> v = none) ->
  body s = mkOutcome (Ok none) s [] ->
  short_circuits (lru_cache slot key body s) none s.
Proof.
  intros Hslot Hs Hnone Hbody. unfold short_circuits.
  destruct (lru_find key (slot_get slot (caches s))) as [v|] eqn:Hfind.
  - rewrite (lru_cache_hit slot _ _ _ _ Hfind). cbn.
    assert (v = none) as ->.
    { apply (Hnone (length (heap s))).
      eapply lru_find_hit; [|exact Hfind]. apply (slot_ok_get _ _ Hslot), Hs. }
    split_and!; reflexivity.
  - rewrite (lru_cache_miss slot _ _ _ Hfind), Hbody. cbn. rewrite Hfind. cbn.
    split_and!; reflexivity.
Qed.

Lemma truthy_falsy addr : addr = None \/ addr = Some "" -> truthy addr = None.
Proof. intros [->| ->]; reflexivity. Qed.

Section Falsy.
Context {Abi : Type} (E : Collaborators Abi).

Lemma get_semantics_falsy chain addr s :
  consistent s -> truthy addr = None ->
  short_circuits (get_semantics E chain addr s) None s.
Proof.
  intros Hs Hf. unfold get_semantics.
  apply (lru_cache_short_circuits slot_get_semantics semantics_entry_ok);
    [apply slot_ok_get_semantics|exact Hs| |apply get_semantics_wrapped_falsy, Hf].
  intros n v. unfold semantics_entry_ok. cbn. rewrite Hf. done.
Qed.

(** C6: on a repository a client can observe, a call with an absent or
    empty address returns the no-result value of the method -- nothing
    for the record, event, transformation, anonymous event, function,
    constructor and standard lookups, false for the contract flag, four
    times nothing for the token data, the empty string for the label --
    without raising, without any call to the store or to a remote
    collaborator, and with the database, the heap and the log
    unchanged. *)
Theorem falsy_address_short_circuits
    (s : Repo) (chain : string) (addr : option string) (signature : string)
    (proxies : option (dict Proxy)) :
  reachable E s ->
  addr = None \/ addr = Some "" ->
  short_circuits (get_semantics E chain addr s) None s /\
  short_circuits (get_event_abi E chain addr signature s) None s /\
  short_circuits (get_transformations E chain addr signature s) None s /\
  short_circuits (get_anonymous_event_abi E chain addr s) None s /\
  short_circuits (get_function_abi E chain addr signature s) None s /\
  short_circuits (get_constructor_abi E chain addr s) None s /\
  short_circuits (get_standard E chain addr s) None s /\
  short_circuits (check_is_contract E chain addr s) false s /\
  short_circuits (get_token_data E chain addr proxies s) (None, None, None, None) s /\
  short_circuits (get_address_label E chain addr proxies s) "" s.
Proof.
  intros Hreach Haddr.
  pose proof (reachable_consistent E s Hreach) as Hs.
  pose proof (truthy_falsy addr Haddr) as Hf.
  split_and!.
  - apply get_semantics_falsy; assumption.
  - unfold get_event_abi.
    apply (lru_cache_short_circuits slot_get_event_abi
             (@accessor3_ok (option EventSemantics) None));
      [apply slot_ok_get_event_abi|exact Hs|intros n v H; exact (H Hf)|].
    rewrite Hf. reflexivity.
  - unfold get_transformations.
    apply (lru_cache_short_circuits slot_get_transformations
             (@accessor3_ok (option (dict TransformationSemantics)) None));
      [apply slot_ok_get_transformations|exact Hs|intros n v H; exact (H Hf)|].
    rewrite Hf. reflexivity.
  - unfold get_anonymous_event_abi.
    apply (lru_cache_short_circuits slot_get_anonymous_event_abi
             (@accessor2_ok (option EventSemantics) None));
      [apply slot_ok_get_anonymous_event_abi|exact Hs|intros n v H; exact (H Hf)|].
    rewrite Hf. reflexivity.
  - unfold get_function_abi.
    apply (lru_cache_short_circuits slot_get_function_abi
             (@accessor3_ok (option fn_ref) None));
      [apply slot_ok_get_function_abi|exact Hs|intros n v H; exact (H Hf)|].
    rewrite Hf. reflexivity.
  - unfold get_constructor_abi.
    apply (lru_cache_short_circuits slot_get_constructor_abi
             (@accessor2_ok (option fn_ref) None));
      [apply slot_ok_get_constructor_abi|exact Hs|intros n v H; exact (H Hf)|].
    rewrite Hf. reflexivity.
  - unfold get_standard.
    apply (lru_cache_short_circuits slot_get_standard
             (@accessor2_ok (option string) None));
      [apply slot_ok_get_standard|exact Hs|intros n v H; exact (H Hf)|].
    rewrite Hf. reflexivity.
  - unfold check_is_contract.
    apply (lru_cache_short_circuits slot_check_is_contract
             (@accessor2_ok bool false));
      [apply slot_ok_check_is_contract|exact Hs|intros n v H; exact (H Hf)|].
    rewrite Hf. reflexivity.
  - unfold get_token_data, short_circuits. rewrite Hf. cbn. split_and!; reflexivity.
  - unfold get_address_label, short_circuits. rewrite Hf. cbn. split_and!; reflexivity.
Qed.

End Falsy.

(** ** What resolution returns *)

Section Claims.
Context {Abi : Type} (E : Collaborators Abi).

(** What resolution produces where it does produce a record: on a
    repository a client can observe, a call for a non-empty address never
    returns nothing.  It returns a record on the heap whenever the store
    holds, for every address document it has for the address, a contract
    document the model accepts (trivially so when the store has no
    document for the address).  When the call runs the tiers, the store
    has no record, the chain reports code, the registry has no interface
    and the token probe finds nothing, the record is the bare contract
    record: the code hash, and the address as name. *)
Lemma get_semantics_produces_record (s : Repo) (chain : string)
    (addr : option string) (a : string) :
  reachable E s ->
  truthy addr = Some a ->
  let o := get_semantics E chain addr s in
  result o <> Ok None /\
  (contract_stored chain a (database s) -> exists r, returns_record o r) /\
  (lru_find (chain, addr) (c_get_semantics (caches s)) = None ->
   find_address chain a (database s) = None ->
   get_code_hash E a chain <> ZERO_HASH ->
   (forall raw, get_contract_abi E chain a <> (Some raw, true)) ->
   guess_erc20_token E a chain = None ->
   returns_record o (amended E (bare_record E chain a))).
Proof.
  intros Hreach Ht. cbn zeta.
  pose proof (reachable_consistent E s Hreach) as Hs.
  destruct (lru_find (chain, addr) (c_get_semantics (caches s))) as [v|] eqn:Hfind.
  - rewrite (get_semantics_hit E chain addr s v Hfind). cbn.
    assert (semantics_entry_ok (length (heap s)) ((chain, addr), v)) as Hv.
    { eapply lru_find_hit; [apply Hs|exact Hfind]. }
    unfold semantics_entry_ok in Hv. cbn in Hv. rewrite Ht in Hv.
    destruct Hv as (l & -> & Hl). split_and!; [discriminate| |discriminate].
    intros _. destruct (lookup_lt_is_Some_2 (heap s) l Hl) as [r Hr].
    exists r, l. split; [reflexivity|exact Hr].
  - rewrite (get_semantics_miss E chain addr a s Ht Hfind). cbn zeta. split_and!.
    + destruct (result (resolve_address_semantics E chain addr a (database s)));
        discriminate.
    + intros Hstored.
      destruct (resolve_address_semantics_total E chain addr a (database s) Ht Hstored)
        as [r Hr].
      rewrite Hr. exists (amended E r), (length (heap s)). cbn.
      split; [reflexivity|apply lookup_fresh].
    + intros _ Hnone Hcode Habi Hguess.
      destruct (remote_address_semantics_spec E chain addr a Ht)
        as (r & cs & Hremote & _ & _ & _ & _ & _ & Hbare).
      rewrite (resolve_address_semantics_fresh E chain addr a (database s) r cs
                 Ht Hnone Hremote).
      cbn. rewrite (Hbare Hcode Habi Hguess).
      exists (length (heap s)). cbn. split; [reflexivity|apply lookup_fresh].
Qed.

(** C1, as the code has it: a call for a non-empty address that is not
    answered from the cache and returns a record has handed the contract
    of the record the tiers produced -- read from the store or freshly
    built -- to the amendment, as its last collaborator call and only
    once, and returns the record with the amended contract.  A call
    answered from the cache returns the cached result with no
    collaborator call at all and leaves the heap as it is; on a
    repository a client can observe, the record it returns is one that a
    resolution of this chain and address produced and amended -- as that
    resolution left it, but for the markers that constructor lookups
    have appended to it since. *)
Theorem amendment_on_resolution (s : Repo) (chain : string)
    (addr : option string) (a : string) :
  truthy addr = Some a ->
  let o := get_semantics E chain addr s in
  (lru_find (chain, addr) (c_get_semantics (caches s)) = None ->
   forall l, result o = Ok (Some l) ->
   exists r pre,
     result (resolve_address_semantics E chain addr a (database s)) = Ok r /\
     heap (state o) !! l = Some (amended E r) /\
     calls o = pre ++ [AmendContractSemantics (contract r)] /\
     Forall (fun c => is_amend_call c = false) pre) /\
  (forall v, lru_find (chain, addr) (c_get_semantics (caches s)) = Some v ->
   result o = Ok v /\ calls o = [] /\ heap (state o) = heap s) /\
  (reachable E s ->
   forall l, lru_find (chain, addr) (c_get_semantics (caches s)) = Some (Some l) ->
   exists r, returns_record_at o l r /\ amended_when_resolved E chain addr r).
Proof.
  intros Ht. cbn zeta. split; [|split].
  - intros Hmiss l. rewrite (get_semantics_miss E chain addr a s Ht Hmiss). cbn zeta.
    pose proof (resolve_address_semantics_calls E chain addr a (database s) Ht) as Hcalls.
    destruct (result (resolve_address_semantics E chain addr a (database s)))
      as [r|e]; cbn; [|discriminate].
    intros [= <-]. exists r, (calls (resolve_address_semantics E chain addr a (database s))).
    split_and!; [reflexivity|apply lookup_fresh|reflexivity|exact Hcalls].
  - intros v Hhit. rewrite (get_semantics_hit E chain addr s v Hhit). cbn.
    split_and!; reflexivity.
  - intros Hreach l Hhit.
    destruct (cached_record_amended E s chain addr l Hreach Hhit) as (r & Hr & Ha).
    exists r. split; [|exact Ha].
    rewrite (get_semantics_hit E chain addr s _ Hhit). split; [reflexivity|exact Hr].
Qed.

(** C2, as the code has it, for a call that runs the tiers on a non-empty
    address.  When the store has no record and the chain reports the
    sentinel code hash, the record returned is not a contract, has no
    standard and no ERC20 descriptor, is named by ENS, and its contract
    is the amendment of the bare "EOA" contract (sentinel code hash, name
    "EOA", no events, functions or transformations); neither the registry
    nor a token probe is called.  When the store has a record whose
    contract is the sentinel, the contract is again the amendment of the
    bare "EOA" contract and neither the chain, the registry nor a token
    probe is called; the contract flag, the standard and the ERC20
    descriptor are the stored ones. *)
Theorem sentinel_code_hash_resolution (s : Repo) (chain : string)
    (addr : option string) (a : string) :
  truthy addr = Some a ->
  lru_find (chain, addr) (c_get_semantics (caches s)) = None ->
  let o := get_semantics E chain addr s in
  (find_address chain a (database s) = None ->
   get_code_hash E a chain = ZERO_HASH ->
   returns_record o
     (mkAddressSemantics chain a (ens_name E chain a) false
        (amend_contract_semantics E eoa_contract) None None) /\
   Forall (fun c => beyond_chain c = false) (calls o)) /\
  (forall raw,
   find_address chain a (database s) = Some raw ->
   raw_contract raw = ZERO_HASH ->
   (exists nm,
      returns_record o
        (mkAddressSemantics chain a nm (raw_is_contract raw)
           (amend_contract_semantics E eoa_contract)
           (raw_standard raw) (raw_erc20 raw))) /\
   Forall (fun c => is_remote_call c = false \/ exists ch ad, c = EnsName ch ad)
     (calls o)).
Proof.
  intros Ht Hmiss. cbn zeta.
  rewrite (get_semantics_miss E chain addr a s Ht Hmiss). cbn zeta. split.
  - intros Hnone Hcode.
    destruct (remote_address_semantics_spec E chain addr a Ht)
      as (r & cs & Hremote & _ & _ & _ & Heoa & _).
    destruct (Heoa Hcode) as [-> ->].
    rewrite (resolve_address_semantics_fresh E chain addr a (database s) _ _
               Ht Hnone Hremote).
    destruct (update_semantics_spec E (eoa_record E chain a) (database s))
      as (_ & _ & Hplain).
    destruct (Hplain eq_refl) as [_ Hcalls]. cbn zeta in Hcalls.
    cbn [result state calls]. rewrite Hcalls. split.
    + exists (length (heap s)). cbn. split; [reflexivity|apply lookup_fresh].
    + repeat constructor.
  - intros raw Hfind Hz.
    rewrite (resolve_address_semantics_stored E chain addr a (database s) raw Ht Hfind).
    cbn zeta. rewrite decide_True by exact Hz. cbn [result state calls]. split.
    + eexists. exists (length (heap s)). cbn. split; [reflexivity|].
      rewrite lookup_fresh. unfold amended, stored_record, with_contract, eoa_contract.
      cbn. rewrite Hz. reflexivity.
    + destruct (asks_ens a raw); cbn;
        repeat (first [apply List.Forall_nil | apply List.Forall_cons]);
        first [left; reflexivity | right; eexists _, _; reflexivity].
Qed.

(** the log is off or on whatever a call does *)
Lemma get_semantics_records_irrelevant s recs chain addr :
  let o1 := get_semantics E chain addr s in
  let o2 := get_semantics E chain addr (set_records recs s) in
  result o2 = result o1 /\ calls o2 = calls o1 /\
  same_but_records (state o2) (state o1).
Proof.
  cbn zeta. unfold same_but_records.
  destruct (lru_find (chain, addr) (c_get_semantics (caches s))) as [v|] eqn:Hfind.
  - rewrite (get_semantics_hit E chain addr s v Hfind).
    rewrite (get_semantics_hit E chain addr (set_records recs s) v Hfind).
    split_and!; reflexivity.
  - destruct (truthy addr) as [a|] eqn:Ht.
    + rewrite (get_semantics_miss E chain addr a s Ht Hfind).
      rewrite (get_semantics_miss E chain addr a (set_records recs s) Ht Hfind).
      cbn. destruct (result (resolve_address_semantics E chain addr a (database s)));
        split_and!; reflexivity.
    + rewrite (get_semantics_miss_falsy E chain addr s Ht Hfind).
      rewrite (get_semantics_miss_falsy E chain addr (set_records recs s) Ht Hfind).
      split_and!; reflexivity.
Qed.

(** C9, as the code has it: recording is off on a new repository; [record]
    switches it on with an empty log and [end_record] hands the log over
    and switches it off.  A call for a non-empty address that is not
    answered from the cache and returns a record appends the address to
    the log when recording is on; a call answered from the cache, and a
    call for an empty address, leave the log as it is.  The state of the
    recording changes neither the result of a call, nor the calls to the
    collaborators, nor the repository apart from the log. *)
Theorem recording_of_resolved_addresses (s : Repo) (chain : string)
    (addr : option string) :
  let o := get_semantics E chain addr s in
  (forall db, _records (new_repository db) = None) /\
  _records (state (record s)) = Some [] /\
  (result (end_record s) = Ok (_records s) /\ _records (state (end_record s)) = None) /\
  (forall a l,
     truthy addr = Some a ->
     lru_find (chain, addr) (c_get_semantics (caches s)) = None ->
     result o = Ok (Some l) ->
     _records (state o) = (fun log => log ++ [a]) <$> _records s) /\
  (forall v,
     lru_find (chain, addr) (c_get_semantics (caches s)) = Some v ->
     _records (state o) = _records s) /\
  (truthy addr = None -> _records (state o) = _records s) /\
  (forall recs,
     let o' := get_semantics E chain addr (set_records recs s) in
     result o' = result o /\ calls o' = calls o /\
     same_but_records (state o') (state o)).
Proof.
  cbn zeta. refine (conj _ (conj _ (conj _ (conj _ (conj _ (conj _ _)))))).
  - reflexivity.
  - reflexivity.
  - split; reflexivity.
  - intros a l Ht Hmiss. rewrite (get_semantics_miss E chain addr a s Ht Hmiss).
    cbn zeta.
    destruct (result (resolve_address_semantics E chain addr a (database s)));
      cbn; [reflexivity|discriminate].
  - intros v Hhit. rewrite (get_semantics_hit E chain addr s v Hhit). reflexivity.
  - intros Hf.
    destruct (lru_find (chain, addr) (c_get_semantics (caches s))) as [v|] eqn:Hfind.
    + rewrite (get_semantics_hit E chain addr s v Hfind). reflexivity.
    + rewrite (get_semantics_miss_falsy E chain addr s Hf Hfind). reflexivity.
  - intros recs. apply get_semantics_records_irrelevant.
Qed.

End Claims.

(** ** Constructor lookup *)

Lemma dict_get_alter {V} (f : V -> V) (k : string) (d : dict V) :
  dict_get k (dict_alter f k d) = f <$> dict_get k d.
Proof.
  induction d as [|[k' v] d IH]; [reflexivity|]. cbn.
  case_decide; cbn; [rewrite decide_True by done; reflexivity|].
  rewrite decide_False by done. exact IH.
Qed.

Lemma deref_eq l r s : heap s !! l = Some r -> deref l s = mkOutcome (Ok r) s [].
Proof. intros Hl. unfold deref. rewrite bind_eq. cbn. rewrite Hl. reflexivity. Qed.

Section Constructor.
Context {Abi : Type} (E : Collaborators Abi).

(** A constructor lookup that is not answered from its cache returns the
    entry "constructor" of the record that [get_semantics] hands over,
    with the marker appended to the outputs that entry has at that
    moment; without such an entry it returns nothing. *)
Lemma get_constructor_abi_miss chain addr a s l r :
  truthy addr = Some a ->
  lru_find (chain, addr) (c_get_constructor_abi (caches s)) = None ->
  returns_record_at (get_semantics E chain addr s) l r ->
  let o := get_constructor_abi E chain addr s in
  match dict_get "constructor" (functions (contract r)) with
  | Some f =>
      result o = Ok (Some (l, "constructor")) /\
      deref_fn (l, "constructor") (state o) = Some (append_output create_output f)
  | None => result o = Ok None
  end.
Proof.
  intros Ht Hmiss [Hres Hheap]. cbn zeta. unfold get_constructor_abi.
  rewrite (lru_cache_miss slot_get_constructor_abi _ _ _ Hmiss), Ht.
  rewrite bind_eq.
  destruct (get_semantics E chain addr s) as [res1 s1 cs1]. cbn [result state] in Hres, Hheap.
  subst res1. cbn [result state calls].
  rewrite !bind_eq, (deref_eq l r s1 Hheap). cbn [result state calls].
  destruct (dict_get "constructor" (functions (contract r))) as [f|] eqn:Hf.
  - cbn. split; [reflexivity|].
    match goal with
    | |- deref_fn _ (match ?x with _ => _ end) = _ => destruct x
    end; unfold deref_fn; cbn [state set_caches set_heap heap fst snd];
      rewrite list_lookup_alter_eq, Hheap; cbn;
      rewrite dict_get_alter, Hf; reflexivity.
  - reflexivity.
Qed.

End Constructor.

(** * Examples on the small deployment *)

(** C5 (constructor lookup returns the stored "constructor" entry with
    exactly one more output, the marker) does not hold on the code.  The
    marker is appended in place to the function object that the cached
    record holds.  Once the lookup has
    left the cache of [get_constructor_abi] (here after lookups for 128
    other addresses) while the record is still in the cache of
    [get_semantics], the next constructor lookup appends the marker
    again: the stored definition has no output, the first lookup returns
    one output, the later one returns two. *)
Theorem constructor_outputs_accumulate :
  let s0 := new_repository ex_deployed in
  let first := get_constructor_abi ex_collaborators "1" (Some "0xc0ffee") s0 in
  let others := ex_other_lookups 128 (state first) in
  let again := get_constructor_abi ex_collaborators "1" (Some "0xc0ffee") (state others) in
  (raw_fn_outputs <$> (find_contract "0x20c0de" ex_deployed
                         ≫= fun rc => dict_get "constructor" (raw_functions rc))) = Some [] /\
  result first = Ok (Some (0%nat, "constructor")) /\
  (fn_outputs <$> deref_fn (0%nat, "constructor") (state first)) = Some [create_output] /\
  result others = Ok tt /\
  result again = Ok (Some (0%nat, "constructor")) /\
  (fn_outputs <$> deref_fn (0%nat, "constructor") (state again))
  = Some [create_output; create_output].
Proof. vm_compute. repeat split. Qed.

(** C1 as stated fails: the second call for the same address is answered
    from the cache; it returns the record and the amendment is not
    applied. *)
Lemma amendment_skipped_on_cache_hit :
  let s1 := state (get_semantics ex_collaborators "1" (Some "0xe0a")
                     (new_repository ex_empty)) in
  let o := get_semantics ex_collaborators "1" (Some "0xe0a") s1 in
  result o = Ok (Some 0%nat) /\ heap (state o) = heap s1 /\ ~ amendment_applied o.
Proof.
  cbn zeta. split; [vm_compute; reflexivity|]. split; [vm_compute; reflexivity|].
  intros [c Hc].
  assert (calls (get_semantics ex_collaborators "1" (Some "0xe0a")
                   (state (get_semantics ex_collaborators "1" (Some "0xe0a")
                             (new_repository ex_empty)))) = []) as Hcalls
    by (vm_compute; reflexivity).
  rewrite Hcalls in Hc. inversion Hc.
Qed.

Lemma amendment_on_resolution_witness :
  let o := get_semantics ex_collaborators "1" (Some "0xe0a") (new_repository ex_empty) in
  let o' := get_semantics ex_collaborators "1" (Some "0xe0a") (state o) in
  (exists r pre,
     result (resolve_address_semantics ex_collaborators "1" (Some "0xe0a") "0xe0a"
               ex_empty) = Ok r /\
     heap (state o) !! 0%nat = Some (amended ex_collaborators r) /\
     calls o = pre ++ [AmendContractSemantics (contract r)] /\
     Forall (fun c => is_amend_call c = false) pre) /\
  (result o' = Ok (Some 0%nat) /\ calls o' = [] /\ heap (state o') = heap (state o)) /\
  (exists r, returns_record_at o' 0%nat r /\
     amended_when_resolved ex_collaborators "1" (Some "0xe0a") r).
Proof.
  cbn zeta. split; [|split].
  - exact (proj1 (amendment_on_resolution ex_collaborators (new_repository ex_empty)
                    "1" (Some "0xe0a") "0xe0a" eq_refl) eq_refl 0%nat eq_refl).
  - exact (proj1 (proj2 (amendment_on_resolution ex_collaborators
                           (state (get_semantics ex_collaborators "1" (Some "0xe0a")
                                     (new_repository ex_empty)))
                           "1" (Some "0xe0a") "0xe0a" eq_refl)) (Some 0%nat) eq_refl).
  - exact (proj2 (proj2 (amendment_on_resolution ex_collaborators
                           (state (get_semantics ex_collaborators "1" (Some "0xe0a")
                                     (new_repository ex_empty)))
                           "1" (Some "0xe0a") "0xe0a" eq_refl))
             (reachable_serve ex_collaborators (ReqGetSemantics "1" (Some "0xe0a")) _
                (reachable_new ex_collaborators ex_empty))
             0%nat eq_refl).
Defined.

(** C2 as stated fails: the store holds a document whose contract is the
    sentinel and which is flagged as a contract with a token descriptor;
    the record returned has the "EOA" contract and keeps the flag and
    the descriptor. *)
Lemma sentinel_record_keeps_stored_flags :
  let o := get_semantics ex_collaborators "1" (Some "0xe0a") (new_repository ex_flagged) in
  (raw_contract <$> find_address "1" "0xe0a" ex_flagged) = Some ZERO_HASH /\
  exists r,
    returns_record o r /\
    code_hash (contract r) = ZERO_HASH /\ contract_name (contract r) = "EOA" /\
    is_contract r = true /\
    erc20 r = Some (mkERC20Semantics "Vault" "VLT" 6).
Proof.
  cbn zeta. split; [reflexivity|]. eexists. split.
  - exists 0%nat. split; vm_compute; reflexivity.
  - repeat split.
Qed.

Lemma sentinel_code_hash_resolution_witness :
  (returns_record
     (get_semantics ex_collaborators "1" (Some "0xe0a") (new_repository ex_empty))
     (mkAddressSemantics "1" "0xe0a" "0xe0a" false (ex_amend eoa_contract) None None) /\
   Forall (fun c => beyond_chain c = false)
     (calls (get_semantics ex_collaborators "1" (Some "0xe0a")
               (new_repository ex_empty)))) /\
  ((exists nm,
      returns_record
        (get_semantics ex_collaborators "1" (Some "0xe0a") (new_repository ex_flagged))
        (mkAddressSemantics "1" "0xe0a" nm true (ex_amend eoa_contract)
           (Some "ERC20") (Some (mkERC20Semantics "Vault" "VLT" 6)))) /\
   Forall (fun c => is_remote_call c = false \/ exists ch ad, c = EnsName ch ad)
     (calls (get_semantics ex_collaborators "1" (Some "0xe0a")
               (new_repository ex_flagged)))).
Proof.
  split.
  - exact (proj1 (sentinel_code_hash_resolution ex_collaborators
                    (new_repository ex_empty) "1" (Some "0xe0a") "0xe0a"
                    eq_refl eq_refl) eq_refl eq_refl).
  - exact (proj2 (sentinel_code_hash_resolution ex_collaborators
                    (new_repository ex_flagged) "1" (Some "0xe0a") "0xe0a"
                    eq_refl eq_refl) _ eq_refl eq_refl).
Defined.

(** C9 as stated fails: with recording on, the second call for the same
    address is answered from the cache and the address is not appended
    again. *)
Lemma cached_call_is_not_recorded :
  let s0 := state (record (new_repository ex_empty)) in
  let s1 := state (get_semantics ex_collaborators "1" (Some "0xe0a") s0) in
  let o := get_semantics ex_collaborators "1" (Some "0xe0a") s1 in
  _records s0 = Some [] /\
  _records s1 = Some ["0xe0a"] /\
  result o = Ok (Some 0%nat) /\
  _records (state o) = Some ["0xe0a"] /\
  _records (state o) <> Some ["0xe0a"; "0xe0a"].
Proof. vm_compute. repeat split. discriminate. Qed.

Lemma recording_of_resolved_addresses_witness :
  let s0 := state (record (new_repository ex_empty)) in
  let o := get_semantics ex_collaborators "1" (Some "0xe0a") s0 in
  _records (state o) = (fun log => log ++ ["0xe0a"]) <$> _records s0.
Proof.
  exact (proj1 (proj2 (proj2 (proj2
           (recording_of_resolved_addresses ex_collaborators
              (state (record (new_repository ex_empty))) "1" (Some "0xe0a")))))
           "0xe0a" 0%nat eq_refl eq_refl eq_refl).
Defined.

(** C10 (for every non-empty address resolution produces a record) does
    not hold on the code.  The store holds an address document for
    ["0xdead"] that names the contract document ["0x404"], which the
    store does not have.  The read of the contract document returns
    nothing and the code subscripts the result at once, whereas the read
    of the address document just before it is guarded: the call raises
    [TypeError] after the two reads and produces no record. *)
Theorem missing_contract_document_raises :
  let o := get_semantics ex_collaborators "1" (Some "0xdead") (new_repository ex_dangling) in
  truthy (Some "0xdead") = Some "0xdead" /\
  (raw_contract <$> find_address "1" "0xdead" ex_dangling) = Some "0x404" /\
  find_contract "0x404" ex_dangling = None /\
  result o = Raise TypeError /\
  calls o = [DbGetAddressSemantics "1" "0xdead"; DbGetContractSemantics "0x404"] /\
  ~ exists r, returns_record o r.
Proof.
  cbn zeta. split_and!; try (vm_compute; reflexivity).
  intros (r & l & Hres & _).
  assert (result (get_semantics ex_collaborators "1" (Some "0xdead")
                    (new_repository ex_dangling)) = Raise TypeError) as Hraise
    by (vm_compute; reflexivity).
  rewrite Hraise in Hres. discriminate.
Qed.

(** A stored transformation without an expression is refused by the
    constructor of the model: the call raises and produces no record. *)
Lemma refused_transformation_raises :
  let o := get_semantics ex_collaborators "1" (Some "0xbad")
             (new_repository ex_null_transformation) in
  result o = Raise ValidationError /\
  calls o = [DbGetAddressSemantics "1" "0xbad"; DbGetContractSemantics "0xbadc0de"] /\
  heap (state o) = [].
Proof. vm_compute. repeat split. Qed.

Lemma get_semantics_produces_record_witness :
  let o := get_semantics ex_collaborators "1" (Some "0xc0de") (new_repository ex_empty) in
  result o <> Ok None /\
  (exists r, returns_record o r) /\
  returns_record o (amended ex_collaborators (bare_record ex_collaborators "1" "0xc0de")).
Proof.
  destruct (get_semantics_produces_record ex_collaborators (new_repository ex_empty)
              "1" (Some "0xc0de") "0xc0de" (reachable_new ex_collaborators ex_empty)
              eq_refl) as (Hsome & Hrec & Hbare).
  split; [exact Hsome|]. split.
  - apply Hrec. intros raw Hraw. vm_compute in Hraw. discriminate.
  - apply Hbare; [reflexivity|reflexivity|vm_compute; discriminate| |reflexivity].
    intros raw. vm_compute. discriminate.
Defined.

Lemma falsy_address_short_circuits_witness :
  short_circuits
    (get_semantics ex_collaborators "1" (Some "") (new_repository ex_flagged))
    None (new_repository ex_flagged) /\
  short_circuits
    (check_is_contract ex_collaborators "1" None (new_repository ex_flagged))
    false (new_repository ex_flagged).
Proof.
  split.
  - exact (proj1 (falsy_address_short_circuits ex_collaborators
                    (new_repository ex_flagged) "1" (Some "") "0xa9059cbb" None
                    (reachable_new ex_collaborators ex_flagged) (or_intror eq_refl))).
  - destruct (falsy_address_short_circuits ex_collaborators
                (new_repository ex_flagged) "1" None "0xa9059cbb" None
                (reachable_new ex_collaborators ex_flagged) (or_introl eq_refl))
      as (_ & _ & _ & _ & _ & _ & _ & H & _).
    exact H.
Defined.

Lemma standard_classification_witness :
  classified ex_collaborators (Some "0x70ce") "Token" ex_token_events ex_token_functions
  = Some "ERC20" /\
  classified ex_collaborators (Some "0x70ce") "Token"
    (dict_remove ex_transfer_event ex_token_events) ex_token_functions
  <> Some "ERC20".
Proof.
  split; [vm_compute; reflexivity|].
  destruct (standard_classification_all_or_nothing ex_collaborators
              (Some "0x70ce") "Token" ex_token_events ex_token_functions ex_empty)
    as (_ & _ & _ & _ & Hremove & _).
  apply Hremove. apply list_elem_of_In. vm_compute. left. reflexivity.
Defined.

Lemma erc20_descriptor_fallback_witness :
  _decode_standard_semantics ex_collaborators (Some "0x70ce") "Token"
    ex_token_events ex_token_functions ex_empty =
  mkOutcome (Ok (Some "ERC20", Some (mkERC20Semantics "Token" "Token" 18))) ex_empty
    [Web3GetErc20Token "0x70ce" "Token"].
Proof.
  apply (erc20_descriptor_fallback ex_collaborators (Some "0x70ce") "0x70ce" "Token"
           ex_token_events ex_token_functions ex_empty).
  - reflexivity.
  - apply matches_erc20_check. vm_compute. reflexivity.
  - reflexivity.
Defined.

(** C4 as stated fails: a registration that finds no entry with the same
    name, hash and number of arguments adds the signature with the
    [guessed] flag it carries, and nothing in the code sets that flag.
    The signature that [insert_contract_signatures] builds for a function
    takes the default of the model: where that is false, the new entry
    is not marked as guessed. *)
Lemma new_signature_is_not_marked_guessed :
  let o := insert_contract_signatures ex_signature_defaults ex_swap_contract ex_empty in
  let o' := update_or_insert_signature ex_swap_signature ex_registry in
  result o = Ok tt /\
  db_signatures (state o) = [ex_swap_signature] /\
  db_signatures (state o') = db_signatures ex_registry ++ [ex_swap_signature] /\
  guessed ex_swap_signature = false /\
  ~ Forall (fun sg => guessed sg = true) (db_signatures (state o)) /\
  ~ Forall (fun sg => guessed sg = true) (db_signatures (state o')).
Proof.
  cbn zeta. split_and!; try (vm_compute; reflexivity).
  - assert (db_signatures (state (insert_contract_signatures ex_signature_defaults
                                    ex_swap_contract ex_empty)) = [ex_swap_signature])
      as -> by (vm_compute; reflexivity).
    intros H. inversion H as [|? ? Hg _]. discriminate Hg.
  - assert (db_signatures (state (update_or_insert_signature ex_swap_signature
                                    ex_registry))
            = db_signatures ex_registry ++ [ex_swap_signature])
      as -> by (vm_compute; reflexivity).
    intros H. apply Forall_app in H as [_ H].
    inversion H as [|? ? Hg _]. discriminate Hg.
Qed.

Lemma update_or_insert_signature_witness :
  let o := update_or_insert_signature ex_transfer ex_registry in
  let o' := update_or_insert_signature
              (new_signature ex_signature_defaults ex_swap) ex_registry in
  (exists sg',
     db_signatures (state o) = <[1%nat := sg']> (db_signatures ex_registry) /\
     count sg' = 4 /\ guessed sg' = false) /\
  (exists sg',
     db_signatures (state o') = db_signatures ex_registry ++ [sg'] /\
     guessed sg' = false /\ count sg' = 1 /\ tuple sg' = false).
Proof.
  cbn zeta. split.
  - destruct (update_or_insert_signature_registry ex_collaborators ex_transfer
                ex_registry) as (_ & Hfirst & _).
    destruct (Hfirst 1%nat ex_guessed_transfer) as (sg' & Hnew & Hcount & Hguessed & _).
    + reflexivity.
    + vm_compute. repeat split.
    + intros j sg' Hj Hlookup. assert (j = 0%nat) as -> by lia.
      injection Hlookup as <-. vm_compute. intros (Hname & _). discriminate.
    + exists sg'. split; [exact Hnew|]. split; [exact Hcount|exact Hguessed].
  - destruct (update_or_insert_signature_registry ex_signature_defaults
                (new_signature ex_signature_defaults ex_swap) ex_registry)
      as (_ & _ & _ & _ & Hnew).
    apply (Hnew ex_swap eq_refl).
    intros [|[|i]] sg Hi; [| |discriminate]; injection Hi as <-;
      vm_compute; intros (Hname & _); discriminate.
Defined.

Lemma insert_contract_signatures_witness :
  let c := mkContractSemantics "0x20c0de" "Token" ex_token_events ex_token_functions [] in
  lookups (calls (insert_contract_signatures ex_collaborators c ex_empty))
  = ["0x18160ddd"; "0x70a08231"; "0xa9059cbb"; "0x23b872dd"; "0x095ea7b3";
     "0xdd62ed3e"; "0x5c11d795"] /\
  args (new_signature ex_collaborators ex_swap) =
  [mkSignatureArg "maker" "address"; mkSignatureArg "amount" "uint256"].
Proof.
  cbn zeta.
  destruct (insert_contract_signatures_scan ex_collaborators
              (mkContractSemantics "0x20c0de" "Token" ex_token_events
                 ex_token_functions []) ex_empty) as (_ & _ & Hl & _ & Htuple & _).
  split.
  - rewrite Hl. reflexivity.
  - exact (Htuple ex_swap ex_order [ex_param "deadline" "uint256"] eq_refl eq_refl).
Defined.

(** * Further properties *)

(** ** The most used signature *)

Lemma py_max_by_spec {A} (key : A -> Z) (xs : list A) : forall best,
  exists k,
    (best :: xs) !! k = Some (py_max_by key best xs) /\
    forall k' x, (best :: xs) !! k' = Some x ->
      key x <= key (py_max_by key best xs) /\
      ((k' < k)%nat -> key x < key (py_max_by key best xs)).
Proof.
  induction xs as [|y xs IH]; intros best.
  - exists 0%nat. split; [reflexivity|]. intros [|k'] x Hx; [|done].
    injection Hx as <-. split; [cbn; lia|lia].
  - cbn [py_max_by].
    destruct (IH (if (key best <? key y)%Z then y else best)) as (k & Hk & Hmax).
    set (m := py_max_by key (if (key best <? key y)%Z then y else best) xs) in *.
    assert (key best <= key (if (key best <? key y)%Z then y else best) /\
            key y <= key (if (key best <? key y)%Z then y else best)) as [Hb Hy].
    { destruct (Z.ltb_spec (key best) (key y)); lia. }
    destruct k as [|k].
    + injection Hk as Hm.
      destruct (Z.ltb_spec (key best) (key y)) as [Hlt|Hge].
      * exists 1%nat. split; [cbn; congruence|].
        intros [|[|k']] x Hx.
        -- injection Hx as <-. rewrite <- Hm. split; lia.
        -- injection Hx as <-. rewrite <- Hm. split; lia.
        -- destruct (Hmax (S k') x Hx) as [Hle _]. split; [exact Hle|lia].
      * exists 0%nat. split; [cbn; congruence|].
        intros [|[|k']] x Hx.
        -- injection Hx as <-. rewrite <- Hm. split; lia.
        -- injection Hx as <-. rewrite <- Hm. split; lia.
        -- destruct (Hmax (S k') x Hx) as [Hle _]. split; [exact Hle|lia].
    + destruct (Hmax 0%nat _ eq_refl) as [_ Hfirst].
      specialize (Hfirst ltac:(lia)).
      exists (S (S k)). split; [exact Hk|].
      intros [|[|k']] x Hx.
      * injection Hx as <-. split; lia.
      * injection Hx as <-. split; lia.
      * destruct (Hmax (S k') x Hx) as [Hle Hlt]. split; [exact Hle|].
        intros Hlt'. apply Hlt. lia.
Qed.

(** The documents the database returns for a hash are the entries with
    that hash, each with its position, in the order of the registry. *)
Lemma find_signatures_from h sigs : forall n,
  let l := filter (fun d : nat * Signature => signature_hash d.2 = h)
             (imap (fun i sg => ((n + i)%nat, sg)) sigs) in
  (forall i sg, (i, sg) ∈ l <->
     exists j, i = (n + j)%nat /\ sigs !! j = Some sg /\ signature_hash sg = h) /\
  (forall k k' x y, l !! k = Some x -> l !! k' = Some y -> (k < k')%nat ->
     (x.1 < y.1)%nat).
Proof.
  induction sigs as [|s sigs IH]; intros n; cbn zeta.
  - split.
    + intros i sg. split; [intros H; inversion H|intros (j & _ & Hj & _); done].
    + intros k k' x y Hx. done.
  - rewrite imap_cons.
    rewrite (imap_ext _ (fun i sg => ((S n + i)%nat, sg)))
      by (intros; cbn; f_equal; lia).
    destruct (IH (S n)) as [Helem Horder]. cbn zeta in Helem, Horder.
    set (l' := filter (fun d : nat * Signature => signature_hash d.2 = h)
                 (imap (fun i sg => ((S n + i)%nat, sg)) sigs)) in *.
    assert (forall i sg, (i, sg) ∈ l' -> (n < i)%nat) as Hlow.
    { intros i sg Hin. apply Helem in Hin as (j & -> & _). lia. }
    rewrite filter_cons. cbn [snd]. fold l'. split.
    + intros i sg. case_decide as Hh.
      * rewrite elem_of_cons, Helem. split.
        -- intros [[= -> ->]|(j & -> & Hj & Hsg)].
           ++ exists 0%nat. split_and!; [lia|reflexivity|exact Hh].
           ++ exists (S j). split_and!; [lia|exact Hj|exact Hsg].
        -- intros ([|j] & -> & Hj & Hsg).
           ++ left. injection Hj as <-. f_equal; lia.
           ++ right. exists j. split_and!; [lia|exact Hj|exact Hsg].
      * rewrite Helem. split.
        -- intros (j & -> & Hj & Hsg). exists (S j). split_and!; [lia|exact Hj|exact Hsg].
        -- intros ([|j] & -> & Hj & Hsg).
           ++ injection Hj as <-. done.
           ++ exists j. split_and!; [lia|exact Hj|exact Hsg].
    + case_decide as Hh; [|exact Horder].
      intros [|k] [|k'] x y Hx Hy Hlt; try lia.
      * injection Hx as <-. destruct y as [i sg]. cbn [fst].
        assert (n < i)%nat; [|lia].
        eapply Hlow, list_elem_of_lookup_2. exact Hy.
      * exact (Horder k k' x y Hx Hy ltac:(lia)).
Qed.

Lemma find_signatures_spec h db :
  (forall i sg, (i, sg) ∈ find_signatures h db <->
     db_signatures db !! i = Some sg /\ signature_hash sg = h) /\
  (forall k k' x y,
     find_signatures h db !! k = Some x -> find_signatures h db !! k' = Some y ->
     (k < k')%nat -> (x.1 < y.1)%nat).
Proof.
  unfold find_signatures.
  rewrite (imap_ext _ (fun i sg => ((0 + i)%nat, sg))) by done.
  destruct (find_signatures_from h (db_signatures db) 0) as [Helem Horder].
  split; [|exact Horder].
  intros i sg. rewrite Helem. split.
  - intros (j & -> & Hj & Hsg). done.
  - intros [Hi Hsg]. exists i. done.
Qed.

Lemma get_most_used_signature_spec (h : string) (db : Database) :
  let o := get_most_used_signature h db in
  state o = db /\
  calls o = [DbGetSignatureSemantics h] /\
  (result o = Ok None <->
     forall i sg, db_signatures db !! i = Some sg -> signature_hash sg <> h) /\
  (result o <> Ok None ->
   exists i sg,
     result o = Ok (Some sg) /\
     db_signatures db !! i = Some sg /\ signature_hash sg = h /\
     forall j sg', db_signatures db !! j = Some sg' -> signature_hash sg' = h ->
       count sg' <= count sg /\ (count sg' = count sg -> (i <= j)%nat)).
Proof.
  cbn zeta. unfold get_most_used_signature, db_get_signature_semantics.
  rewrite !bind_eq. cbn [call gets result state calls app].
  destruct (find_signatures_spec h db) as [Helem Horder].
  destruct (find_signatures h db) as [|first rest] eqn:Hfind.
  - cbn. split_and!; [reflexivity|reflexivity| |done].
    split; [|reflexivity]. intros _ i sg Hi Hh.
    assert ((i, sg) ∈ @nil (nat * Signature)) as Hin by (apply Helem; done).
    inversion Hin.
  - cbn [ret result state calls app].
    destruct (py_max_by_spec (fun d : nat * Signature => count d.2) rest first)
      as (k & Hk & Hmax).
    set (m := py_max_by (fun d : nat * Signature => count d.2) first rest) in *.
    assert ((m.1, m.2) ∈ first :: rest) as Hin.
    { destruct m. eapply list_elem_of_lookup_2, Hk. }
    apply Helem in Hin as [Hm Hmh].
    split_and!; [reflexivity|reflexivity| |].
    + split; [discriminate|]. intros Hnone. exfalso. exact (Hnone _ _ Hm Hmh).
    + intros _. exists m.1, m.2. split_and!; [destruct (m.2); reflexivity|done|done|].
      intros j sg' Hj Hjh.
      assert ((j, sg') ∈ first :: rest) as Hin' by (apply Helem; done).
      apply list_elem_of_lookup_1 in Hin' as [k' Hk'].
      destruct (Hmax k' _ Hk') as [Hle Hlt]. cbn [snd] in Hle, Hlt.
      split; [exact Hle|]. intros Heq.
      destruct (Nat.lt_trichotomy k' k) as [Hl|[->|Hg]].
      * specialize (Hlt Hl). lia.
      * rewrite Hk in Hk'. injection Hk' as Hm'. rewrite Hm'. cbn. lia.
      * pose proof (Horder k k' _ _ Hk Hk' Hg) as Ho. cbn in Ho. lia.
Qed.

(** X1: the lookup of the most used signature never raises and leaves
    the registry alone.  It returns nothing exactly when the registry has
    no entry with the hash; otherwise it returns an entry of the registry
    with that hash whose count is the highest among the entries with the
    hash, and, among the entries with that highest count, the first in
    the registry. *)
Theorem get_most_used_signature_max (h : string) (db : Database) :
  let o := get_most_used_signature h db in
  state o = db /\
  calls o = [DbGetSignatureSemantics h] /\
  (result o = Ok None <->
     forall i sg, db_signatures db !! i = Some sg -> signature_hash sg <> h) /\
  (result o <> Ok None ->
   exists i sg,
     result o = Ok (Some sg) /\
     db_signatures db !! i = Some sg /\ signature_hash sg = h /\
     forall j sg', db_signatures db !! j = Some sg' -> signature_hash sg' = h ->
       count sg' <= count sg /\ (count sg' = count sg -> (i <= j)%nat)).
Proof. exact (get_most_used_signature_spec h db). Qed.

(** ** What a registration leaves in the registry *)

Lemma same_key_refreshed signature sg :
  same_key signature sg -> same_key sg (refreshed signature sg).
Proof.
  intros (Hn & Hh & Hl). unfold same_key, refreshed. cbn. split_and!; try reflexivity.
  destruct (args signature) as [|a0 r0], (args sg) as [|a1 r1]; try done.
  destruct (str_contains "arg" (arg_name a1) || str_contains "arg" (arg_type a1));
    cbn in *; lia.
Qed.

Lemma same_key_trans a b c : same_key a b -> same_key b c -> same_key a c.
Proof. unfold same_key. intros (?&?&?) (?&?&?). split_and!; congruence. Qed.

Lemma has_key_find signature sigs :
  has_key signature sigs <-> is_Some (list_find (same_key signature) sigs).
Proof.
  split.
  - intros (i & sg & Hi & Hk).
    destruct (list_find (same_key signature) sigs) as [p|] eqn:Hf; [eauto|].
    apply list_find_None in Hf. rewrite Forall_lookup in Hf.
    exfalso. exact (Hf i sg Hi Hk).
  - intros [[i sg] Hf]. apply list_find_Some in Hf as (Hi & Hk & _).
    exists i, sg. done.
Qed.

(** A registration adds an entry exactly when the key is new, keeps every
    key the registry has, and leaves the key of the signature in it. *)
Lemma registered_keys signature sigs :
  (has_key signature sigs -> length (registered signature sigs) = length sigs) /\
  (~ has_key signature sigs ->
     length (registered signature sigs) = S (length sigs)) /\
  (forall other, has_key other sigs -> has_key other (registered signature sigs)) /\
  has_key signature (registered signature sigs).
Proof.
  unfold registered.
  destruct (list_find (same_key signature) sigs) as [[i sg]|] eqn:Hf.
  - pose proof Hf as Hfind. apply list_find_Some in Hf as (Hi & Hk & _).
    assert (i < length sigs)%nat as Hlt by (eapply lookup_lt_Some; eauto).
    split_and!.
    + intros _. apply length_insert.
    + intros Hno. exfalso. apply Hno. exists i, sg. done.
    + intros other (j & sg' & Hj & Hk'). destruct (decide (j = i)) as [->|Hne].
      * exists i, (refreshed signature sg).
        rewrite list_lookup_insert_eq by exact Hlt. split; [reflexivity|].
        assert (sg' = sg) as -> by congruence.
        eapply same_key_trans; [exact Hk'|]. apply same_key_refreshed, Hk.
      * exists j, sg'. rewrite list_lookup_insert_ne by done. done.
    + exists i, (refreshed signature sg).
      rewrite list_lookup_insert_eq by exact Hlt. split; [reflexivity|].
      eapply same_key_trans; [exact Hk|]. apply same_key_refreshed, Hk.
  - split_and!.
    + intros Hk. apply has_key_find in Hk. rewrite Hf in Hk. destruct Hk; done.
    + intros _. rewrite length_app. cbn. lia.
    + intros other (j & sg' & Hj & Hk'). exists j, sg'.
      rewrite lookup_app_l by (eapply lookup_lt_Some; eauto). done.
    + exists (length sigs), signature. rewrite lookup_fresh.
      split; [reflexivity|]. unfold same_key. done.
Qed.

(** a run of registrations over signatures whose keys the registry has
    adds no entry; any run keeps the keys and leaves those of its
    signatures *)
Lemma for_each_registrations_keys (sigs : list Signature) : forall db,
  let db' := state (for_each sigs update_or_insert_signature db) in
  (forall other, has_key other (db_signatures db) ->
     has_key other (db_signatures db')) /\
  (forall sg, sg ∈ sigs -> has_key sg (db_signatures db')) /\
  ((forall sg, sg ∈ sigs -> has_key sg (db_signatures db)) ->
     length (db_signatures db') = length (db_signatures db)).
Proof.
  induction sigs as [|sg sigs IH]; intros db; cbn zeta.
  - split_and!; [done|intros sg H; inversion H|done].
  - cbn [for_each]. rewrite bind_eq, update_or_insert_signature_spec.
    cbn [result state calls].
    set (db1 := mkDatabase (db_addresses db) (db_contracts db)
                  (registered sg (db_signatures db))).
    destruct (IH db1) as (Hkeep & Hin & Hlen). cbn zeta in Hkeep, Hin, Hlen.
    destruct (registered_keys sg (db_signatures db)) as (Hsame & _ & Hkeys & Hself).
    split_and!.
    + intros other Hk. apply Hkeep. cbn. apply Hkeys, Hk.
    + intros sg' [->|Hin']%elem_of_cons.
      * apply Hkeep. cbn. exact Hself.
      * apply Hin, Hin'.
    + intros Hall. rewrite Hlen.
      * cbn. apply Hsame, Hall. left.
      * intros sg' Hin'. cbn. apply Hkeys, Hall. right. exact Hin'.
Qed.

Section RegistryMore.
Context {Abi : Type} (E : Collaborators Abi).

(** X2: once the signatures of a contract are registered, the registry
    has an entry under the key (name, hash, number of arguments) of every
    function whose signature starts with "0x", and registering the same
    contract again adds no entry to the registry and touches neither the
    address nor the contract documents. *)
Theorem insert_contract_signatures_again (c : ContractSemantics) (db : Database) :
  let db1 := state (insert_contract_signatures E c db) in
  let db2 := state (insert_contract_signatures E c db1) in
  (forall v, v ∈ dict_values (functions c) -> String.prefix "0x" (fn_signature v) = true ->
     has_key (new_signature E v) (db_signatures db1)) /\
  length (db_signatures db2) = length (db_signatures db1) /\
  db_addresses db2 = db_addresses db /\ db_contracts db2 = db_contracts db /\
  db_addresses db1 = db_addresses db /\ db_contracts db1 = db_contracts db.
Proof.
  cbn zeta. unfold insert_contract_signatures.
  rewrite !insert_contract_signatures_loop.
  set (sigs := map (new_signature E)
                 (filter (fun v => String.prefix "0x" (fn_signature v) = true)
                    (dict_values (functions c)))).
  destruct (for_each_registrations_keys sigs db) as (_ & Hin & _).
  destruct (for_each_registrations_keys sigs
              (state (for_each sigs update_or_insert_signature db))) as (_ & _ & Hlen).
  destruct (for_each_registrations sigs db) as (_ & _ & Ha & Hc & _).
  destruct (for_each_registrations sigs
              (state (for_each sigs update_or_insert_signature db)))
    as (_ & _ & Ha' & Hc' & _).
  cbn zeta in *. split_and!.
  - intros v Hv Hp. apply Hin. unfold sigs. apply list_elem_of_fmap_2.
    apply list_elem_of_filter. done.
  - apply Hlen, Hin.
  - congruence.
  - congruence.
  - exact Ha.
  - exact Hc.
Qed.

End RegistryMore.

(** X3: after a registration the lookup of the most used signature for
    the hash of the registered signature returns an entry with that hash,
    whose count is at least the count every entry with the hash had
    before the registration. *)
Theorem most_used_after_registration (signature : Signature) (db : Database) :
  let db' := state (update_or_insert_signature signature db) in
  exists sg,
    result (get_most_used_signature (signature_hash signature) db') = Ok (Some sg) /\
    signature_hash sg = signature_hash signature /\
    forall i sg0, db_signatures db !! i = Some sg0 ->
      signature_hash sg0 = signature_hash signature -> count sg0 <= count sg.
Proof.
  cbn zeta. rewrite update_or_insert_signature_spec. cbn [state].
  set (db' := mkDatabase (db_addresses db) (db_contracts db)
                (registered signature (db_signatures db))).
  destruct (get_most_used_signature_spec (signature_hash signature) db')
    as (_ & _ & Hnone & Hsome).
  cbn zeta in Hnone, Hsome.
  destruct (registered_keys signature (db_signatures db)) as (_ & _ & _ & Hself).
  destruct Hself as (i0 & sg0 & Hi0 & (_ & Hh0 & _)).
  destruct Hsome as (i & sg & Hres & Hi & Hh & Hmax).
  { intros Hn. exact (proj1 Hnone Hn i0 sg0 Hi0 Hh0). }
  exists sg. split_and!; [exact Hres|exact Hh|].
  intros j sgj Hj Hjh. unfold db' in Hmax. cbn [db_signatures] in Hmax.
  unfold registered in Hmax.
  destruct (list_find (same_key signature) (db_signatures db)) as [[k sgk]|] eqn:Hf.
  - apply list_find_Some in Hf as (Hk & _ & _).
    destruct (decide (j = k)) as [->|Hne].
    + assert (sgj = sgk) as -> by congruence.
      destruct (Hmax k (refreshed signature sgk)) as [Hle _].
      * apply list_lookup_insert_eq. eapply lookup_lt_Some; eauto.
      * cbn. congruence.
      * cbn in Hle. lia.
    + destruct (Hmax j sgj) as [Hle _]; [|exact Hjh|exact Hle].
      rewrite list_lookup_insert_ne by done. exact Hj.
  - destruct (Hmax j sgj) as [Hle _]; [|exact Hjh|exact Hle].
    rewrite lookup_app_l by (eapply lookup_lt_Some; eauto). exact Hj.
Qed.

(** X4: when a registration meets a first entry with the same name, hash
    and number of arguments, the names and types of all the arguments of
    that entry are replaced by those of the registered signature if the
    name or the type of the first stored argument contains "arg", and
    are all kept otherwise; the loop over the arguments never runs out
    of range. *)
Theorem update_or_insert_signature_arguments (signature : Signature) (db : Database) :
  let o := update_or_insert_signature signature db in
  forall i sg,
    list_find (same_key signature) (db_signatures db) = Some (i, sg) ->
    result o = Ok tt /\
    exists sg',
      db_signatures (state o) !! i = Some sg' /\
      sig_name sg' = sig_name sg /\ signature_hash sg' = signature_hash sg /\
      (forall a rest,
         args sg = a :: rest ->
         str_contains "arg" (arg_name a) || str_contains "arg" (arg_type a) = true ->
         args sg' = args signature) /\
      (forall a rest,
         args sg = a :: rest ->
         str_contains "arg" (arg_name a) || str_contains "arg" (arg_type a) = false ->
         args sg' = args sg) /\
      (args sg = [] -> args sg' = []).
Proof.
  cbn zeta. intros i sg Hf. rewrite update_or_insert_signature_spec.
  cbn [result state db_signatures]. unfold registered. rewrite Hf.
  apply list_find_Some in Hf as (Hi & (_ & _ & Hlen) & _).
  split; [reflexivity|]. exists (refreshed signature sg).
  split_and!; [|reflexivity|reflexivity|..].
  - apply list_lookup_insert_eq. eapply lookup_lt_Some; eauto.
  - intros a rest Hargs Hp. cbn. rewrite Hargs in *.
    destruct (args signature); [discriminate|]. rewrite Hp. reflexivity.
  - intros a rest Hargs Hp. cbn. rewrite Hargs in *.
    destruct (args signature); [reflexivity|]. rewrite Hp. reflexivity.
  - intros Hargs. cbn. rewrite Hargs.
    destruct (args signature); reflexivity.
Qed.

(** ** The store: what is written is what is read *)

Lemma decode_parameter_dict : forall p, decode_parameter (parameter_dict p) = p.
Proof.
  fix IH 1. intros [pname ptype comps idx dyn]. cbn. f_equal.
  induction comps as [|c comps IHc]; cbn; [reflexivity|].
  rewrite IH. f_equal. exact IHc.
Qed.

Lemma decode_parameters_dict (ps : list ParameterSemantics) :
  map decode_parameter (map parameter_dict ps) = ps.
Proof.
  induction ps as [|p ps IH]; cbn; [reflexivity|].
  rewrite decode_parameter_dict, IH. reflexivity.
Qed.

(** the model accepts the transformations it wrote itself *)
Lemma stored_transformations_dict (trs : dict (dict TransformationSemantics)) :
  stored_transformations (dict_map (dict_map transformation_dict) trs) = Some trs.
Proof.
  unfold stored_transformations, dict_map.
  induction trs as [|[k d] trs IH]; [reflexivity|].
  cbn [map mapM fst snd]. cbn [map mapM fst snd] in IH. rewrite IH.
  assert (mapM (fun kv' : string * RawTransformation =>
                  pair kv'.1 <$> stored_transformation kv'.2)
            (map (fun kv : string * TransformationSemantics =>
                    (kv.1, transformation_dict kv.2)) d) = Some d) as ->.
  { clear. induction d as [|[k' [tn tt tr]] d IHd]; [reflexivity|].
    cbn [map mapM fst snd]. rewrite IHd. reflexivity. }
  reflexivity.
Qed.

Lemma stored_contract_accepted (c : ContractSemantics) :
  is_Some (stored_contract (contract_dict c)).
Proof.
  unfold stored_contract, contract_dict. cbn [raw_transformations].
  rewrite stored_transformations_dict. eexists. reflexivity.
Qed.

Lemma stored_contract_dict (c : ContractSemantics) :
  keyed_by ev_signature (events c) ->
  keyed_by fn_signature (functions c) ->
  stored_contract (contract_dict c) = Some c.
Proof.
  intros Hev Hfn. destruct c as [h n evs fns trs]. unfold stored_contract.
  cbn [contract_dict raw_transformations raw_events raw_functions raw_code_hash
       raw_contract_name code_hash contract_name events functions transformations] in *.
  rewrite stored_transformations_dict. cbn [fmap option_fmap option_map].
  f_equal. f_equal.
  - unfold dict_map. induction Hev as [|[k e] evs Hk _ IH]; cbn; [reflexivity|].
    rewrite IH. f_equal. f_equal. cbn in Hk. subst k.
    destruct e. unfold decode_event. cbn. rewrite decode_parameters_dict. reflexivity.
  - unfold dict_map. induction Hfn as [|[k f] fns Hk _ IH]; cbn; [reflexivity|].
    rewrite IH. f_equal. f_equal. cbn in Hk. subst k.
    destruct f. unfold decode_function. cbn. rewrite !decode_parameters_dict.
    reflexivity.
Qed.

Lemma head_filter_replace_or_append {A} (P : A -> Prop) `{forall x, Decision (P x)}
    (x : A) (l : list A) :
  P x -> head (filter P (replace_or_append (fun y => bool_decide (P y)) x l)) = Some x.
Proof.
  intros Hx. induction l as [|y l IH]; cbn [replace_or_append].
  - rewrite filter_cons, decide_True by exact Hx. reflexivity.
  - case_bool_decide as Hy.
    + rewrite filter_cons, decide_True by exact Hx. reflexivity.
    + rewrite filter_cons, decide_False by exact Hy. exact IH.
Qed.

(** a contract document is found under its code hash once stored *)
Lemma find_contract_stored c db :
  find_contract (raw_code_hash c) (store_contract c db) = Some c.
Proof.
  unfold find_contract, store_contract. cbn.
  apply (head_filter_replace_or_append (fun c' => raw_code_hash c' = raw_code_hash c)).
  reflexivity.
Qed.

(** an address document is found under its chain and address once stored *)
Lemma find_address_stored r db :
  find_address (raw_chain_id r) (raw_address r) (store_address r db) = Some r.
Proof.
  unfold find_address, store_address. cbn.
  apply (head_filter_replace_or_append (address_key (raw_chain_id r) (raw_address r))).
  split; reflexivity.
Qed.

Section StoreMore.
Context {Abi : Type} (E : Collaborators Abi).

(** the documents in the store after a record is persisted *)
Lemma update_semantics_documents r db :
  let db' := state (update_semantics E (Some r) db) in
  find_address (chain_id r) (address r) db' = Some (address_dict r) /\
  find_contract (code_hash (contract r)) db' = Some (contract_dict (contract r)).
Proof.
  cbn zeta.
  set (db2 := store_address (address_dict r)
                (store_contract (contract_dict (contract r)) db)).
  assert (db_addresses (state (update_semantics E (Some r) db)) = db_addresses db2 /\
          db_contracts (state (update_semantics E (Some r) db)) = db_contracts db2)
    as [Ha Hc].
  { unfold update_semantics, db_insert_contract, db_insert_address.
    repeat (progress (rewrite ?bind_eq; cbn)).
    destruct (find_contract (code_hash (contract r)) db);
      repeat (progress (rewrite ?bind_eq; cbn)); [split; reflexivity|].
    unfold insert_contract_signatures. rewrite insert_contract_signatures_loop.
    match goal with
    | |- context [for_each ?l update_or_insert_signature ?d] =>
        destruct (for_each_registrations l d) as (_ & _ & Ha & Hc & _)
    end.
    cbn zeta in Ha, Hc. rewrite Ha, Hc. split; reflexivity. }
  unfold find_address, find_contract. rewrite Ha, Hc. split.
  - apply (find_address_stored (address_dict r)).
  - apply (find_contract_stored (contract_dict (contract r))).
Qed.

(** X5: a record written by [update_semantics] and read back by
    [_read_stored_semantics] is the record that was written, in every
    field, provided the address is not empty, the code hash of its
    contract is not the sentinel, the events and functions are keyed by
    their own signatures, and -- for an account that is not a contract
    and is named by its address -- ENS gives that same name. *)
Theorem store_round_trip (r : AddressSemantics) (db : Database) :
  address r <> "" ->
  code_hash (contract r) <> ZERO_HASH ->
  keyed_by ev_signature (events (contract r)) ->
  keyed_by fn_signature (functions (contract r)) ->
  (name r = address r -> is_contract r = false ->
     ens_name E (chain_id r) (address r) = name r) ->
  result (_read_stored_semantics E (Some (address r)) (chain_id r)
            (state (update_semantics E (Some r) db))) = Ok (Some r).
Proof.
  intros Ha Hcode Hev Hfn Hens.
  destruct (update_semantics_documents r db) as [Haddr Hcontract]. cbn zeta in *.
  rewrite (_read_stored_semantics_spec E (chain_id r) (Some (address r)) (address r))
    by (cbn; rewrite decide_False by exact Ha; reflexivity).
  rewrite Haddr. cbn zeta. cbn [address_dict raw_contract].
  rewrite decide_False by exact Hcode.
  rewrite Hcontract, (stored_contract_dict _ Hev Hfn). cbn [result].
  do 2 f_equal. unfold stored_record, asks_ens. cbn.
  destruct r as [ch ad nm ic c st e]. cbn in *. f_equal.
  case_bool_decide as Hn; cbn; [|reflexivity].
  destruct ic; cbn; [reflexivity|]. apply Hens; done.
Qed.

(** X6: once an address the store did not know has been resolved, the
    store holds its address document and, unless the code hash is the
    sentinel, its contract document: a new repository over that database
    resolves the address from the store, returns a record, and calls
    neither the chain for the code hash, nor the registry, nor a token
    probe. *)
Theorem resolution_is_persisted (s : Repo) (chain : string)
    (addr : option string) (a : string) :
  truthy addr = Some a ->
  lru_find (chain, addr) (c_get_semantics (caches s)) = None ->
  find_address chain a (database s) = None ->
  let o := get_semantics E chain addr s in
  let o' := get_semantics E chain addr (new_repository (database (state o))) in
  is_Some (find_address chain a (database (state o))) /\
  (exists r', returns_record o' r') /\
  Forall (fun c => is_remote_call c = false \/ exists ch ad, c = EnsName ch ad)
    (calls o').
Proof.
  intros Ht Hmiss Hnone. cbn zeta.
  rewrite (get_semantics_miss E chain addr a s Ht Hmiss). cbn zeta.
  destruct (remote_address_semantics_spec E chain addr a Ht)
    as (r & cs & Hremote & Hchain & Haddr & _).
  rewrite (resolve_address_semantics_fresh E chain addr a (database s) r cs
             Ht Hnone Hremote).
  cbn [result state calls database].
  destruct (update_semantics_documents r (database s)) as [Hfa Hfc].
  cbn zeta in Hfa, Hfc. rewrite Hchain, Haddr in Hfa.
  set (db' := state (update_semantics E (Some r) (database s))) in *.
  split; [rewrite Hfa; eauto|].
  rewrite (get_semantics_miss E chain addr a (new_repository db') Ht eq_refl).
  cbn zeta. cbn [database new_repository].
  rewrite (resolve_address_semantics_stored E chain addr a db' _ Ht Hfa).
  cbn zeta. cbn [address_dict raw_contract].
  destruct (decide (code_hash (contract r) = ZERO_HASH)).
  - cbn [result state calls]. split.
    + eexists. exists 0%nat. cbn. split; reflexivity.
    + destruct (asks_ens a (address_dict r)); cbn;
        repeat (first [apply List.Forall_nil | apply List.Forall_cons]);
        first [left; reflexivity | right; eexists _, _; reflexivity].
  - rewrite Hfc.
    destruct (stored_contract_accepted (contract r)) as [c' ->].
    cbn [result state calls]. split.
    + eexists. exists 0%nat. cbn. split; reflexivity.
    + destruct (asks_ens a (address_dict r)); cbn;
        repeat (first [apply List.Forall_nil | apply List.Forall_cons]);
        first [left; reflexivity | right; eexists _, _; reflexivity].
Qed.

(** the tiers do not look at the amendment *)
Lemma resolve_address_semantics_with_amend f chain addr a db :
  resolve_address_semantics (with_amend f E) chain addr a db =
  resolve_address_semantics E chain addr a db.
Proof. reflexivity. Qed.

(** X7: the amendment is applied to the record that is returned and
    never reaches the store.  Whatever the amendment does, the database
    and the recording log after a call of [get_semantics] are the same,
    the call raises, or returns nothing, in the same cases, and a record
    it returns is placed at the same location and differs in its
    contract at most.  When the call runs the tiers, the two records are
    the two amendments of the one record the tiers produced. *)
Theorem amendment_is_not_persisted (f : ContractSemantics -> ContractSemantics)
    (s : Repo) (chain : string) (addr : option string) :
  let o := get_semantics E chain addr s in
  let o' := get_semantics (with_amend f E) chain addr s in
  database (state o') = database (state o) /\
  _records (state o') = _records (state o) /\
  (forall e, result o' = Raise e <-> result o = Raise e) /\
  (result o' = Ok None <-> result o = Ok None) /\
  (forall l r, returns_record_at o l r ->
     exists r', returns_record_at o' l r' /\ with_contract (contract r) r' = r) /\
  (forall a l r,
     truthy addr = Some a ->
     lru_find (chain, addr) (c_get_semantics (caches s)) = None ->
     returns_record_at o l r ->
     exists r0,
       result (resolve_address_semantics E chain addr a (database s)) = Ok r0 /\
       r = with_contract (amend_contract_semantics E (contract r0)) r0 /\
       returns_record_at o' l (with_contract (f (contract r0)) r0)).
Proof.
  cbn zeta.
  destruct (lru_find (chain, addr) (c_get_semantics (caches s))) as [v|] eqn:Hfind.
  - rewrite (get_semantics_hit E chain addr s v Hfind).
    rewrite (get_semantics_hit (with_amend f E) chain addr s v Hfind).
    split_and!; try reflexivity.
    + intros l r Hrec. exists r. split; [exact Hrec|]. destruct r; reflexivity.
    + intros a l r _ [=].
  - destruct (truthy addr) as [a|] eqn:Ht.
    + rewrite (get_semantics_miss E chain addr a s Ht Hfind).
      rewrite (get_semantics_miss (with_amend f E) chain addr a s Ht Hfind).
      cbn zeta. rewrite resolve_address_semantics_with_amend.
      unfold returns_record_at.
      destruct (result (resolve_address_semantics E chain addr a (database s)))
        as [r0|e0] eqn:Hres; cbn [result state calls database _records heap].
      * split_and!; try reflexivity.
        -- intros l r [[= <-] Hr]. rewrite lookup_fresh in Hr. injection Hr as <-.
           exists (amended (with_amend f E) r0). split.
           ++ split; [reflexivity|apply lookup_fresh].
           ++ destruct r0; reflexivity.
        -- intros a' l r [= <-] _ [[= <-] Hr]. rewrite lookup_fresh in Hr.
           injection Hr as <-. exists r0. split_and!; try reflexivity.
           ++ exact Hres.
           ++ apply lookup_fresh.
      * split_and!; try reflexivity.
        -- intros l r [[=] _].
        -- intros a' l r _ _ [[=] _].
    + rewrite (get_semantics_miss_falsy E chain addr s Ht Hfind).
      rewrite (get_semantics_miss_falsy (with_amend f E) chain addr s Ht Hfind).
      split_and!; try reflexivity.
      * intros l r [[=] _].
      * intros a l r [=].
Qed.

End StoreMore.

(** ** Memoization *)

Section LRUMore.
Context {K V : Type} `{EqDecision K}.

Lemma lru_find_touch (k : K) (v : V) (c : lru K V) :
  lru_find k (lru_touch k v c) = Some v.
Proof. unfold lru_touch. cbn. rewrite decide_True by reflexivity. reflexivity. Qed.

Lemma lru_find_store (k : K) (v : V) (c : lru K V) :
  lru_find k (lru_store k v c) = Some v.
Proof. unfold lru_store, maxsize. cbn. rewrite decide_True by reflexivity. reflexivity. Qed.

End LRUMore.

(** After a decorated method whose body leaves its own cache alone has
    returned, the result is in the cache. *)
Lemma lru_cache_cached {K V} `{EqDecision K} (slot : Slot K V) key body s v :
  (forall x c, slot_get slot (slot_set slot x c) = x) ->
  frames (slot_get slot) body s ->
  result (lru_cache slot key body s) = Ok v ->
  lru_find key (slot_get slot (caches (state (lru_cache slot key body s)))) = Some v.
Proof.
  intros Hlens Hframe Hres.
  destruct (lru_find key (slot_get slot (caches s))) as [v0|] eqn:Hfind.
  - rewrite (lru_cache_hit slot _ _ _ _ Hfind) in Hres |- *.
    injection Hres as ->. cbn. rewrite Hlens. apply lru_find_touch.
  - rewrite (lru_cache_miss slot _ _ _ Hfind) in Hres |- *.
    destruct (result (body s)) as [v0|e]; [|discriminate].
    cbn in Hres. injection Hres as ->. cbn [state].
    unfold frames in Hframe. rewrite Hframe, Hfind. cbn.
    rewrite Hlens. apply lru_find_store.
Qed.

(** A decorated method whose body leaves its own cache alone answers a
    repeated call from the cache. *)
Lemma lru_cache_memoized {K V} `{EqDecision K} (slot : Slot K V) key body s :
  (forall x c, slot_get slot (slot_set slot x c) = x) ->
  frames (slot_get slot) body s ->
  memoized (lru_cache slot key body) s.
Proof.
  intros Hlens Hframe v Hres. cbn zeta.
  pose proof (lru_cache_cached slot key body s v Hlens Hframe Hres) as Hcached.
  rewrite (lru_cache_hit slot _ _ _ _ Hcached). cbn. split_and!; reflexivity.
Qed.

Lemma frames_ret {X A} (p : Caches -> X) (a : A) s : frames p (ret a) s.
Proof. reflexivity. Qed.

Lemma frames_raise {X A} (p : Caches -> X) e s : frames p (@raise Repo A e) s.
Proof. reflexivity. Qed.

Lemma frames_bind {X A B} (p : Caches -> X) (m : M Repo A) (f : A -> M Repo B) s :
  frames p m s -> (forall a, frames p (f a) (state (m s))) -> frames p (bind m f) s.
Proof.
  intros Hm Hf. unfold frames in *. rewrite bind_eq.
  destruct (result (m s)) as [a|e]; cbn; [|exact Hm].
  rewrite Hf. exact Hm.
Qed.

Lemma frames_deref {X} (p : Caches -> X) l s : frames p (deref l) s.
Proof.
  unfold frames, deref. rewrite bind_eq. cbn. destruct (heap s !! l); reflexivity.
Qed.

Lemma frames_outputs_append {X} (p : Caches -> X) ref prm s :
  frames p (outputs_append ref prm) s.
Proof. reflexivity. Qed.

Section Memo.
Context {Abi : Type} (E : Collaborators Abi).

Lemma get_semantics_wrapped_frames chain addr s :
  caches (state (get_semantics_wrapped E chain addr s)) = caches s.
Proof.
  destruct (truthy addr) as [a|] eqn:Ht.
  - rewrite (get_semantics_wrapped_truthy E chain addr a s Ht). cbn zeta.
    destruct (result (resolve_address_semantics E chain addr a (database s)));
      reflexivity.
  - rewrite (get_semantics_wrapped_falsy E chain addr s Ht). reflexivity.
Qed.

(** [get_semantics] changes its own cache only *)
Lemma get_semantics_frames {X} (p : Caches -> X) chain addr s :
  (forall x c, p (slot_set slot_get_semantics x c) = p c) ->
  frames p (get_semantics E chain addr) s.
Proof.
  intros Hp. unfold frames.
  destruct (lru_find (chain, addr) (c_get_semantics (caches s))) as [v|] eqn:Hfind.
  - rewrite (get_semantics_hit E chain addr s v Hfind). cbn. apply Hp.
  - unfold get_semantics. rewrite (lru_cache_miss slot_get_semantics _ _ _ Hfind).
    destruct (result (get_semantics_wrapped E chain addr s));
      cbn [state slot_get slot_get_semantics];
      [|rewrite get_semantics_wrapped_frames; reflexivity].
    rewrite get_semantics_wrapped_frames, Hfind. cbn [caches set_caches].
    rewrite get_semantics_wrapped_frames. apply Hp.
Qed.

End Memo.

(** the steps that show a body leaves a cache alone *)
Ltac frames_steps :=
  lazymatch goal with
  | |- frames _ (ret _) _ => apply frames_ret
  | |- frames _ (raise _) _ => apply frames_raise
  | |- frames _ (deref _) _ => apply frames_deref
  | |- frames _ (outputs_append _ _) _ => apply frames_outputs_append
  | |- frames _ (get_semantics _ _ _) _ =>
      apply get_semantics_frames; intros; reflexivity
  | |- frames _ (bind _ _) _ => apply frames_bind; [frames_steps|intros ?; frames_steps]
  | |- frames _ (match ?x with _ => _ end) _ => destruct x; frames_steps
  end.

Section Memoized.
Context {Abi : Type} (E : Collaborators Abi).

(** X8: a call of [get_semantics] that returned is memoized: the same
    call on the repository it leaves returns the same result without
    calling any collaborator and without touching the database, the
    heap or the log.  A call that raised is not: the key is still absent
    from the cache, so the next call runs the tiers again. *)
Theorem get_semantics_memoized (s : Repo) (chain : string) (addr : option string) :
  memoized (get_semantics E chain addr) s /\
  (forall e, result (get_semantics E chain addr s) = Raise e ->
     lru_find (chain, addr)
       (c_get_semantics (caches (state (get_semantics E chain addr s)))) = None).
Proof.
  split.
  - unfold get_semantics. apply lru_cache_memoized; [reflexivity|].
    unfold frames. rewrite get_semantics_wrapped_frames. reflexivity.
  - intros e.
    destruct (lru_find (chain, addr) (c_get_semantics (caches s))) as [v|] eqn:Hfind.
    + rewrite (get_semantics_hit E chain addr s v Hfind). discriminate.
    + unfold get_semantics. rewrite (lru_cache_miss slot_get_semantics _ _ _ Hfind).
      destruct (result (get_semantics_wrapped E chain addr s)); cbn; [discriminate|].
      intros _. rewrite get_semantics_wrapped_frames. exact Hfind.
Qed.

(** X9: every memoized accessor answers a repeated call from its own
    cache: same result, no collaborator call, and the database, the heap
    and the log untouched -- in particular a repeated constructor lookup
    that is answered from the cache of [get_constructor_abi] does not
    append the marker again. *)
Theorem accessors_memoized (s : Repo) (chain : string) (addr : option string)
    (signature : string) :
  memoized (get_event_abi E chain addr signature) s /\
  memoized (get_transformations E chain addr signature) s /\
  memoized (get_anonymous_event_abi E chain addr) s /\
  memoized (get_function_abi E chain addr signature) s /\
  memoized (get_constructor_abi E chain addr) s /\
  memoized (check_is_contract E chain addr) s /\
  memoized (get_standard E chain addr) s.
Proof.
  split_and!.
  - unfold get_event_abi. apply lru_cache_memoized; [reflexivity|]. frames_steps.
  - unfold get_transformations. apply lru_cache_memoized; [reflexivity|]. frames_steps.
  - unfold get_anonymous_event_abi. apply lru_cache_memoized; [reflexivity|].
    frames_steps.
  - unfold get_function_abi. apply lru_cache_memoized; [reflexivity|]. frames_steps.
  - unfold get_constructor_abi. apply lru_cache_memoized; [reflexivity|]. frames_steps.
  - unfold check_is_contract. apply lru_cache_memoized; [reflexivity|]. frames_steps.
  - unfold get_standard. apply lru_cache_memoized; [reflexivity|]. frames_steps.
Qed.

End Memoized.

(** ** More on the classifier and the tiers *)

Lemma default_stored_name (a : string) (o : option string) :
  o = None \/ o = Some a -> default a o = a.
Proof. intros [Ho|Ho]; subst o; reflexivity. Qed.

Section TiersMore.
Context {Abi : Type} (E : Collaborators Abi).

Lemma _decode_standard_semantics_descriptor address name events functions db :
  exists std tok,
    _decode_standard_semantics E address name events functions db
    = mkOutcome (Ok (std, tok)) db
        (match tok, truthy address with
         | Some _, Some a => [Web3GetErc20Token a name]
         | _, _ => []
         end) /\
    (is_Some tok <-> std = Some "ERC20") /\
    (std = None \/ std = Some "ERC20" \/ std = Some "ERC721") /\
    (truthy address = None -> std = None) /\
    (forall a t, truthy address = Some a -> std = Some "ERC20" ->
       get_erc20_token E a name functions = Some t -> tok = Some t).
Proof.
  unfold _decode_standard_semantics.
  destruct (truthy address) as [a|].
  - destruct (forallb _ (ERC20_EVENTS E) && forallb _ (ERC20_FUNCTIONS E)).
    + rewrite !bind_eq.
      destruct (get_erc20_token E a name functions) as [[n sy d]|] eqn:Htok; cbn.
      * exists (Some "ERC20"), (Some (mkERC20Semantics n sy d)).
        split; [reflexivity|]. split_and!; eauto.
        -- split; eauto.
        -- discriminate.
        -- intros a0 t [= <-] _ Ht0. rewrite Htok in Ht0. injection Ht0 as <-.
           reflexivity.
      * exists (Some "ERC20"), (Some (mkERC20Semantics name name 18)).
        split; [reflexivity|]. split_and!; eauto.
        -- split; eauto.
        -- discriminate.
        -- intros a0 t [= <-] _ Ht0. rewrite Htok in Ht0. discriminate.
    + destruct (forallb _ (ERC721_EVENTS E) && forallb _ (ERC721_FUNCTIONS E)).
      * exists (Some "ERC721"), None. split; [reflexivity|]. split_and!; eauto.
        -- split; [intros [? ?]; done|done].
        -- discriminate.
        -- done.
      * exists None, None. split; [reflexivity|]. split_and!; eauto.
        -- split; [intros [? ?]; done|done].
        -- done.
  - exists None, None. split; [reflexivity|]. split_and!; eauto.
    + split; [intros [? ?]; done|done].
    + done.
Qed.

(** X10: the classifier returns a token descriptor exactly when it
    returns the standard ERC20 -- never for ERC721 or for an unclassified
    contract -- and it calls the chain, once, exactly in that case; with
    an empty address it returns no standard and calls nothing.  When the
    live read of the token data succeeds, the descriptor is the one read. *)
Theorem classifier_descriptor_iff_erc20
    (address : option string) (name : string)
    (events : dict EventSemantics) (functions : dict FunctionSemantics) (db : Database) :
  let o := _decode_standard_semantics E address name events functions db in
  exists std tok,
    result o = Ok (std, tok) /\ state o = db /\
    (is_Some tok <-> std = Some "ERC20") /\
    (calls o <> [] <-> std = Some "ERC20") /\
    (Forall (fun c => exists a, c = Web3GetErc20Token a name) (calls o) /\
     (length (calls o) <= 1)%nat) /\
    (truthy address = None -> std = None /\ tok = None) /\
    (forall a t, truthy address = Some a -> std = Some "ERC20" ->
       get_erc20_token E a name functions = Some t -> tok = Some t).
Proof.
  cbn zeta.
  destruct (_decode_standard_semantics_descriptor address name events functions db)
    as (std & tok & -> & Htok & Hstd & Hfalsy & Hlive).
  exists std, tok. cbn [result state calls].
  split_and!; [reflexivity|reflexivity|exact Htok| | | | |exact Hlive].
  - destruct tok as [t|], (truthy address) as [a|] eqn:Ht.
    + split; [intros _; apply Htok; eauto|done].
    + specialize (Hfalsy eq_refl). subst std.
      assert (@None string = Some "ERC20") as Habs by (apply Htok; eauto).
      discriminate.
    + split; [done|]. intros H20. apply Htok in H20 as [? ?]. done.
    + split; [done|]. intros H20. apply Htok in H20 as [? ?]. done.
  - destruct tok, (truthy address); repeat constructor. eauto.
  - destruct tok, (truthy address); cbn; lia.
  - intros Hf. split; [exact (Hfalsy Hf)|].
    destruct tok as [t|]; [|reflexivity].
    specialize (Hfalsy Hf). subst std.
    assert (@None string = Some "ERC20") as Habs by (apply Htok; eauto).
    discriminate.
Qed.

(** X11: the record built for an address the store does not know never
    raises and never touches the store.  It carries the chain id and the
    address asked for and the code hash the chain reports; it is a
    contract exactly when that code hash is not the sentinel; it has an
    ERC20 descriptor whenever its standard is ERC20; it has no
    transformations; and when it is not a contract it is the "EOA"
    record, without standard or descriptor. *)
Theorem remote_record_shape (chain : string) (addr : option string) (a : string)
    (db : Database) :
  truthy addr = Some a ->
  let o := remote_address_semantics E chain addr a db in
  exists r,
    result o = Ok r /\ state o = db /\
    Forall (fun c => is_store_call c = false) (calls o) /\
    chain_id r = chain /\ address r = a /\
    code_hash (contract r) = get_code_hash E a chain /\
    (is_contract r = true <-> get_code_hash E a chain <> ZERO_HASH) /\
    (standard r = Some "ERC20" -> is_Some (erc20 r)) /\
    transformations (contract r) = [] /\
    (is_contract r = false -> r = eoa_record E chain a).
Proof.
  intros Ht. cbn zeta. unfold remote_address_semantics.
  destruct (decide (get_code_hash E a chain = ZERO_HASH)) as [Hz|Hz].
  - rewrite (bool_decide_eq_true_2 _ Hz). cbn [negb]. rewrite !bind_eq. cbn.
    eexists. split_and!; try reflexivity; try done.
    all: try (repeat constructor; fail).
    all: try (split; [discriminate|done]).
  - rewrite (bool_decide_eq_false_2 _ Hz). cbn [negb].
    destruct (get_contract_abi E chain a) as [[raw|] [|]] eqn:Habi.
    + destruct (_decode_standard_semantics_descriptor addr (rs_name raw)
                  (decode_events_and_functions E (rs_abi raw)).1
                  (decode_events_and_functions E (rs_abi raw)).2 db)
        as (std & tok & Hstd & Htok & _).
      repeat (progress (rewrite ?bind_eq, ?Hstd; cbn)).
      destruct (bool_decide (std = Some "ERC20")) eqn:H20;
        repeat (progress (rewrite ?bind_eq; cbn)).
      * eexists. split_and!; try reflexivity; try done.
        all: try (rewrite Ht; destruct tok; repeat constructor; fail).
        intros _. apply Htok. apply bool_decide_eq_true in H20. exact H20.
      * eexists. split_and!; try reflexivity; try done.
        all: try (rewrite Ht; destruct tok; repeat constructor; fail).
        intros H. apply bool_decide_eq_false in H20. done.
    + rewrite !bind_eq. cbn. eexists. split_and!; try reflexivity; try done.
      all: try (repeat constructor; fail).
      destruct (guess_erc20_token E a chain); [eauto|done].
    + rewrite !bind_eq. cbn. eexists. split_and!; try reflexivity; try done.
      all: try (repeat constructor; fail).
      destruct (guess_erc20_token E a chain); [eauto|done].
    + rewrite !bind_eq. cbn. eexists. split_and!; try reflexivity; try done.
      all: try (repeat constructor; fail).
      destruct (guess_erc20_token E a chain); [eauto|done].
Qed.

(** X12: how the store read names a record.  A stored contract keeps its
    stored name -- the address when the document has none -- and ENS is
    not asked; an account that is not a contract and whose stored name is
    missing or is the address itself is named by ENS, which is asked
    once; any other account keeps its stored name.  Neither the chain,
    the registry nor a token probe is called, and nothing is written. *)
Theorem stored_record_name (chain : string) (addr : option string) (a : string)
    (db : Database) (raw : RawAddress) (r : AddressSemantics) :
  truthy addr = Some a ->
  find_address chain a db = Some raw ->
  let o := _read_stored_semantics E addr chain db in
  result o = Ok (Some r) ->
  state o = db /\
  (raw_is_contract raw = true ->
     name r = default a (raw_name raw) /\
     Forall (fun c => is_ens_call c = false) (calls o)) /\
  (raw_is_contract raw = false ->
     (raw_name raw = None \/ raw_name raw = Some a) ->
     name r = ens_name E chain a /\
     filter (fun c => is_ens_call c = true) (calls o) = [EnsName chain a]) /\
  (raw_is_contract raw = false ->
     forall nm, raw_name raw = Some nm -> nm <> a ->
     name r = nm /\ Forall (fun c => is_ens_call c = false) (calls o)) /\
  Forall (fun c => is_remote_call c = false \/ is_ens_call c = true) (calls o).
Proof.
  intros Ht Hfind. cbn zeta.
  rewrite (_read_stored_semantics_spec E chain addr a db Ht), Hfind. cbn zeta.
  unfold asks_ens.
  destruct (decide (raw_contract raw = ZERO_HASH)).
  - cbn [result state calls]. intros [= <-]. unfold stored_record, asks_ens. cbn [name].
    destruct (raw_is_contract raw) eqn:Hc; cbn [negb];
      rewrite ?andb_false_r, ?andb_true_r; split_and!; try done.
    all: try (intros _; split; [reflexivity|repeat constructor]; fail).
    all: try (intros _ Hname;
              rewrite bool_decide_eq_true_2
                by (apply default_stored_name, Hname);
              split; reflexivity).
    all: try (intros _ nm Hnm Hne; rewrite Hnm; cbn;
              rewrite bool_decide_eq_false_2 by exact Hne;
              split; [reflexivity|repeat constructor]).
    all: try (case_bool_decide).
    all: repeat (first [apply List.Forall_nil | apply List.Forall_cons]);
      first [left; reflexivity|right; reflexivity].
  - destruct (find_contract (raw_contract raw) db) as [rc|]; [|discriminate].
    destruct (stored_contract rc) as [c|]; [|discriminate].
    cbn [result state calls]. intros [= <-]. unfold stored_record, asks_ens. cbn [name].
    destruct (raw_is_contract raw) eqn:Hc; cbn [negb];
      rewrite ?andb_false_r, ?andb_true_r; split_and!; try done.
    all: try (intros _; split; [reflexivity|repeat constructor]; fail).
    all: try (intros _ Hname;
              rewrite bool_decide_eq_true_2
                by (apply default_stored_name, Hname);
              split; reflexivity).
    all: try (intros _ nm Hnm Hne; rewrite Hnm; cbn;
              rewrite bool_decide_eq_false_2 by exact Hne;
              split; [reflexivity|repeat constructor]).
    all: try (case_bool_decide).
    all: repeat (first [apply List.Forall_nil | apply List.Forall_cons]);
      first [left; reflexivity|right; reflexivity].
Qed.

End TiersMore.

(** ** More on the accessors *)

Lemma dict_get_elem {V} (k : string) (v : V) (d : dict V) :
  NoDup (map fst d) -> (k, v) ∈ d -> dict_get k d = Some v.
Proof.
  induction d as [|[k' v'] d IH]; cbn; intros Hnd Hin; [inversion Hin|].
  apply NoDup_cons in Hnd as [Hk' Hnd].
  apply elem_of_cons in Hin as [[= -> ->]|Hin].
  - rewrite decide_True by reflexivity. reflexivity.
  - rewrite decide_False; [exact (IH Hnd Hin)|].
    intros ->. apply Hk'. apply list_elem_of_fmap. exists (k, v). done.
Qed.

(** a filtered list with one element: that element is the only one of
    the list that passes the filter *)
Lemma filter_singleton {A} (P : A -> Prop) `{forall x, Decision (P x)} (l : list A) x :
  filter P l = [x] -> x ∈ l /\ P x /\ forall y, y ∈ l -> P y -> y = x.
Proof.
  intros Hf.
  assert (forall y, y ∈ filter P l <-> y = x) as Hin.
  { intros y. rewrite Hf. rewrite list_elem_of_singleton. reflexivity. }
  assert (x ∈ filter P l) as Hx by (apply Hin; reflexivity).
  apply list_elem_of_filter in Hx as [HP Hx]. split_and!; [exact Hx|exact HP|].
  intros y Hy HPy. apply Hin. apply list_elem_of_filter. done.
Qed.

Lemma filter_unique {A} (P : A -> Prop) `{forall x, Decision (P x)} (l : list A) x :
  NoDup l -> x ∈ l -> P x -> (forall y, y ∈ l -> P y -> y = x) -> filter P l = [x].
Proof.
  intros Hnd Hx HP Huniq.
  assert (NoDup (filter P l)) as Hndf by (apply NoDup_filter, Hnd).
  assert (x ∈ filter P l) as Hxf by (apply list_elem_of_filter; done).
  destruct (filter P l) as [|y [|z rest]] eqn:Hf.
  - inversion Hxf.
  - apply list_elem_of_singleton in Hxf. subst. reflexivity.
  - exfalso.
    assert (y = x) as ->.
    { assert (y ∈ filter P l) as Hy by (rewrite Hf; left).
      apply list_elem_of_filter in Hy as [? ?]. auto. }
    assert (z = x) as ->.
    { assert (z ∈ filter P l) as Hz by (rewrite Hf; right; left).
      apply list_elem_of_filter in Hz as [? ?]. auto. }
    apply NoDup_cons in Hndf as [Hnot _]. apply Hnot. left.
Qed.

Section AccessorsMore.
Context {Abi : Type} (E : Collaborators Abi).

(** on a consistent repository a call for a non-empty address that
    returns, returns a record of the heap *)
Lemma get_semantics_returns chain addr a s v :
  consistent s -> truthy addr = Some a ->
  result (get_semantics E chain addr s) = Ok v ->
  exists l r, v = Some l /\ heap (state (get_semantics E chain addr s)) !! l = Some r.
Proof.
  intros Hs Ht Hres.
  destruct (get_semantics_keeps E chain addr s Hs) as (_ & _ & Hok).
  specialize (Hok v Hres). unfold semantics_entry_ok in Hok. cbn in Hok.
  rewrite Ht in Hok. destruct Hok as (l & -> & Hl).
  destruct (lookup_lt_is_Some_2 _ l Hl) as [r Hr]. eauto.
Qed.

(** the anonymous event lookup when its cache does not answer *)
Lemma get_anonymous_event_abi_miss chain addr a s l r :
  truthy addr = Some a ->
  lru_find (chain, addr) (c_get_anonymous_event_abi (caches s)) = None ->
  returns_record_at (get_semantics E chain addr s) l r ->
  result (get_anonymous_event_abi E chain addr s) =
  Ok (match map fst (anonymous_events (contract r)) with
      | [event_signature] => dict_get event_signature (events (contract r))
      | _ => None
      end).
Proof.
  intros Ht Hmiss [Hres Hheap]. unfold get_anonymous_event_abi.
  rewrite (lru_cache_miss slot_get_anonymous_event_abi _ _ _ Hmiss), Ht.
  rewrite bind_eq.
  destruct (get_semantics E chain addr s) as [res1 s1 cs1].
  cbn [result state] in Hres, Hheap. subst res1. cbn [result state calls].
  rewrite !bind_eq, (deref_eq l r s1 Hheap). cbn [result state calls].
  unfold anonymous_events.
  destruct (map fst (filter _ (events (contract r)))) as [|k [|k' ks]]; reflexivity.
Qed.

(** X13: the anonymous event lookup, when its cache does not answer and
    the resolution returns a record whose events have distinct keys:
    it returns an event exactly when one and only one event of the
    contract is marked anonymous, and then returns that event; with no
    anonymous event, or with two or more, it returns nothing. *)
Theorem get_anonymous_event_abi_unique (s : Repo) (chain : string)
    (addr : option string) (a : string) (l : nat) (r : AddressSemantics) :
  truthy addr = Some a ->
  lru_find (chain, addr) (c_get_anonymous_event_abi (caches s)) = None ->
  returns_record_at (get_semantics E chain addr s) l r ->
  NoDup (map fst (events (contract r))) ->
  let o := get_anonymous_event_abi E chain addr s in
  (forall e, result o = Ok (Some e) <->
     exists k, (k, e) ∈ events (contract r) /\ ev_anonymous e = true /\
       forall k' e', (k', e') ∈ events (contract r) -> ev_anonymous e' = true ->
         (k', e') = (k, e)) /\
  ((forall k e, (k, e) ∈ events (contract r) -> ev_anonymous e = false) ->
     result o = Ok None) /\
  (forall k1 e1 k2 e2,
     (k1, e1) ∈ events (contract r) -> (k2, e2) ∈ events (contract r) ->
     ev_anonymous e1 = true -> ev_anonymous e2 = true -> k1 <> k2 ->
     result o = Ok None).
Proof.
  intros Ht Hmiss Hrec Hnd. cbn zeta.
  rewrite (get_anonymous_event_abi_miss chain addr a s l r Ht Hmiss Hrec).
  assert (NoDup (events (contract r))) as Hnd' by (eapply NoDup_fmap_1, Hnd).
  assert (forall e, (exists k, anonymous_events (contract r) = [(k, e)]) <->
            exists k, (k, e) ∈ events (contract r) /\ ev_anonymous e = true /\
              forall k' e', (k', e') ∈ events (contract r) -> ev_anonymous e' = true ->
                (k', e') = (k, e)) as Hone.
  { intros e. unfold anonymous_events. split.
    - intros [k Hf]. exists k. apply filter_singleton in Hf as (Hin & Ha & Hu).
      split_and!; [exact Hin|exact Ha|]. intros k' e' Hin' Ha'.
      apply (Hu (k', e')); done.
    - intros (k & Hin & Ha & Hu). exists k.
      apply filter_unique; [exact Hnd'|exact Hin|exact Ha|].
      intros [k' e'] Hin' Ha'. apply Hu; done. }
  split_and!.
  - intros e. rewrite <- Hone. split.
    + destruct (anonymous_events (contract r)) as [|[k e0] [|x rest]] eqn:Hf;
        cbn [map fst]; try discriminate.
      intros [= Hget]. exists k.
      assert ((k, e0) ∈ events (contract r)) as Hin.
      { unfold anonymous_events in Hf. apply filter_singleton in Hf as [? _]. done. }
      rewrite (dict_get_elem k e0 _ Hnd Hin) in Hget. injection Hget as <-.
      reflexivity.
    + intros [k Hf]. rewrite Hf. cbn [map fst]. f_equal.
      unfold anonymous_events in Hf. apply filter_singleton in Hf as [Hin _].
      apply dict_get_elem; done.
  - intros Hnone.
    destruct (anonymous_events (contract r)) as [|[k e0] rest] eqn:Hf; [reflexivity|].
    exfalso. assert ((k, e0) ∈ anonymous_events (contract r)) as Hin
      by (rewrite Hf; left).
    unfold anonymous_events in Hin. apply list_elem_of_filter in Hin as [Ha Hin].
    cbn in Ha. rewrite (Hnone k e0 Hin) in Ha. discriminate.
  - intros k1 e1 k2 e2 H1 H2 Ha1 Ha2 Hne.
    destruct (anonymous_events (contract r)) as [|[k e0] [|x rest]] eqn:Hf;
      cbn [map fst]; try reflexivity.
    exfalso. unfold anonymous_events in Hf.
    apply filter_singleton in Hf as (_ & _ & Hu).
    pose proof (Hu (k1, e1) H1 Ha1) as [= -> _].
    pose proof (Hu (k2, e2) H2 Ha2) as [= -> _]. done.
Qed.

End AccessorsMore.

(** ** Token data and labels *)

Section Labels.
Context {Abi : Type} (E : Collaborators Abi).

(** the token data lookup once the resolution has returned a record *)
Lemma get_token_data_record chain addr a proxies s l r :
  truthy addr = Some a ->
  returns_record_at (get_semantics E chain addr s) l r ->
  get_token_data E chain addr proxies s =
  mkOutcome
    (Ok (match erc20 r with
         | Some t =>
             (Some (erc20_name t), Some (erc20_symbol t), Some (erc20_decimals t),
              Some "ERC20")
         | None =>
             match in_proxies proxies a with
             | Some (mkProxy _ (Some t)) =>
                 (Some (erc20_name t), Some (erc20_symbol t), Some (erc20_decimals t),
                  Some "ERC20")
             | _ => (Some a, Some "Unknown", Some 18, Some "ERC20")
             end
         end))
    (state (get_semantics E chain addr s)) (calls (get_semantics E chain addr s)).
Proof.
  intros Ht [Hres Hheap]. unfold get_token_data. rewrite Ht, bind_eq.
  destruct (get_semantics E chain addr s) as [res1 s1 cs1].
  cbn [result state] in Hres, Hheap. subst res1. cbn [result state calls].
  rewrite !bind_eq, (deref_eq l r s1 Hheap). cbn [result state calls ret].
  destruct (erc20 r) as [t|]; cbn; rewrite ?app_nil_r; [reflexivity|].
  destruct (in_proxies proxies a) as [[pn [t|]]|]; cbn; rewrite ?app_nil_r; reflexivity.
Qed.

(** X14: the token data of a non-empty address whose resolution returns
    a record.  The ERC20 descriptor of the record wins over the proxies;
    without one, the token of the proxy listed for the address is used;
    without either, the answer is the placeholder: the address as name,
    "Unknown" as symbol and 18 decimals.  In every case the three values
    are present and the fourth component is "ERC20", and the lookup adds
    no collaborator call to those of the resolution. *)
Theorem get_token_data_priority (s : Repo) (chain : string) (addr : option string)
    (a : string) (proxies : option (dict Proxy)) (l : nat) (r : AddressSemantics) :
  truthy addr = Some a ->
  returns_record_at (get_semantics E chain addr s) l r ->
  let o := get_token_data E chain addr proxies s in
  (forall t, erc20 r = Some t ->
     result o = Ok (Some (erc20_name t), Some (erc20_symbol t),
                    Some (erc20_decimals t), Some "ERC20")) /\
  (forall px t, erc20 r = None -> in_proxies proxies a = Some px ->
     proxy_token px = Some t ->
     result o = Ok (Some (erc20_name t), Some (erc20_symbol t),
                    Some (erc20_decimals t), Some "ERC20")) /\
  (erc20 r = None ->
   (forall px, in_proxies proxies a = Some px -> proxy_token px = None) ->
   result o = Ok (Some a, Some "Unknown", Some 18, Some "ERC20")) /\
  (exists n sy d, result o = Ok (Some n, Some sy, Some d, Some "ERC20")) /\
  state o = state (get_semantics E chain addr s) /\
  calls o = calls (get_semantics E chain addr s).
Proof.
  intros Ht Hrec. cbn zeta.
  rewrite (get_token_data_record chain addr a proxies s l r Ht Hrec).
  cbn [result state calls]. split_and!; try reflexivity.
  - intros t ->. reflexivity.
  - intros px t -> -> Hpx. destruct px as [pn tok]. cbn in Hpx. subst tok. reflexivity.
  - intros -> Hnone. destruct (in_proxies proxies a) as [[pn [t|]]|]; try reflexivity.
    specialize (Hnone _ eq_refl). discriminate.
  - destruct (erc20 r) as [t|]; [eauto|].
    destruct (in_proxies proxies a) as [[pn [t|]]|]; eauto.
Qed.

(** the label lookup once the resolution has returned a record *)
Lemma get_address_label_record chain addr a n proxies s l r :
  truthy addr = Some a ->
  int16 E a = Some n -> n ∉ precompiles E ->
  returns_record_at (get_semantics E chain addr s) l r ->
  result (get_address_label E chain addr proxies s) =
  Ok (match erc20 r with
      | Some t => erc20_symbol t
      | None =>
          match in_proxies proxies a with
          | Some px => proxy_name px
          | None => if decide (name r = "") then a else name r
          end
      end).
Proof.
  intros Ht Hint Hpre [Hres Hheap]. unfold get_address_label.
  rewrite Ht, Hint, bool_decide_eq_false_2 by exact Hpre. rewrite bind_eq.
  destruct (get_semantics E chain addr s) as [res1 s1 cs1].
  cbn [result state] in Hres, Hheap. subst res1. cbn [result state calls].
  rewrite !bind_eq, (deref_eq l r s1 Hheap). cbn [result state calls ret].
  destruct (erc20 r) as [t|]; [reflexivity|].
  destruct (in_proxies proxies a); reflexivity.
Qed.

(** X15: the label of a non-empty address.  An address that does not
    parse as a hexadecimal number raises [ValueError], and a precompiled
    address is labelled "Precompiled": in both cases no resolution takes
    place and the repository is untouched.  Otherwise, when the
    resolution returns a record, the label is the symbol of its ERC20
    descriptor, else the name of the proxy listed for the address, else
    the name of the record, else (the name being empty) the address.  On
    a repository a client can observe the lookup raises nothing of its
    own but that [ValueError]: any other exception is the one the
    resolution raised. *)
Theorem get_address_label_priority (s : Repo) (chain : string) (addr : option string)
    (a : string) (proxies : option (dict Proxy)) :
  truthy addr = Some a ->
  let o := get_address_label E chain addr proxies s in
  (int16 E a = None -> o = mkOutcome (Raise ValueError) s []) /\
  (forall n, int16 E a = Some n -> n ∈ precompiles E ->
     o = mkOutcome (Ok "Precompiled") s []) /\
  (forall n l r,
     int16 E a = Some n -> n ∉ precompiles E ->
     returns_record_at (get_semantics E chain addr s) l r ->
     (forall t, erc20 r = Some t -> result o = Ok (erc20_symbol t)) /\
     (forall px, erc20 r = None -> in_proxies proxies a = Some px ->
        result o = Ok (proxy_name px)) /\
     (erc20 r = None -> in_proxies proxies a = None -> name r <> "" ->
        result o = Ok (name r)) /\
     (erc20 r = None -> in_proxies proxies a = None -> name r = "" ->
        result o = Ok a)) /\
  (reachable E s ->
   forall e, result o = Raise e ->
     (e = ValueError /\ int16 E a = None) \/
     result (get_semantics E chain addr s) = Raise e).
Proof.
  intros Ht. cbn zeta. split_and!.
  - intros Hint. unfold get_address_label. rewrite Ht, Hint. reflexivity.
  - intros n Hint Hpre. unfold get_address_label.
    rewrite Ht, Hint, bool_decide_eq_true_2 by exact Hpre. reflexivity.
  - intros n l r Hint Hpre Hrec.
    rewrite (get_address_label_record chain addr a n proxies s l r Ht Hint Hpre Hrec).
    split_and!.
    + intros t ->. reflexivity.
    + intros px -> ->. reflexivity.
    + intros -> -> Hname. rewrite decide_False by exact Hname. reflexivity.
    + intros -> -> Hname. rewrite decide_True by exact Hname. reflexivity.
  - intros Hreach e. pose proof (reachable_consistent E s Hreach) as Hs.
    unfold get_address_label. rewrite Ht.
    destruct (int16 E a) as [n|] eqn:Hint; [|intros [= <-]; left; done].
    case_bool_decide; [discriminate|]. rewrite bind_eq.
    destruct (result (get_semantics E chain addr s)) as [v|e'] eqn:Hres.
    + destruct (get_semantics_returns E chain addr a s v Hs Ht Hres)
        as (l & r & -> & Hheap).
      rewrite !bind_eq, (deref_eq l r _ Hheap). cbn [result state calls ret].
      destruct (erc20 r); [discriminate|].
      destruct (in_proxies proxies a); discriminate.
    + cbn. intros [= <-]. right. reflexivity.
Qed.

(** the constructor lookup when its cache does not answer and the record
    has a constructor entry *)
Lemma get_constructor_abi_appends chain addr a s l r f :
  truthy addr = Some a ->
  lru_find (chain, addr) (c_get_constructor_abi (caches s)) = None ->
  returns_record_at (get_semantics E chain addr s) l r ->
  dict_get "constructor" (functions (contract r)) = Some f ->
  let s1 := state (get_semantics E chain addr s) in
  let o := get_constructor_abi E chain addr s in
  result o = Ok (Some (l, "constructor")) /\
  deref_fn (l, "constructor") (state o) = Some (append_output create_output f) /\
  c_get_semantics (caches (state o)) = c_get_semantics (caches s1) /\
  c_get_function_abi (caches (state o)) = c_get_function_abi (caches s).
Proof.
  intros Ht Hmiss [Hres Hheap] Hf. cbn zeta.
  pose proof (get_semantics_frames E c_get_constructor_abi chain addr s
                ltac:(reflexivity)) as Hctor.
  pose proof (get_semantics_frames E c_get_function_abi chain addr s
                ltac:(reflexivity)) as Hfn.
  unfold frames in Hctor, Hfn. unfold get_constructor_abi.
  rewrite (lru_cache_miss slot_get_constructor_abi _ _ _ Hmiss), Ht.
  rewrite bind_eq.
  destruct (get_semantics E chain addr s) as [res1 s1 cs1].
  cbn [result state] in Hres, Hheap, Hctor, Hfn. subst res1. cbn [result state calls].
  rewrite !bind_eq, (deref_eq l r s1 Hheap). cbn [result state calls]. rewrite Hf.
  cbn [ret result state calls]. rewrite !bind_eq.
  cbn [ret outputs_append modify result state calls slot_get slot_get_constructor_abi
       caches set_heap].
  rewrite Hctor, Hmiss. cbn [result state]. split_and!.
  - reflexivity.
  - unfold deref_fn. cbn [state set_caches set_heap heap fst snd].
    rewrite list_lookup_alter_eq, Hheap. cbn. rewrite dict_get_alter, Hf. reflexivity.
  - reflexivity.
  - cbn. exact Hfn.
Qed.

(** X16: the function objects are shared.  When a constructor lookup
    that its own cache does not answer has appended the marker, and the
    cache of [get_function_abi] holds no earlier answer for "constructor"
    at this address, a lookup of the function "constructor" for the same
    address returns the same object: the entry with the marker among its
    outputs. *)
Theorem get_function_abi_sees_marker (s : Repo) (chain : string)
    (addr : option string) (a : string) (l : nat) (r : AddressSemantics)
    (f : FunctionSemantics) :
  truthy addr = Some a ->
  lru_find (chain, addr) (c_get_constructor_abi (caches s)) = None ->
  lru_find (chain, addr, "constructor") (c_get_function_abi (caches s)) = None ->
  returns_record_at (get_semantics E chain addr s) l r ->
  dict_get "constructor" (functions (contract r)) = Some f ->
  let o1 := get_constructor_abi E chain addr s in
  let o2 := get_function_abi E chain addr "constructor" (state o1) in
  result o2 = result o1 /\
  result o2 = Ok (Some (l, "constructor")) /\
  deref_fn (l, "constructor") (state o2) = Some (append_output create_output f) /\
  calls o2 = [].
Proof.
  intros Ht Hmiss Hfmiss Hrec Hf. cbn zeta.
  destruct (get_constructor_abi_appends chain addr a s l r f Ht Hmiss Hrec Hf)
    as (Hres1 & Hderef & Hsem & Hfn). cbn zeta in Hres1, Hderef, Hsem, Hfn.
  set (s1 := state (get_constructor_abi E chain addr s)) in *.
  assert (lru_find (chain, addr) (c_get_semantics (caches s1)) = Some (Some l))
    as Hcached.
  { rewrite Hsem. destruct Hrec as [Hres _]. unfold get_semantics in *.
    apply (lru_cache_cached slot_get_semantics); [reflexivity| |exact Hres].
    unfold frames. rewrite get_semantics_wrapped_frames. reflexivity. }
  assert (exists r', heap s1 !! l = Some r' /\
                     dict_get "constructor" (functions (contract r'))
                     = Some (append_output create_output f)) as (r' & Hr' & Hf').
  { unfold deref_fn in Hderef. cbn [fst snd] in Hderef.
    destruct (heap s1 !! l) as [r'|]; [|discriminate]. eauto. }
  rewrite Hres1. unfold get_function_abi.
  rewrite (lru_cache_miss slot_get_function_abi);
    [|cbn [slot_get slot_get_function_abi]; rewrite Hfn; exact Hfmiss].
  rewrite Ht, bind_eq, (get_semantics_hit E chain addr s1 _ Hcached).
  cbn [result state calls].
  rewrite !bind_eq.
  rewrite (deref_eq l r') by exact Hr'. cbn [result state calls]. rewrite Hf'.
  cbn [ret result state calls app].
  split_and!; try reflexivity.
  match goal with
  | |- deref_fn _ (match ?x with _ => _ end) = _ => destruct x
  end; unfold deref_fn; cbn [state set_caches heap fst snd]; rewrite Hr'; exact Hf'.
Qed.

End Labels.

(** ** The further properties on the small deployment *)

Lemma get_most_used_signature_max_witness :
  result (get_most_used_signature "0xa9059cbb" ex_registry) = Ok (Some ex_guessed_transfer)
  /\ result (get_most_used_signature "0x18160ddd" ex_registry) = Ok None.
Proof.
  destruct (get_most_used_signature_max "0xa9059cbb" ex_registry)
    as (_ & _ & _ & Hsome).
  destruct (get_most_used_signature_max "0x18160ddd" ex_registry)
    as (_ & _ & Hnone & _).
  split.
  - destruct Hsome as (i & sg & Hres & _); [vm_compute; discriminate|].
    vm_compute. reflexivity.
  - apply Hnone. intros [|[|i]] sg Hi; [| |discriminate];
      injection Hi as <-; vm_compute; discriminate.
Defined.

Lemma insert_contract_signatures_again_witness :
  let c := mkContractSemantics "0x20c0de" "Token" ex_token_events ex_token_functions [] in
  let db1 := state (insert_contract_signatures ex_collaborators c ex_registry) in
  let db2 := state (insert_contract_signatures ex_collaborators c db1) in
  has_key (new_signature ex_collaborators ex_swap) (db_signatures db1) /\
  length (db_signatures db2) = length (db_signatures db1) /\
  length (db_signatures db1) = 8%nat.
Proof.
  cbn zeta.
  destruct (insert_contract_signatures_again ex_collaborators
              (mkContractSemantics "0x20c0de" "Token" ex_token_events
                 ex_token_functions []) ex_registry) as (Hkeys & Hlen & _).
  split; [|split; [exact Hlen|vm_compute; reflexivity]].
  apply Hkeys; [|reflexivity].
  apply list_elem_of_In. vm_compute. tauto.
Defined.

Lemma most_used_after_registration_witness :
  exists sg,
    result (get_most_used_signature "0xa9059cbb"
              (state (update_or_insert_signature ex_transfer ex_registry)))
    = Ok (Some sg) /\
    3 <= count sg.
Proof.
  destruct (most_used_after_registration ex_transfer ex_registry)
    as (sg & Hres & _ & Hmax).
  exists sg. split; [exact Hres|].
  exact (Hmax 1%nat ex_guessed_transfer eq_refl eq_refl).
Defined.

Lemma update_or_insert_signature_arguments_witness :
  exists sg',
    db_signatures (state (update_or_insert_signature ex_transfer ex_registry)) !! 1%nat
    = Some sg' /\
    args sg' = [mkSignatureArg "to" "address"; mkSignatureArg "value" "uint256"].
Proof.
  destruct (update_or_insert_signature_arguments ex_transfer ex_registry
              1%nat ex_guessed_transfer) as (_ & sg' & Hsg' & _ & _ & Hover & _).
  - vm_compute. reflexivity.
  - exists sg'. split; [exact Hsg'|].
    exact (Hover (mkSignatureArg "arg0" "address") [mkSignatureArg "arg1" "uint256"]
             eq_refl eq_refl).
Defined.

Lemma store_round_trip_witness :
  result (_read_stored_semantics ex_collaborators (Some "0x70ce") "1"
            (state (update_semantics ex_collaborators (Some ex_token_record) ex_registry)))
  = Ok (Some ex_token_record).
Proof.
  apply (store_round_trip ex_collaborators ex_token_record ex_registry).
  - discriminate.
  - discriminate.
  - repeat constructor.
  - repeat constructor.
  - discriminate.
Defined.

Lemma resolution_is_persisted_witness :
  let o := get_semantics ex_collaborators "1" (Some "0x70ce") (new_repository ex_empty) in
  let o' := get_semantics ex_collaborators "1" (Some "0x70ce")
              (new_repository (database (state o))) in
  is_Some (find_address "1" "0x70ce" (database (state o))) /\
  (exists r', returns_record o' r') /\
  Forall (fun c => is_remote_call c = false \/ exists ch ad, c = EnsName ch ad)
    (calls o').
Proof.
  exact (resolution_is_persisted ex_collaborators (new_repository ex_empty) "1"
           (Some "0x70ce") "0x70ce" eq_refl eq_refl eq_refl).
Defined.

Lemma get_semantics_memoized_witness :
  let o := get_semantics ex_collaborators "1" (Some "0x70ce") (new_repository ex_empty) in
  let o' := get_semantics ex_collaborators "1" (Some "0x70ce") (state o) in
  result o' = Ok (Some 0%nat) /\ calls o' = [] /\
  database (state o') = database (state o) /\
  heap (state o') = heap (state o) /\
  _records (state o') = _records (state o).
Proof.
  exact (proj1 (get_semantics_memoized ex_collaborators (new_repository ex_empty)
                  "1" (Some "0x70ce")) (Some 0%nat) eq_refl).
Defined.

Lemma accessors_memoized_witness :
  let o := get_constructor_abi ex_collaborators "1" (Some "0xc0ffee")
             (new_repository ex_deployed) in
  let o' := get_constructor_abi ex_collaborators "1" (Some "0xc0ffee") (state o) in
  result o' = Ok (Some (0%nat, "constructor")) /\ calls o' = [] /\
  database (state o') = database (state o) /\
  heap (state o') = heap (state o) /\
  _records (state o') = _records (state o).
Proof.
  destruct (accessors_memoized ex_collaborators (new_repository ex_deployed)
              "1" (Some "0xc0ffee") "constructor") as (_ & _ & _ & _ & Hctor & _).
  exact (Hctor (Some (0%nat, "constructor")) eq_refl).
Defined.

Lemma classifier_descriptor_iff_erc20_witness :
  exists std tok,
    result (_decode_standard_semantics ex_collaborators (Some "0x70ce") "Token"
              ex_token_events [] ex_empty) = Ok (std, tok) /\
    (is_Some tok <-> std = Some "ERC20") /\ std = None.
Proof.
  destruct (classifier_descriptor_iff_erc20 ex_collaborators (Some "0x70ce") "Token"
              ex_token_events [] ex_empty) as (std & tok & Hres & _ & Htok & _).
  exists std, tok. split; [exact Hres|]. split; [exact Htok|].
  vm_compute in Hres. injection Hres as <- _. reflexivity.
Defined.

Lemma remote_record_shape_witness :
  exists r,
    result (remote_address_semantics ex_collaborators "1" (Some "0x70ce") "0x70ce"
              ex_empty) = Ok r /\
    code_hash (contract r) = "0x20c0de" /\
    (standard r = Some "ERC20" -> is_Some (erc20 r)).
Proof.
  destruct (remote_record_shape ex_collaborators "1" (Some "0x70ce") "0x70ce" ex_empty
              eq_refl) as (r & Hres & _ & _ & _ & _ & Hcode & _ & Hstd & _).
  exists r. split; [exact Hres|]. split; [exact Hcode|exact Hstd].
Defined.

Lemma stored_record_name_witness :
  state (_read_stored_semantics ex_collaborators (Some "0xe0a") "1" ex_flagged)
  = ex_flagged /\
  Forall (fun c => is_remote_call c = false \/ is_ens_call c = true)
    (calls (_read_stored_semantics ex_collaborators (Some "0xe0a") "1" ex_flagged)).
Proof.
  destruct (stored_record_name ex_collaborators "1" (Some "0xe0a") "0xe0a" ex_flagged
              (mkRawAddress "1" "0xe0a" (Some "Vault") true ZERO_HASH (Some "ERC20")
                 (Some ex_vault))
              (mkAddressSemantics "1" "0xe0a" "Vault" true eoa_contract
                 (Some "ERC20") (Some ex_vault))
              eq_refl eq_refl eq_refl) as (Hstate & _ & _ & _ & Hcalls).
  split; [exact Hstate|exact Hcalls].
Defined.

Lemma get_anonymous_event_abi_unique_witness :
  result (get_anonymous_event_abi ex_collaborators "1" (Some "0xa11")
            (new_repository ex_anonymous)) = Ok (Some ex_log_note).
Proof.
  destruct (get_anonymous_event_abi_unique ex_collaborators
              (new_repository ex_anonymous) "1" (Some "0xa11") "0xa11" 0%nat
              ex_anonymous_record eq_refl eq_refl) as (Hone & _ & _).
  - split; vm_compute; reflexivity.
  - apply (bool_decide_unpack _). vm_compute. exact I.
  - apply Hone. exists "0x01". split_and!.
    + apply list_elem_of_In. vm_compute. left. reflexivity.
    + reflexivity.
    + intros k' e' Hin Ha. apply list_elem_of_In in Hin. vm_compute in Hin.
      destruct Hin as [Hin|[Hin|[]]]; injection Hin as <- <-;
        [reflexivity|discriminate].
Defined.

Lemma get_token_data_priority_witness :
  result (get_token_data ex_collaborators "1" (Some "0xe0a") None
            (new_repository ex_flagged))
  = Ok (Some "Vault", Some "VLT", Some 6, Some "ERC20").
Proof.
  destruct (get_token_data_priority ex_collaborators (new_repository ex_flagged)
              "1" (Some "0xe0a") "0xe0a" None 0%nat ex_flagged_record eq_refl)
    as (Herc20 & _).
  - split; vm_compute; reflexivity.
  - exact (Herc20 ex_vault eq_refl).
Defined.

Lemma get_address_label_priority_witness :
  get_address_label ex_labeller "1" (Some "0x04") None (new_repository ex_flagged)
  = mkOutcome (Ok "Precompiled") (new_repository ex_flagged) [] /\
  get_address_label ex_labeller "1" (Some "0xzz") None (new_repository ex_flagged)
  = mkOutcome (Raise ValueError) (new_repository ex_flagged) [] /\
  result (get_address_label ex_labeller "1" (Some "0xe0a") None
            (new_repository ex_flagged)) = Ok "VLT".
Proof.
  split_and!.
  - destruct (get_address_label_priority ex_labeller (new_repository ex_flagged)
                "1" (Some "0x04") "0x04" None eq_refl) as (_ & Hpre & _).
    apply (Hpre 4); [reflexivity|]. apply list_elem_of_In. vm_compute. tauto.
  - destruct (get_address_label_priority ex_labeller (new_repository ex_flagged)
                "1" (Some "0xzz") "0xzz" None eq_refl) as (Hval & _).
    apply Hval. reflexivity.
  - destruct (get_address_label_priority ex_labeller (new_repository ex_flagged)
                "1" (Some "0xe0a") "0xe0a" None eq_refl) as (_ & _ & Hrec & _).
    destruct (Hrec 3594 0%nat ex_flagged_record) as (Hsym & _).
    + reflexivity.
    + intros Hin. apply list_elem_of_In in Hin. vm_compute in Hin.
      repeat (destruct Hin as [Hin|Hin]; [discriminate|]). exact Hin.
    + split; vm_compute; reflexivity.
    + exact (Hsym ex_vault eq_refl).
Defined.

Lemma get_function_abi_sees_marker_witness :
  let o1 := get_constructor_abi ex_collaborators "1" (Some "0xc0ffee")
              (new_repository ex_deployed) in
  let o2 := get_function_abi ex_collaborators "1" (Some "0xc0ffee") "constructor"
              (state o1) in
  result o2 = Ok (Some (0%nat, "constructor")) /\
  deref_fn (0%nat, "constructor") (state o2)
  = Some (append_output create_output ex_constructor).
Proof.
  cbn zeta.
  destruct (get_function_abi_sees_marker ex_collaborators (new_repository ex_deployed)
              "1" (Some "0xc0ffee") "0xc0ffee" 0%nat ex_deployed_record ex_constructor
              eq_refl eq_refl eq_refl) as (_ & Hres & Hderef & _).
  - split; vm_compute; reflexivity.
  - reflexivity.
  - split; [exact Hres|exact Hderef].
Defined.

Lemma amendment_is_not_persisted_witness :
  let o := get_semantics ex_collaborators "1" (Some "0xe0a") (new_repository ex_empty) in
  let o' := get_semantics (with_amend (fun c => c) ex_collaborators) "1" (Some "0xe0a")
              (new_repository ex_empty) in
  database (state o') = database (state o) /\
  returns_record_at o 0%nat
    (with_contract (ex_amend eoa_contract) (eoa_record ex_collaborators "1" "0xe0a")) /\
  returns_record_at o' 0%nat (eoa_record ex_collaborators "1" "0xe0a").
Proof.
  cbn zeta.
  destruct (amendment_is_not_persisted ex_collaborators (fun c => c)
              (new_repository ex_empty) "1" (Some "0xe0a"))
    as (Hdb & _ & _ & _ & _ & Hmiss).
  split; [exact Hdb|].
  assert (returns_record_at
            (get_semantics ex_collaborators "1" (Some "0xe0a") (new_repository ex_empty))
            0%nat
            (with_contract (ex_amend eoa_contract)
               (eoa_record ex_collaborators "1" "0xe0a"))) as Hrec
    by (split; vm_compute; reflexivity).
  split; [exact Hrec|].
  destruct (Hmiss "0xe0a" 0%nat _ eq_refl eq_refl Hrec) as (r0 & Hres & _ & Hrec').
  vm_compute in Hres. injection Hres as <-. exact Hrec'.
Defined.
